(** * The immune-system orchestrator: a shallow embedding and its properties

    The development follows [src/orchestrator.py] and
    [src/immune_system/agents.py].  Its first half holds the definitions:

    - the Python containers the orchestrator relies on (insertion-ordered
      dictionaries, list objects held by reference, negative slices);
    - the collaborators the orchestrator calls into (agents, quarantine
      controller, immune memory, healer);
    - the orchestrator itself: the approval workflow, the action log, one
      iteration of the sentinel sweep and the [heal_agent] coroutine, cut at
      its [await] points, together with the transition system they generate;
    - a small concrete fleet on which the statements are exercised.

    Its second half holds the lemmas and the properties of the orchestrator.
    Python floats ([severity], timestamps) are read as rationals. *)

From Stdlib Require Import QArith Qround Lia.
From stdpp Require Import base decidable option list strings gmap.

Set Default Proof Using "Type".
Set Warnings "-clear-no-such-hyp".

(** ** Python containers *)

(** A [dict] keeps its keys in insertion order; assigning to a key that is
    present replaces the value in place, assigning to a new key appends. *)
Module PyDict.
Section dict.
Context {K V : Type} `{EqDecision K}.

Fixpoint get (k : K) (d : list (K * V)) : option V :=
  match d with
  | [] => None
  | (k', v) :: d' => if decide (k = k') then Some v else get k d'
  end.

Fixpoint set (k : K) (v : V) (d : list (K * V)) : list (K * V) :=
  match d with
  | [] => [(k, v)]
  | (k', v') :: d' =>
      if decide (k = k') then (k', v) :: d' else (k', v') :: set k v d'
  end.

Fixpoint remove (k : K) (d : list (K * V)) : list (K * V) :=
  match d with
  | [] => []
  | (k', v) :: d' =>
      if decide (k = k') then remove k d' else (k', v) :: remove k d'
  end.

(** [d.pop(k, None)] *)
Definition pop (k : K) (d : list (K * V)) : option V * list (K * V) :=
  (get k d, remove k d).

(** [list(d.keys())] *)
Definition keys (d : list (K * V)) : list K := d.*1.

(** [k in d] *)
Definition mem (k : K) (d : list (K * V)) : bool :=
  bool_decide (k ∈ keys d).

(** [x.method()] on the object stored under [k]; nothing when absent. *)
Fixpoint update (f : V → V) (k : K) (d : list (K * V)) : list (K * V) :=
  match d with
  | [] => []
  | (k', v) :: d' =>
      if decide (k = k') then (k', f v) :: d' else (k', v) :: update f k d'
  end.
End dict.
End PyDict.

(** List objects live in a heap and are named by references, so that
    in-place [append], rebinding of an attribute to a new list and the copy
    made by [list(...)] are told apart. *)
Module PyList.
Section heap.
Context {A : Type}.

Definition deref (h : list (list A)) (r : nat) : list A := default [] (h !! r).

(** a new list object; its reference is the next free one *)
Definition alloc (l : list A) (h : list (list A)) : nat * list (list A) :=
  (length h, h ++ [l]).

(** [r.append(x)], in place *)
Definition append (r : nat) (x : A) (h : list (list A)) : list (list A) :=
  <[r := deref h r ++ [x]]> h.

(** the value of [l[-n:]]; Python reads [l[-0:]] as [l[0:]] *)
Definition slice_last (n : nat) (l : list A) : list A :=
  match n with
  | O => l
  | S _ => drop (length l - n) l
  end.
End heap.
End PyList.

(** ** Agents ([src/immune_system/agents.py]) *)

Module Agent.
Inductive AgentStatus := HEALTHY | INFECTED | QUARANTINED.

(** [BaseAgent], with the attributes the control loop reads or writes.  The
    sampled baselines ([base_latency_ms], ...) and the [AgentState] knobs
    only feed [execute]; the orchestrator never looks at them. *)
Record BaseAgent := {
  agent_id : string;
  agent_type : string;
  status : AgentStatus;
  execution_count : nat;
  infected : bool;
  infection_type : option string;
}.

Definition infect (ty : string) (a : BaseAgent) : BaseAgent :=
  {| agent_id := agent_id a; agent_type := agent_type a; status := INFECTED;
     execution_count := execution_count a;
     infected := true; infection_type := Some ty |}.

Definition cure (a : BaseAgent) : BaseAgent :=
  {| agent_id := agent_id a; agent_type := agent_type a; status := HEALTHY;
     execution_count := execution_count a;
     infected := false; infection_type := None |}.

Definition quarantine (a : BaseAgent) : BaseAgent :=
  {| agent_id := agent_id a; agent_type := agent_type a; status := QUARANTINED;
     execution_count := execution_count a;
     infected := infected a; infection_type := infection_type a |}.

Definition release (a : BaseAgent) : BaseAgent :=
  {| agent_id := agent_id a; agent_type := agent_type a;
     status := if negb (infected a) then HEALTHY else INFECTED;
     execution_count := execution_count a;
     infected := infected a; infection_type := infection_type a |}.
End Agent.

(** ** Collaborators of the orchestrator *)

(** Modelled from the spec: [quarantine.py] is not part of the sources at
  hand.  The spec (section 6) describes [QuarantineController] as a simple
  membership set with a monotonic cumulative counter. *)
Module QuarantineController.
Record t := { quarantined : gset string; total_quarantines : nat }.

Definition init : t := {| quarantined := ∅; total_quarantines := 0 |}.

Definition quarantine (agent_id : string) (q : t) : t :=
  {| quarantined := {[agent_id]} ∪ quarantined q;
     total_quarantines := S (total_quarantines q) |}.

Definition release (agent_id : string) (q : t) : t :=
  {| quarantined := quarantined q ∖ {[agent_id]};
     total_quarantines := total_quarantines q |}.

Definition is_quarantined (agent_id : string) (q : t) : bool :=
  bool_decide (agent_id ∈ quarantined q).

Definition get_quarantined_count (q : t) : nat := size (quarantined q).
End QuarantineController.

(** Modelled from the spec: [memory.py] is not part of the sources at hand.
  The spec (section 6) describes the Outcome Memory as an append-only store
  without eviction, with [record(id, category, action, success)] and
  [failedActions(id, category)], the set of actions known to have failed
  for that (agent, fault category) pair. *)
Module ImmuneMemory.
Section memory.
Context {DiagnosisType HealingAction : Type}.
Context `{EqDecision DiagnosisType, EqDecision HealingAction,
          Countable HealingAction}.

Record HealingRecord := {
  agent_id : string;
  diagnosis_type : DiagnosisType;
  healing_action : HealingAction;
  success : bool;
}.

Definition record_healing (aid : string) (dt : DiagnosisType)
    (act : HealingAction) (ok : bool) (m : list HealingRecord) :
    list HealingRecord :=
  m ++ [{| agent_id := aid; diagnosis_type := dt;
           healing_action := act; success := ok |}].

Definition is_failure_of (aid : string) (dt : DiagnosisType)
    (r : HealingRecord) : bool :=
  bool_decide (agent_id r = aid) && bool_decide (diagnosis_type r = dt)
  && negb (success r).

Definition get_failed_actions (aid : string) (dt : DiagnosisType)
    (m : list HealingRecord) : gset HealingAction :=
  list_to_set (healing_action <$> List.filter (is_failure_of aid dt) m).

Definition get_total_healings (m : list HealingRecord) : nat := length m.
End memory.
Arguments HealingRecord : clear implicits.
End ImmuneMemory.

(** Modelled from the spec: [healing.py] is not part of the sources at hand.
  The spec (sections 4.4 and 6) gives [nextAction(faultCategory, failedSet)]
  as the first action of the category's ordered policy that is not in the
  known-failed set, or none; [apply] never raises and reports pass or fail.
  The spec gives the call no other effect, and no line of the sources at
  hand clears the infection of an agent after a pass. *)
Module Healer.
Section healer.
Context {HealingAction : Type} `{Countable HealingAction}.

Record HealingResult := { validation_passed : bool; message : string }.

Fixpoint first_not_failed (policy : list HealingAction)
    (failed_actions : gset HealingAction) : option HealingAction :=
  match policy with
  | [] => None
  | action :: rest =>
      if decide (action ∈ failed_actions)
      then first_not_failed rest failed_actions
      else Some action
  end.

(** [get_next_action(diagnosis_type, failed_actions)], over the policy table *)
Definition get_next_action {DiagnosisType : Type}
    (get_healing_policy : DiagnosisType → list HealingAction)
    (diagnosis_type : DiagnosisType) (failed_actions : gset HealingAction) :
    option HealingAction :=
  first_not_failed (get_healing_policy diagnosis_type) failed_actions.

(** the agent as [apply_healing] leaves it: the call answers with its
    result, pass or fail, and the attributes of the agent kept here are as
    they were *)
Definition apply_healing (result : HealingResult) (a : Agent.BaseAgent) :
    Agent.BaseAgent :=
  a.
End healer.
End Healer.

(** ** The orchestrator ([src/orchestrator.py]) *)

(** Modelled from the spec: [detection.py] is not part of the sources at
    hand.  The spec (section 3) gives an [InfectionReport] an agent id, a
    severity in [0,10] and a set of anomaly kinds; being a plain object it is
    truthy. *)
Record InfectionReport := {
  ir_agent_id : string;
  severity : Q;
  anomalies : list string;
}.

Definition SEVERITY_REQUIRING_APPROVAL : Q := 7.

(** [round(x, 1)]: to the nearest tenth, ties to the even neighbour *)
Definition round_half_even (q : Q) : Z :=
  let f := Qfloor q in
  match (q - inject_Z f ?= 1 # 2)%Q with
  | Lt => f
  | Gt => (f + 1)%Z
  | Eq => if Z.even f then f else (f + 1)%Z
  end.

Definition round1 (q : Q) : Q := Qmake (round_half_even (q * 10)) 10.

Inductive LogLevel := INFO | WARNING | ERROR.

(** a call of [logger.info], [logger.warning] or [logger.error]: level,
    format string, and the agent the message is about *)
Record LogRecord := {
  level : LogLevel;
  fmt : string;
  about : string;
}.

(** a diagnosis: fault category, confidence in [0,1], free-text reasoning *)
Record Diagnosis (DiagnosisType : Type) := {
  diagnosis_type : DiagnosisType;
  confidence : Q;
  reasoning : string;
}.
Arguments diagnosis_type {_} _.
Arguments confidence {_} _.
Arguments reasoning {_} _.

(** What the orchestrator takes from the modules it imports: the fault
    categories of [diagnosis.py], the remediation actions and the policy
    table of [healing.py], the frozen baselines of [baseline.py], the
    diagnostician, and the wall clock, of which [clk n] is what the [n]-th
    call of [time.time()] returns. *)
Class Collaborators := {
  DiagnosisType : Type;
  HealingAction : Type;
  Baseline : Type;
  DiagnosisType_eq_dec :: EqDecision DiagnosisType;
  HealingAction_eq_dec :: EqDecision HealingAction;
  HealingAction_countable :: Countable HealingAction;
  get_baseline : string → Baseline;
  diagnose : InfectionReport → Baseline → Diagnosis DiagnosisType;
  get_healing_policy : DiagnosisType → list HealingAction;
  clk : nat → Q;
}.

Section orchestrator.
Context `{Collaborators}.

(** the values of [_pending_approvals] and [_rejected_approvals] *)
Record PendingEntry := {
  p_infection : InfectionReport;
  p_diagnosis : Diagnosis DiagnosisType;
  requested_at : Q;
}.

Record RejectedEntry := {
  r_infection : InfectionReport;
  r_diagnosis : Diagnosis DiagnosisType;
  rejected_at : Q;
}.

(** the keyword arguments [_log_action] is called with *)
Inductive ActionKwargs :=
| kw_none
| kw_severity (rounded : Q)
| kw_attempt (dt : DiagnosisType) (action : HealingAction)
             (success : bool) (trigger : string).

Record ActionLogEntry := {
  e_type : string;
  e_agent_id : string;
  e_timestamp : Q;
  e_kwargs : ActionKwargs;
}.

(** where a [heal_agent] coroutine is suspended *)
Inductive HealPoint :=
| at_start
| at_sleep1 (diagnosis : Diagnosis DiagnosisType)
| at_sleep2 (diagnosis : Diagnosis DiagnosisType) (failed_actions : gset HealingAction)
| at_apply (diagnosis : Diagnosis DiagnosisType) (next_action : HealingAction)
| at_sleep3.

(** a task running [heal_agent(agent_id, infection, trigger)]; [h_depth]
    counts the enclosing frames of the recursive escalation, each of which
    still owes its [finally] *)
Record HealTask := {
  h_agent_id : string;
  h_infection : InfectionReport;
  h_trigger : string;
  h_depth : nat;
  h_point : HealPoint;
}.

(** The attributes of [ImmuneSystemOrchestrator], followed by what lives
    outside the object: the heap of list objects, the number of clock
    readings so far, what the logger received, and the [heal_agent] tasks
    of the event loop. *)
Record State := mkState {
  agents : list (string * Agent.BaseAgent);
  quarantine : QuarantineController.t;
  immune_memory : list (ImmuneMemory.HealingRecord DiagnosisType HealingAction);
  total_infections : nat;
  total_healed : nat;
  total_failed_healings : nat;
  start_time : Q;
  running : bool;
  baselines_learned : bool;
  _pending_approvals : list (string * PendingEntry);
  _rejected_approvals : list (string * RejectedEntry);
  healing_in_progress : gset string;
  _healing_action_log : nat;
  _action_log_max : nat;
  heap : list (list ActionLogEntry);
  time_reads : nat;
  log_records : list LogRecord;
  tasks : list HealTask;
}.

(** Assignments to one attribute.  They take the state apart, so a state
    that has been through several of them is again a plain record. *)
Definition set_agents f (s : State) : State :=
  let 'mkState ag qu im ti th tf st ru bl pa ra hp al am he tr lr ts := s in
  mkState (f ag) qu im ti th tf st ru bl pa ra hp al am he tr lr ts.

Definition set_quarantine f (s : State) : State :=
  let 'mkState ag qu im ti th tf st ru bl pa ra hp al am he tr lr ts := s in
  mkState ag (f qu) im ti th tf st ru bl pa ra hp al am he tr lr ts.

Definition set_immune_memory f (s : State) : State :=
  let 'mkState ag qu im ti th tf st ru bl pa ra hp al am he tr lr ts := s in
  mkState ag qu (f im) ti th tf st ru bl pa ra hp al am he tr lr ts.

Definition set_total_infections f (s : State) : State :=
  let 'mkState ag qu im ti th tf st ru bl pa ra hp al am he tr lr ts := s in
  mkState ag qu im (f ti) th tf st ru bl pa ra hp al am he tr lr ts.

Definition set_total_healed f (s : State) : State :=
  let 'mkState ag qu im ti th tf st ru bl pa ra hp al am he tr lr ts := s in
  mkState ag qu im ti (f th) tf st ru bl pa ra hp al am he tr lr ts.

Definition set_total_failed_healings f (s : State) : State :=
  let 'mkState ag qu im ti th tf st ru bl pa ra hp al am he tr lr ts := s in
  mkState ag qu im ti th (f tf) st ru bl pa ra hp al am he tr lr ts.

Definition set_pending_approvals f (s : State) : State :=
  let 'mkState ag qu im ti th tf st ru bl pa ra hp al am he tr lr ts := s in
  mkState ag qu im ti th tf st ru bl (f pa) ra hp al am he tr lr ts.

Definition set_rejected_approvals f (s : State) : State :=
  let 'mkState ag qu im ti th tf st ru bl pa ra hp al am he tr lr ts := s in
  mkState ag qu im ti th tf st ru bl pa (f ra) hp al am he tr lr ts.

Definition set_healing_in_progress f (s : State) : State :=
  let 'mkState ag qu im ti th tf st ru bl pa ra hp al am he tr lr ts := s in
  mkState ag qu im ti th tf st ru bl pa ra (f hp) al am he tr lr ts.

Definition set_healing_action_log f (s : State) : State :=
  let 'mkState ag qu im ti th tf st ru bl pa ra hp al am he tr lr ts := s in
  mkState ag qu im ti th tf st ru bl pa ra hp (f al) am he tr lr ts.

Definition set_heap f (s : State) : State :=
  let 'mkState ag qu im ti th tf st ru bl pa ra hp al am he tr lr ts := s in
  mkState ag qu im ti th tf st ru bl pa ra hp al am (f he) tr lr ts.

Definition set_time_reads f (s : State) : State :=
  let 'mkState ag qu im ti th tf st ru bl pa ra hp al am he tr lr ts := s in
  mkState ag qu im ti th tf st ru bl pa ra hp al am he (f tr) lr ts.

Definition set_log_records f (s : State) : State :=
  let 'mkState ag qu im ti th tf st ru bl pa ra hp al am he tr lr ts := s in
  mkState ag qu im ti th tf st ru bl pa ra hp al am he tr (f lr) ts.

Definition set_tasks f (s : State) : State :=
  let 'mkState ag qu im ti th tf st ru bl pa ra hp al am he tr lr ts := s in
  mkState ag qu im ti th tf st ru bl pa ra hp al am he tr lr (f ts).

(** *** Clock, logger, action log *)

Definition time_time (s : State) : Q * State :=
  (clk (time_reads s), set_time_reads S s).

Definition logger (lv : LogLevel) (f about : string) (s : State) : State :=
  set_log_records (λ l, l ++ [{| level := lv; fmt := f; about := about |}]) s.

(** the list object [self._healing_action_log] currently names *)
Definition healing_action_log (s : State) : list ActionLogEntry :=
  PyList.deref (heap s) (_healing_action_log s).

(** [_log_action(action_type, agent_id, **kwargs)] *)
Definition _log_action (action_type agent_id : string) (kwargs : ActionKwargs)
    (s : State) : State :=
  let '(now, s) := time_time s in
  let entry := {| e_type := action_type; e_agent_id := agent_id;
                  e_timestamp := now; e_kwargs := kwargs |} in
  let s := set_heap (PyList.append (_healing_action_log s) entry) s in
  if decide (_action_log_max s < length (healing_action_log s)) then
    let '(r, h) := PyList.alloc
      (PyList.slice_last (_action_log_max s) (healing_action_log s)) (heap s) in
    set_healing_action_log (λ _, r) (set_heap (λ _, h) s)
  else s.

(** [get_healing_actions()]: the slice is one new list, [list(...)] copies
    it into another, whose reference is returned *)
Definition get_healing_actions (s : State) : nat * State :=
  let '(r1, h1) := PyList.alloc (PyList.slice_last 50 (healing_action_log s))
                                (heap s) in
  let '(r2, h2) := PyList.alloc (PyList.deref h1 r1) h1 in
  (r2, set_heap (λ _, h2) s).

(** *** Approval workflow *)

(** [approve_healing(agent_id, approved)] *)
Definition approve_healing (agent_id : string) (approved : bool) (s : State) :
    (option InfectionReport * bool) * State :=
  let '(entry, rest) := PyDict.pop agent_id (_pending_approvals s) in
  let s := set_pending_approvals (λ _, rest) s in
  match entry with
  | None => ((None, false), s)
  | Some entry =>
      let infection := p_infection entry in
      let diagnosis := p_diagnosis entry in
      if approved then
        let s := _log_action "user_approved" agent_id kw_none s in
        ((Some infection, true), s)
      else
        let s := _log_action "user_rejected" agent_id kw_none s in
        let '(now, s) := time_time s in
        let s := set_rejected_approvals
          (PyDict.set agent_id {| r_infection := infection;
                                  r_diagnosis := diagnosis;
                                  rejected_at := now |}) s in
        let s := logger WARNING
          "Healing rejected for %s - quarantined until 'Heal now' in the dashboard"
          agent_id s in
        ((None, false), s)
  end.

(** the [for] loop of [approve_all_pending] over the snapshot of the keys *)
Fixpoint approve_all_loop (agent_ids : list string) (approved : bool)
    (approved_list : list (string * InfectionReport)) (s : State) :
    list (string * InfectionReport) * State :=
  match agent_ids with
  | [] => (approved_list, s)
  | agent_id :: rest =>
      let '((infection, did_approve), s) := approve_healing agent_id approved s in
      match did_approve, infection with
      | true, Some inf =>
          approve_all_loop rest approved (approved_list ++ [(agent_id, inf)]) s
      | _, _ => approve_all_loop rest approved approved_list s
      end
  end.

(** [approve_all_pending(approved)] *)
Definition approve_all_pending (approved : bool) (s : State) :
    list (string * InfectionReport) * State :=
  let agent_ids := PyDict.keys (_pending_approvals s) in
  approve_all_loop agent_ids approved [] s.

(** [start_healing_explicitly(agent_id)] *)
Definition start_healing_explicitly (agent_id : string) (s : State) :
    option InfectionReport * State :=
  let '(entry, rest) := PyDict.pop agent_id (_rejected_approvals s) in
  let s := set_rejected_approvals (λ _, rest) s in
  match entry with
  | None => (None, s)
  | Some entry =>
      let infection := r_infection entry in
      let s := _log_action "explicit_heal_requested" agent_id kw_none s in
      let s := logger INFO "Agent %s - healing started (Heal now)" agent_id s in
      (Some infection, s)
  end.

Fixpoint start_all_loop (agent_ids : list string)
    (result : list (string * InfectionReport)) (s : State) :
    list (string * InfectionReport) * State :=
  match agent_ids with
  | [] => (result, s)
  | agent_id :: rest =>
      let '(infection, s) := start_healing_explicitly agent_id s in
      match infection with
      | Some inf => start_all_loop rest (result ++ [(agent_id, inf)]) s
      | None => start_all_loop rest result s
      end
  end.

(** [start_healing_all_rejected()] *)
Definition start_healing_all_rejected (s : State) :
    list (string * InfectionReport) * State :=
  start_all_loop (PyDict.keys (_rejected_approvals s)) [] s.

(** *** Tasks *)

(** the task [asyncio.create_task(self.heal_agent(...))] queues *)
Definition new_task (agent_id : string) (infection : InfectionReport)
    (trigger : string) : HealTask :=
  {| h_agent_id := agent_id; h_infection := infection; h_trigger := trigger;
     h_depth := 0; h_point := at_start |}.

(** [asyncio.create_task(self.heal_agent(agent_id, infection, trigger))]:
    the coroutine is queued and has not run yet *)
Definition create_task (agent_id : string) (infection : InfectionReport)
    (trigger : string) (s : State) : State :=
  set_tasks (λ ts, ts ++ [new_task agent_id infection trigger]) s.

(** *** The sentinel sweep *)

(** what the telemetry store, the baseline learner and the sentinel answer
    for one agent in one sweep *)
Record Observation := {
  obs_has_baseline : bool;
  obs_recent_empty : bool;
  obs_infection : option InfectionReport;
}.

(** what the sweep does with a detection that is not suppressed: the
    counter, the quarantine, and the branch on severity *)
Definition on_detection (agent_id : string) (infection : InfectionReport)
    (s : State) : State :=
  let baseline := get_baseline agent_id in
  let s := set_total_infections S s in
  let s := logger WARNING
    "INFECTION DETECTED: %s | severity=%.1f/10 | anomalies=[%s]" agent_id s in
  let s := set_quarantine (QuarantineController.quarantine agent_id) s in
  let s := set_agents (PyDict.update Agent.quarantine agent_id) s in
  let s := logger WARNING "Agent %s QUARANTINED" agent_id s in
  if Qle_bool SEVERITY_REQUIRING_APPROVAL (severity infection) then
    let diagnosis := diagnose infection baseline in
    let '(now, s) := time_time s in
    let s := set_pending_approvals
      (PyDict.set agent_id {| p_infection := infection;
                              p_diagnosis := diagnosis;
                              requested_at := now |}) s in
    let s := _log_action "approval_requested" agent_id
               (kw_severity (round1 (severity infection))) s in
    logger INFO
      "Agent %s requires approval (severity %.1f) - use dashboard to Approve/Reject"
      agent_id s
  else
    create_task agent_id infection "auto" s.

(** the body of [for agent_id, agent in self.agents.items()] in
    [sentinel_loop] *)
Definition sentinel_iteration (agent_id : string) (obs : Observation)
    (s : State) : State :=
  if QuarantineController.is_quarantined agent_id (quarantine s) then s
  else if negb (obs_has_baseline obs) then s
  else if obs_recent_empty obs then s
  else
    match obs_infection obs with
    | None => s
    | Some infection =>
        if PyDict.mem agent_id (_rejected_approvals s) then s
        else on_detection agent_id infection s
    end.

(** one pass of the [for] loop over all agents *)
Definition sentinel_sweep (obs : string → Observation) (s : State) : State :=
  foldl (λ s agent_id, sentinel_iteration agent_id (obs agent_id) s)
        s (PyDict.keys (agents s)).

(** *** The healing escalation *)

Definition with_point (t : HealTask) (p : HealPoint) : HealTask :=
  {| h_agent_id := h_agent_id t; h_infection := h_infection t;
     h_trigger := h_trigger t; h_depth := h_depth t; h_point := p |}.

Definition recurse (t : HealTask) : HealTask :=
  {| h_agent_id := h_agent_id t; h_infection := h_infection t;
     h_trigger := h_trigger t; h_depth := S (h_depth t); h_point := at_start |}.

(** the [finally] clauses of the frame that returns and of every frame
    waiting on it *)
Definition finally (t : HealTask) (s : State) : State :=
  set_healing_in_progress
    (Nat.iter (S (h_depth t)) (λ hip, hip ∖ {[h_agent_id t]})) s.

(** from the entry of [heal_agent] to its first [await] *)
Definition heal_enter (t : HealTask) (s : State) : State * option HealTask :=
  let agent_id := h_agent_id t in
  let s := set_healing_in_progress (λ hip, {[agent_id]} ∪ hip) s in
  match PyDict.get agent_id (agents s) with
  | None => (finally t s, None)
  | Some _ =>
      let baseline := get_baseline agent_id in
      let diagnosis := diagnose (h_infection t) baseline in
      let s := logger INFO "Diagnosis for %s: %s (confidence: %.0f%%) - %s"
                 agent_id s in
      (s, Some (with_point t (at_sleep1 diagnosis)))
  end.

(** one resumption of a [heal_agent] task, up to its next [await] or its
    return; [result] is what [apply_healing] answers when the task was
    waiting for it *)
Definition heal_step (result : Healer.HealingResult) (t : HealTask)
    (s : State) : State * option HealTask :=
  let agent_id := h_agent_id t in
  match h_point t with
  | at_start => heal_enter t s
  | at_sleep1 diagnosis =>
      let s := logger INFO "Healing policy for %s: [%s]" agent_id s in
      let failed_actions :=
        ImmuneMemory.get_failed_actions agent_id (diagnosis_type diagnosis)
          (immune_memory s) in
      let s :=
        if decide (failed_actions = ∅) then s
        else logger INFO
               "Immune memory for %s: skipping previously failed actions: %s"
               agent_id s in
      (s, Some (with_point t (at_sleep2 diagnosis failed_actions)))
  | at_sleep2 diagnosis failed_actions =>
      match Healer.get_next_action get_healing_policy
              (diagnosis_type diagnosis) failed_actions with
      | None =>
          let s := logger ERROR "All healing actions exhausted for %s" agent_id s in
          let s := set_quarantine (QuarantineController.release agent_id) s in
          let s := set_agents (PyDict.update Agent.release agent_id) s in
          (finally t s, None)
      | Some next_action =>
          let s := logger INFO "Attempting healing on %s: %s" agent_id s in
          (s, Some (with_point t (at_apply diagnosis next_action)))
      end
  | at_apply diagnosis next_action =>
      let s := set_agents
                 (PyDict.update (Healer.apply_healing result) agent_id) s in
      let passed := Healer.validation_passed result in
      let s := set_immune_memory
                 (ImmuneMemory.record_healing agent_id
                    (diagnosis_type diagnosis) next_action passed) s in
      let s := _log_action "healing_attempt" agent_id
                 (kw_attempt (diagnosis_type diagnosis) next_action passed
                    (h_trigger t)) s in
      if passed then
        let s := logger INFO
                   "HEALING SUCCESS for %s: %s - released from quarantine"
                   agent_id s in
        let s := set_quarantine (QuarantineController.release agent_id) s in
        let s := set_agents (PyDict.update Agent.release agent_id) s in
        let s := set_total_healed S s in
        (finally t s, None)
      else
        let s := logger WARNING "HEALING FAILED for %s: %s" agent_id s in
        let s := set_total_failed_healings S s in
        let s := logger INFO "Escalating to next healing action for %s"
                   agent_id s in
        (s, Some (with_point t at_sleep3))
  | at_sleep3 => heal_enter (recurse t) s
  end.

(** *** Construction and the transition system *)

(** [ImmuneSystemOrchestrator(agents)]; the first clock reading is taken
    for [start_time], and a new empty list is bound to the action log *)
Definition init (agent_list : list Agent.BaseAgent) : State :=
  {| agents := foldl (λ d a, PyDict.set (Agent.agent_id a) a d) [] agent_list;
     quarantine := QuarantineController.init;
     immune_memory := [];
     total_infections := 0;
     total_healed := 0;
     total_failed_healings := 0;
     start_time := clk 0;
     running := true;
     baselines_learned := false;
     _pending_approvals := [];
     _rejected_approvals := [];
     healing_in_progress := ∅;
     _healing_action_log := 0;
     _action_log_max := 80;
     heap := [[]];
     time_reads := 1;
     log_records := [];
     tasks := [] |}.

(** The orchestrator together with the infections its approval interface
    has handed to a caller (the dashboard thread, or the drain phase of
    [run]) that has not scheduled [heal_agent] for them yet. *)
Record System := {
  orch : State;
  returned : list (string * InfectionReport);
}.

Definition handed_over (agent_id : string)
    (r : option InfectionReport * bool) : list (string * InfectionReport) :=
  match r with
  | (Some infection, true) => [(agent_id, infection)]
  | _ => []
  end.

(** One atomic move of the system.  The event loop runs the sweep and the
    [heal_agent] tasks between their [await]s; the approval interface is
    called from the dashboard thread; whoever received an infection from it
    schedules one [heal_agent] for it, as the docstrings ask and [run] does
    while draining; agents change under their own [execute] loop and the
    fault injector. *)
Inductive step : System → System → Prop :=
| step_sweep sys agent_id obs :
    agent_id ∈ PyDict.keys (agents (orch sys)) →
    step sys {| orch := sentinel_iteration agent_id obs (orch sys);
                returned := returned sys |}
| step_approve sys agent_id approved :
    step sys {| orch := (approve_healing agent_id approved (orch sys)).2;
                returned := returned sys ++
                  handed_over agent_id
                    (approve_healing agent_id approved (orch sys)).1 |}
| step_heal_now sys agent_id :
    step sys {| orch := (start_healing_explicitly agent_id (orch sys)).2;
                returned := returned sys ++
                  handed_over agent_id
                    ((start_healing_explicitly agent_id (orch sys)).1, true) |}
| step_schedule sys i agent_id infection trigger :
    returned sys !! i = Some (agent_id, infection) →
    step sys {| orch := create_task agent_id infection trigger (orch sys);
                returned := delete i (returned sys) |}
| step_task sys i t result :
    tasks (orch sys) !! i = Some t →
    step sys
      {| orch :=
           set_tasks (λ ts, match (heal_step result t (orch sys)).2 with
                            | Some t' => <[i := t']> ts
                            | None => delete i ts
                            end)
                     (heal_step result t (orch sys)).1;
         returned := returned sys |}
| step_agent sys agent_id (f : Agent.BaseAgent → Agent.BaseAgent) :
    step sys {| orch := set_agents (PyDict.update f agent_id) (orch sys);
                returned := returned sys |}
| step_read_log sys :
    step sys {| orch := (get_healing_actions (orch sys)).2;
                returned := returned sys |}.

Inductive reachable (agent_list : list Agent.BaseAgent) : System → Prop :=
| reach_init :
    reachable agent_list {| orch := init agent_list; returned := [] |}
| reach_step sys sys' :
    reachable agent_list sys → step sys sys' → reachable agent_list sys'.

(** *** The invariant of the transition system *)

Definition task_ids (s : State) : list string := h_agent_id <$> tasks s.

(** who currently holds the fault of an agent: a pending approval, a
    rejected approval, a [heal_agent] task, or a caller about to schedule *)
Definition owners (sys : System) : list string :=
  PyDict.keys (_pending_approvals (orch sys)) ++
  PyDict.keys (_rejected_approvals (orch sys)) ++
  task_ids (orch sys) ++ (returned sys).*1.

(** has the body of [heal_agent] been entered *)
Definition started (t : HealTask) : bool :=
  match h_point t with
  | at_start => false
  | _ => true
  end.

(** [healing_in_progress] holds the agents of the tasks whose body has been
    entered, and no others *)
Definition in_progress_ok (s : State) : Prop :=
  ∀ a, a ∈ healing_in_progress s ↔
       ∃ t, t ∈ tasks s ∧ h_agent_id t = a ∧ started t = true.

(** what the action log is made of *)
Definition log_view (s : State) : list (list ActionLogEntry) * nat * nat :=
  (heap s, _healing_action_log s, _action_log_max s).

(** the action log names a list object of the heap and respects its cap *)
Record LogInv (s : State) : Prop := {
  log_ref : _healing_action_log s < length (heap s);
  log_max : _action_log_max s = 80;
  log_len : length (healing_action_log s) ≤ 80;
}.

Record Inv (sys : System) : Prop := {
  inv_owner : NoDup (owners sys);
  inv_quarantined :
    ∀ a, a ∈ owners sys →
         a ∈ QuarantineController.quarantined (quarantine (orch sys));
  inv_progress : in_progress_ok (orch sys);
  inv_log : LogInv (orch sys);
}.
(** *** Approving all pending, as a sequence of single calls *)

(** one [approve_healing] per agent id of the snapshot, in order, keeping
    what each call returned *)
Fixpoint approve_each (agent_ids : list string) (approved : bool) (s : State) :
    list (string * (option InfectionReport * bool)) * State :=
  match agent_ids with
  | [] => ([], s)
  | agent_id :: rest =>
      let '(r, s) := approve_healing agent_id approved s in
      let '(rs, s) := approve_each rest approved s in
      ((agent_id, r) :: rs, s)
  end.

(** the (agent id, infection) pairs of the calls that approved *)
Definition approved_pairs
    (rs : list (string * (option InfectionReport * bool))) :
    list (string * InfectionReport) :=
  flat_map (λ '(agent_id, r), handed_over agent_id r) rs.

Definition approve_all_by_single_calls (approved : bool) (s : State) :
    list (string * InfectionReport) * State :=
  let '(rs, s') :=
    approve_each (PyDict.keys (_pending_approvals s)) approved s in
  (approved_pairs rs, s').

(** *** One healing episode on its own *)

(** the action a resumption applies, if it is the one returning from
    [apply_healing] *)
Definition attempted (t : HealTask) : list HealingAction :=
  match h_point t with
  | at_apply _ next_action => [next_action]
  | _ => []
  end.

(** what a task that is not waiting for [apply_healing] is resumed with *)
Definition no_result : Healer.HealingResult :=
  {| Healer.validation_passed := false; Healer.message := String.EmptyString |}.

(** Runs one [heal_agent] task to its end, [answer] telling how
    [apply_healing] fares on each action; returns the actions applied, in
    order, and the final state, or nothing when [fuel] resumptions were not
    enough. *)
Fixpoint run_chain (fuel : nat) (answer : HealingAction → Healer.HealingResult)
    (t : HealTask) (s : State) : option (list HealingAction * State) :=
  match fuel with
  | O => None
  | S fuel =>
      let result :=
        match h_point t with
        | at_apply _ next_action => answer next_action
        | _ => no_result
        end in
      match heal_step result t s with
      | (s', None) => Some (attempted t, s')
      | (s', Some t') =>
          match run_chain fuel answer t' s' with
          | Some (acts, s'') => Some (attempted t ++ acts, s'')
          | None => None
          end
      end
  end.

(** *** Sequences of action-log appends *)

(** the entry a call of [_log_action] builds when the clock has been read
    [n] times *)
Definition entry_of (n : nat) (call : string * string * ActionKwargs) :
    ActionLogEntry :=
  {| e_type := call.1.1; e_agent_id := call.1.2; e_timestamp := clk n;
     e_kwargs := call.2 |}.

Fixpoint entries_of (n : nat) (calls : list (string * string * ActionKwargs)) :
    list ActionLogEntry :=
  match calls with
  | [] => []
  | call :: calls => entry_of n call :: entries_of (S n) calls
  end.

Definition log_actions (calls : list (string * string * ActionKwargs))
    (s : State) : State :=
  foldl (λ s call, _log_action call.1.1 call.1.2 call.2 s) s calls.

(** what an episode can change besides the logs *)
Definition summary (s : State) :=
  (agents s, quarantine s, immune_memory s, total_failed_healings s,
   total_healed s, healing_in_progress s).

Definition always_fails (answer : HealingAction → Healer.HealingResult) : Prop :=
  ∀ a, Healer.validation_passed (answer a) = false.
End orchestrator.

(** ** A small fleet *)

(** Three agents, one fault category with a policy of two actions, and a
    clock that ticks once per reading: enough to run every operation. *)
Module Demo.
Definition collaborators : Collaborators :=
  {| DiagnosisType := string;
     HealingAction := string;
     Baseline := unit;
     get_baseline := λ _, tt;
     diagnose := λ _ _,
       {| diagnosis_type := "drift"; confidence := 9 # 10;
          reasoning := "latency far above baseline" |};
     get_healing_policy := λ _, ["first"; "second"];
     clk := λ n, inject_Z (Z.of_nat n) |}.
#[local] Existing Instance collaborators.

Definition agent (name kind : string) : Agent.BaseAgent :=
  {| Agent.agent_id := name; Agent.agent_type := kind;
     Agent.status := Agent.HEALTHY; Agent.execution_count := 0;
     Agent.infected := false; Agent.infection_type := None |}.

Definition vpn : Agent.BaseAgent := Agent.infect "latency_spike" (agent "VPN" "Research").
Definition docker : Agent.BaseAgent := agent "Docker" "Data".
Definition slack : Agent.BaseAgent := agent "Slack" "Analytics".
Definition fleet : list Agent.BaseAgent := [vpn; docker; slack].

Definition severe (name : string) : InfectionReport :=
  {| ir_agent_id := name; severity := 15 # 2; anomalies := ["latency"] |}.
Definition mild (name : string) : InfectionReport :=
  {| ir_agent_id := name; severity := 4; anomalies := ["latency"] |}.

Definition sighting (infection : InfectionReport) : Observation :=
  {| obs_has_baseline := true; obs_recent_empty := false;
     obs_infection := Some infection |}.

Definition fails : string → Healer.HealingResult :=
  λ _, {| Healer.validation_passed := false;
          Healer.message := "validation failed" |}.
Definition second_passes : string → Healer.HealingResult :=
  λ a, {| Healer.validation_passed := bool_decide (a = "second");
          Healer.message := "validated" |}.

(** the state an episode ends in, or the state it started from when the
    fuel was not enough *)
Definition after_episode (fuel : nat) (answer : string → Healer.HealingResult)
    (t : HealTask) (s : State) : State :=
  match run_chain fuel answer t s with
  | Some (_, s') => s'
  | None => s
  end.

Definition s0 : State := init fleet.
Definition sys0 : System := {| orch := s0; returned := [] |}.

(** a severe detection on every agent: three pending approvals *)
Definition s_pending3 : State := sentinel_sweep (λ a, sighting (severe a)) s0.

(** VPN detected as severe *)
Definition sys_pending : System :=
  {| orch := sentinel_iteration "VPN" (sighting (severe "VPN")) (orch sys0);
     returned := returned sys0 |}.

(** ... and rejected by the user *)
Definition sys_rejected : System :=
  {| orch := (approve_healing "VPN" false (orch sys_pending)).2;
     returned := returned sys_pending ++
       handed_over "VPN" (approve_healing "VPN" false (orch sys_pending)).1 |}.

(** Docker detected as mild: a task is queued ... *)
Definition sys_queued : System :=
  {| orch := sentinel_iteration "Docker" (sighting (mild "Docker")) (orch sys0);
     returned := returned sys0 |}.

Definition docker_task : HealTask := new_task "Docker" (mild "Docker") "auto".

(** ... and has run up to its first [await] *)
Definition sys_healing : System :=
  {| orch :=
       set_tasks (λ ts, match (heal_step no_result docker_task (orch sys_queued)).2 with
                        | Some t' => <[0 := t']> ts
                        | None => delete 0 ts
                        end)
                 (heal_step no_result docker_task (orch sys_queued)).1;
     returned := returned sys_queued |}.

(** a hundred actions logged *)
Definition s_logged : State :=
  log_actions (replicate 100 ("user_approved", "VPN", kw_none)) s0.

(** VPN detected as mild and quarantined, its episode not yet started *)
Definition s_mild : State := sentinel_iteration "VPN" (sighting (mild "VPN")) s0.
Definition vpn_task : HealTask := new_task "VPN" (mild "VPN") "auto".

(** a first episode in which [first] fails and [second] passes; VPN is then
    infected and detected again *)
Definition s_healed_once : State := after_episode 20 second_passes vpn_task s_mild.
Definition s_infected_again : State :=
  sentinel_iteration "VPN" (sighting (mild "VPN"))
    (set_agents (PyDict.update (Agent.infect "latency_spike") "VPN") s_healed_once).

(** a first episode in which both actions fail; VPN, released unhealed, is
    detected again *)
Definition s_gave_up : State := after_episode 20 fails vpn_task s_mild.
Definition s_detected_again : State :=
  sentinel_iteration "VPN" (sighting (mild "VPN")) s_gave_up.

(** a task that finds both actions in the known-failed set *)
Definition exhausted_task : HealTask :=
  with_point vpn_task
    (at_sleep2 (diagnose (mild "VPN") tt) (list_to_set ["first"; "second"])).
End Demo.

(** ** The rest of the agents ([src/immune_system/agents.py]) *)

(** [AgentState]; the temperature, a float, is read as a rational, and the
    memory as a dictionary of strings *)
Module AgentState.
Record t := {
  memory : list (string * string);
  prompt_version : Z;
  temperature : Q;
  max_tools : Z;
}.

(** the field defaults of the dataclass *)
Definition default : t :=
  {| memory := []; prompt_version := 1; temperature := 7 # 10; max_tools := 5 |}.

Definition reset_memory (st : t) : t :=
  {| memory := []; prompt_version := prompt_version st;
     temperature := temperature st; max_tools := max_tools st |}.

Definition rollback_prompt (st : t) : t :=
  if (1 <? prompt_version st)%Z then
    {| memory := memory st; prompt_version := prompt_version st - 1;
       temperature := temperature st; max_tools := max_tools st |}
  else st.

(** [max(0.1, x)]: the first argument unless the second is greater *)
Definition max_tenth (x : Q) : Q := if Qle_bool x (1 # 10) then 1 # 10 else x.

Definition reduce_autonomy (st : t) : t :=
  {| memory := memory st; prompt_version := prompt_version st;
     temperature := max_tenth (temperature st * (1 # 2));
     max_tools := Z.max 1 (max_tools st - 2) |}.
End AgentState.

Module AgentPool.
Definition AGENT_NAMES : list string :=
  ["VPN"; "Docker"; "Slack"; "Postgres"; "Network"; "GitHub"; "Kubernetes";
   "Nginx"; "Redis"; "Elasticsearch"; "Notion"; "Figma"; "Linear"; "SendGrid";
   "Brave Search"].

Definition MODELS : list string :=
  ["GPT-5"; "Claude Sonnet 4"; "Claude Opus 4"; "Gemini 2.0"; "GPT-4o";
   "Claude Sonnet 3.5"].

Definition MCP_SERVER_PRESETS : list (list string) :=
  [["filesystem"; "github"; "slack"];
   ["postgres"; "web-fetch"; "notion"];
   ["google-drive"; "figma"; "linear"];
   ["brave-search"; "fetch"; "memory"];
   ["filesystem"; "postgres"; "sendgrid"];
   ["github"; "slack"; "notion"]].

(** [ResearchAgent], [DataAgent], [AnalyticsAgent], [CoordinatorAgent], by
    the agent type each constructor passes on *)
Definition agent_classes : list string :=
  ["Research"; "Data"; "Analytics"; "Coordinator"].

(** [BaseAgent.__init__(agent_id, agent_type)] *)
Definition new_agent (agent_id agent_type : string) : Agent.BaseAgent :=
  {| Agent.agent_id := agent_id; Agent.agent_type := agent_type;
     Agent.status := Agent.HEALTHY; Agent.execution_count := 0;
     Agent.infected := false; Agent.infection_type := None |}.

(** an agent of the pool with the two labels [create_agent_pool] sets on it *)
Record Pooled := {
  agent : Agent.BaseAgent;
  model_name : string;
  mcp_servers : list string;
}.

(** [(AGENT_NAMES * ((count // len(AGENT_NAMES)) + 1))[:count]] *)
Definition pool_names (count : nat) : list string :=
  take count (concat (replicate (count / length AGENT_NAMES + 1) AGENT_NAMES)).

(** the body of the loop for index [i]; an index out of range is an
    [IndexError], here [None] *)
Definition pool_entry (names : list string) (i : nat) : option Pooled :=
  agent_type ← agent_classes !! (i mod length agent_classes);
  name ← names !! i;
  model ← MODELS !! (i mod length MODELS);
  mcp ← MCP_SERVER_PRESETS !! (i mod length MCP_SERVER_PRESETS);
  Some {| agent := new_agent name agent_type; model_name := model;
          mcp_servers := mcp |}.

(** [create_agent_pool(count)] *)
Definition create_agent_pool (count : nat) : option (list Pooled) :=
  mapM (pool_entry (pool_names count)) (seq 0 count).
End AgentPool.

(** ** The rest of the orchestrator *)

Section orchestrator_rest.
Context `{Collaborators}.

(** [for agent_id, infection in pairs: asyncio.create_task(
    self.heal_agent(agent_id, infection, trigger))] *)
Definition schedule_all (trigger : string)
    (pairs : list (string * InfectionReport)) (s : State) : State :=
  foldl (λ s p, create_task p.1 p.2 trigger s) s pairs.

(** the draining part of [run]: every pending approval is approved, every
    rejected one is started, and a [heal_agent] task is queued for each *)
Definition drain (s : State) : State :=
  let '(approved_list, s) := approve_all_pending true s in
  let s := schedule_all "drain_approve" approved_list s in
  let '(rejected_list, s) := start_healing_all_rejected s in
  schedule_all "drain_heal_now" rejected_list s.

(** the healing success rate of [print_summary] *)
Definition resolution_rate (s : State) : Q :=
  if (total_infections s =? 0)%nat then 0
  else Qmake (Z.of_nat (total_healed s)) (Pos.of_nat (total_infections s)).

(** the start of all rejected agents, as one single call per agent id of the
    snapshot *)
Fixpoint start_each (agent_ids : list string) (s : State) :
    list (string * option InfectionReport) * State :=
  match agent_ids with
  | [] => ([], s)
  | agent_id :: rest =>
      let '(r, s) := start_healing_explicitly agent_id s in
      let '(rs, s) := start_each rest s in
      ((agent_id, r) :: rs, s)
  end.

(** the entries of the pending-approval map, as rejected at clock reading
    [n] and the following odd readings (each rejection reads the clock
    twice, the second time for [rejected_at]) *)
Fixpoint rejected_entries (n : nat) (d : list (string * PendingEntry)) :
    list (string * RejectedEntry) :=
  match d with
  | [] => []
  | (k, e) :: d =>
      (k, {| r_infection := p_infection e; r_diagnosis := p_diagnosis e;
             rejected_at := clk (S n) |}) :: rejected_entries (S (S n)) d
  end.

(** what a run only ever adds to: the three counters, the clock readings,
    the quarantine events, the immune memory and what the logger received;
    the agent ids and the cap of the action log stay what they are *)
Record grows (s s' : State) : Prop := {
  g_infections : total_infections s ≤ total_infections s';
  g_healed : total_healed s ≤ total_healed s';
  g_failed : total_failed_healings s ≤ total_failed_healings s';
  g_time : time_reads s ≤ time_reads s';
  g_quarantines :
    QuarantineController.total_quarantines (quarantine s)
    ≤ QuarantineController.total_quarantines (quarantine s');
  g_memory : immune_memory s `prefix_of` immune_memory s';
  g_records : log_records s `prefix_of` log_records s';
  g_agents : PyDict.keys (agents s') = PyDict.keys (agents s);
  g_start : start_time s' = start_time s;
  g_max : _action_log_max s' = _action_log_max s;
}.
End orchestrator_rest.

Module DemoRest.
Import Demo.
#[local] Existing Instance Demo.collaborators.

(** three pending approvals, all rejected *)
Definition s_rejected3 : State := (approve_all_pending false s_pending3).2.

(** VPN pending, Docker rejected *)
Definition sys_mixed : System :=
  {| orch := sentinel_iteration "VPN" (sighting (severe "VPN"))
               (approve_healing "Docker" false
                  (sentinel_iteration "Docker" (sighting (severe "Docker")) s0)).2;
     returned := [] |}.

(** a task waiting for [apply_healing] on VPN *)
Definition applying_task : HealTask :=
  with_point vpn_task (at_apply (diagnose (mild "VPN") tt) "first").


(** a task for an agent the orchestrator does not know *)
Definition ghost_task : HealTask := new_task "Ghost" (mild "Ghost") "auto".
End DemoRest.

(** * Properties *)

(** ** Facts about the containers *)

Module PyDictFacts.
Import PyDict.
Section facts.
Context {K V : Type} `{EqDecision K}.
Implicit Types (k : K) (v : V) (d : list (K * V)).

Lemma get_None k d : get k d = None ↔ k ∉ keys d.
Proof.
  induction d as [|[k' v] d IH]; simpl.
  - split; [intros _; apply not_elem_of_nil | done].
  - rewrite not_elem_of_cons. destruct (decide (k = k')) as [->|Hne].
    + split; [done | intros [? _]; done].
    + rewrite IH. tauto.
Qed.

Lemma get_Some_mem k d v : get k d = Some v → k ∈ keys d.
Proof.
  intros Hg. destruct (decide (k ∈ keys d)) as [|Hn]; [done|].
  apply get_None in Hn. congruence.
Qed.

Lemma mem_get k d : k ∈ keys d → is_Some (get k d).
Proof.
  intros Hin. destruct (get k d) eqn:E; [eauto|].
  apply get_None in E. done.
Qed.

Lemma remove_absent k d : k ∉ keys d → remove k d = d.
Proof.
  induction d as [|[k' v] d IH]; simpl; [done|].
  rewrite not_elem_of_cons. intros [Hne Hn].
  rewrite decide_False by done. by rewrite IH.
Qed.

Lemma keys_remove k d : keys (remove k d) = filter (λ x, x ≠ k) (keys d).
Proof.
  induction d as [|[k' v] d IH]; simpl; [done|].
  destruct (decide (k = k')) as [->|Hne].
  - rewrite filter_cons_False by (intros ?; done). done.
  - rewrite filter_cons_True by (simpl; congruence).
    change (keys ((k', v) :: remove k d)) with (k' :: keys (remove k d)).
    by rewrite IH.
Qed.

Lemma elem_of_keys_remove k k' d :
  k' ∈ keys (remove k d) ↔ k' ≠ k ∧ k' ∈ keys d.
Proof. rewrite keys_remove, list_elem_of_filter. tauto. Qed.

Lemma NoDup_keys_remove k d : NoDup (keys d) → NoDup (keys (remove k d)).
Proof. rewrite keys_remove. apply NoDup_filter. Qed.

Lemma elem_of_keys_set k k' v d :
  k' ∈ keys (set k v d) ↔ k' = k ∨ k' ∈ keys d.
Proof.
  induction d as [|[k0 v0] d IH]; simpl.
  - unfold keys. simpl. rewrite list_elem_of_singleton.
    split; [auto | intros [?|H]; [done | by apply not_elem_of_nil in H]].
  - destruct (decide (k = k0)) as [->|Hne]; unfold keys in *; simpl.
    + rewrite !elem_of_cons. tauto.
    + rewrite !elem_of_cons, IH. tauto.
Qed.

Lemma NoDup_keys_set k v d : NoDup (keys d) → NoDup (keys (set k v d)).
Proof.
  induction d as [|[k0 v0] d IH]; simpl; intros Hnd.
  - unfold keys. simpl. apply NoDup_singleton.
  - unfold keys in *. simpl in *. apply NoDup_cons in Hnd as [Hn Hnd].
    destruct (decide (k = k0)) as [->|Hne]; simpl; apply NoDup_cons.
    + done.
    + split; [|by apply IH].
      intros Hin. apply (elem_of_keys_set k k0 v d) in Hin as [?|?]; [congruence | done].
Qed.

Lemma get_set_eq k v d : get k (set k v d) = Some v.
Proof.
  induction d as [|[k0 v0] d IH]; simpl.
  - by rewrite decide_True.
  - destruct (decide (k = k0)) as [->|Hne]; simpl.
    + by rewrite decide_True.
    + by rewrite decide_False.
Qed.

Lemma get_set_ne k k' v d : k ≠ k' → get k' (set k v d) = get k' d.
Proof.
  intros Hne. induction d as [|[k0 v0] d IH]; simpl.
  - by rewrite decide_False.
  - destruct (decide (k = k0)) as [->|Hne0]; simpl.
    + by rewrite !decide_False.
    + destruct (decide (k' = k0)); [done | apply IH].
Qed.

Lemma set_absent k v d : k ∉ keys d → set k v d = d ++ [(k, v)].
Proof.
  induction d as [|[k0 v0] d IH]; simpl; [done|].
  unfold keys in *. simpl. rewrite not_elem_of_cons. intros [Hne Hn].
  rewrite decide_False by done. by rewrite IH.
Qed.

Lemma keys_update f k d : keys (update f k d) = keys d.
Proof.
  induction d as [|[k0 v0] d IH]; simpl; [done|].
  destruct (decide (k = k0)); [done|].
  change (keys ((k0, v0) :: update f k d)) with (k0 :: keys (update f k d)).
  by rewrite IH.
Qed.

Lemma get_update_eq f k d : get k (update f k d) = f <$> get k d.
Proof.
  induction d as [|[k0 v0] d IH]; simpl; [done|].
  destruct (decide (k = k0)) as [->|Hne]; simpl.
  - by rewrite decide_True.
  - by rewrite decide_False.
Qed.

Lemma keys_remove_perm k d :
  NoDup (keys d) → k ∈ keys d → keys d ≡ₚ k :: keys (remove k d).
Proof.
  induction d as [|[k0 v0] d IH]; simpl; intros Hnd Hin.
  - by apply elem_of_nil in Hin.
  - change (keys ((k0, v0) :: d)) with (k0 :: keys d) in *.
    apply NoDup_cons in Hnd as [Hn Hnd].
    destruct (decide (k = k0)) as [->|Hne].
    + by rewrite remove_absent.
    + apply elem_of_cons in Hin as [?|Hin]; [done|].
      change (keys ((k0, v0) :: remove k d)) with (k0 :: keys (remove k d)).
      rewrite (IH Hnd Hin) at 1. apply perm_swap.
Qed.

Lemma keys_set_absent k v d : k ∉ keys d → keys (set k v d) = keys d ++ [k].
Proof. intros Hn. rewrite set_absent by done. unfold keys. by rewrite fmap_app. Qed.

Lemma mem_true k d : mem k d = true ↔ k ∈ keys d.
Proof. unfold mem. by rewrite bool_decide_eq_true. Qed.

Lemma mem_false k d : mem k d = false ↔ k ∉ keys d.
Proof. unfold mem. by rewrite bool_decide_eq_false. Qed.

Lemma update_id k d : update (λ v, v) k d = d.
Proof.
  induction d as [|[k0 v0] d IH]; simpl; [done|].
  destruct (decide (k = k0)); [done | by rewrite IH].
Qed.
End facts.
End PyDictFacts.

Module PyListFacts.
Import PyList.
Section facts.
Context {A : Type}.
Implicit Types (l : list A) (h : list (list A)).

Lemma deref_append_eq r x h :
  r < length h → deref (append r x h) r = deref h r ++ [x].
Proof. intros Hr. unfold deref, append. by rewrite list_lookup_insert_eq. Qed.

Lemma deref_append_ne r r' x h : r ≠ r' → deref (append r x h) r' = deref h r'.
Proof. intros Hr. unfold deref, append. by rewrite list_lookup_insert_ne. Qed.

Lemma length_append r x h : length (append r x h) = length h.
Proof. unfold append. apply length_insert. Qed.

Lemma deref_alloc_new l h : deref (alloc l h).2 (alloc l h).1 = l.
Proof. unfold deref, alloc. simpl. by rewrite list_lookup_middle. Qed.

Lemma deref_alloc_old l h r : r < length h → deref (alloc l h).2 r = deref h r.
Proof. intros Hr. unfold deref, alloc. simpl. by rewrite lookup_app_l. Qed.

Lemma length_slice_last n l : 0 < n → length (slice_last n l) = min (length l) n.
Proof. intros Hn. destruct n; [lia|]. simpl. rewrite length_drop. lia. Qed.

Lemma slice_last_short n l : length l ≤ n → slice_last n l = l.
Proof.
  intros Hl. destruct n; [done|]. simpl.
  replace (length l - S n) with 0 by lia. done.
Qed.

Lemma slice_last_suffix n l : slice_last n l `suffix_of` l.
Proof. destruct n; simpl; [done | apply suffix_drop]. Qed.

(** trimming on the way keeps the newest [n] of everything appended *)
Lemma slice_last_app_slice n l l' :
  0 < n → slice_last n (slice_last n l ++ l') = slice_last n (l ++ l').
Proof.
  intros Hn. destruct n as [|n]; [lia|]. simpl.
  rewrite !length_app, length_drop.
  destruct (decide (length l ≤ S n)) as [Hle|Hgt].
  { replace (length l - S n) with 0 by lia. by rewrite Nat.sub_0_r. }
  destruct (decide (length l' ≤ S n)) as [Hle'|Hgt'].
  - rewrite drop_app_le by (rewrite length_drop; lia).
    rewrite drop_drop, (drop_app_le l) by lia.
    f_equal. f_equal. lia.
  - rewrite drop_app_ge by (rewrite length_drop; lia).
    rewrite (drop_app_ge l) by lia. rewrite length_drop.
    f_equal. lia.
Qed.

Lemma last_slice_last_snoc n l x : 0 < n → last (slice_last n (l ++ [x])) = Some x.
Proof.
  intros Hn. destruct n as [|n]; [lia|]. unfold slice_last.
  rewrite length_app. simpl.
  rewrite drop_app_le by lia. apply last_snoc.
Qed.
End facts.
End PyListFacts.

Arguments PyList.slice_last : simpl never.
Arguments _log_action : simpl never.
Arguments run_chain : simpl never.

(** ** The orchestrator *)

Section orchestrator_facts.
Context `{Collaborators}.
Import PyDictFacts PyListFacts.

(** every setter with the identity is the identity: no field is misplaced *)
Lemma setters_id (s : State) :
  set_agents id s = s ∧ set_quarantine id s = s ∧ set_immune_memory id s = s ∧
  set_total_infections id s = s ∧ set_total_healed id s = s ∧
  set_total_failed_healings id s = s ∧ set_pending_approvals id s = s ∧
  set_rejected_approvals id s = s ∧ set_healing_in_progress id s = s ∧
  set_healing_action_log id s = s ∧ set_heap id s = s ∧
  set_time_reads id s = s ∧ set_log_records id s = s ∧ set_tasks id s = s.
Proof. destruct s. repeat split. Qed.

(** ... and each one reaches its own field *)
Lemma setters_get (s : State) fa fq fm fi fh ff fp fr fg fl fe ft fo fk :
  agents (set_agents fa s) = fa (agents s) ∧
  quarantine (set_quarantine fq s) = fq (quarantine s) ∧
  immune_memory (set_immune_memory fm s) = fm (immune_memory s) ∧
  total_infections (set_total_infections fi s) = fi (total_infections s) ∧
  total_healed (set_total_healed fh s) = fh (total_healed s) ∧
  total_failed_healings (set_total_failed_healings ff s)
    = ff (total_failed_healings s) ∧
  _pending_approvals (set_pending_approvals fp s) = fp (_pending_approvals s) ∧
  _rejected_approvals (set_rejected_approvals fr s)
    = fr (_rejected_approvals s) ∧
  healing_in_progress (set_healing_in_progress fg s)
    = fg (healing_in_progress s) ∧
  _healing_action_log (set_healing_action_log fl s)
    = fl (_healing_action_log s) ∧
  heap (set_heap fe s) = fe (heap s) ∧
  time_reads (set_time_reads ft s) = ft (time_reads s) ∧
  log_records (set_log_records fo s) = fo (log_records s) ∧
  tasks (set_tasks fk s) = fk (tasks s).
Proof. destruct s. repeat split. Qed.


(** *** What [_log_action] leaves alone *)

Lemma log_action_agents ty a kw (s : State) :
  agents (_log_action ty a kw s) = agents s.
Proof. destruct s. unfold _log_action. simpl. by case_decide. Qed.

Lemma log_action_quarantine ty a kw (s : State) :
  quarantine (_log_action ty a kw s) = quarantine s.
Proof. destruct s. unfold _log_action. simpl. by case_decide. Qed.

Lemma log_action_immune_memory ty a kw (s : State) :
  immune_memory (_log_action ty a kw s) = immune_memory s.
Proof. destruct s. unfold _log_action. simpl. by case_decide. Qed.

Lemma log_action_total_infections ty a kw (s : State) :
  total_infections (_log_action ty a kw s) = total_infections s.
Proof. destruct s. unfold _log_action. simpl. by case_decide. Qed.

Lemma log_action_total_healed ty a kw (s : State) :
  total_healed (_log_action ty a kw s) = total_healed s.
Proof. destruct s. unfold _log_action. simpl. by case_decide. Qed.

Lemma log_action_total_failed_healings ty a kw (s : State) :
  total_failed_healings (_log_action ty a kw s) = total_failed_healings s.
Proof. destruct s. unfold _log_action. simpl. by case_decide. Qed.

Lemma log_action_start_time ty a kw (s : State) :
  start_time (_log_action ty a kw s) = start_time s.
Proof. destruct s. unfold _log_action. simpl. by case_decide. Qed.

Lemma log_action_running ty a kw (s : State) :
  running (_log_action ty a kw s) = running s.
Proof. destruct s. unfold _log_action. simpl. by case_decide. Qed.

Lemma log_action_baselines_learned ty a kw (s : State) :
  baselines_learned (_log_action ty a kw s) = baselines_learned s.
Proof. destruct s. unfold _log_action. simpl. by case_decide. Qed.

Lemma log_action_pending_approvals ty a kw (s : State) :
  _pending_approvals (_log_action ty a kw s) = _pending_approvals s.
Proof. destruct s. unfold _log_action. simpl. by case_decide. Qed.

Lemma log_action_rejected_approvals ty a kw (s : State) :
  _rejected_approvals (_log_action ty a kw s) = _rejected_approvals s.
Proof. destruct s. unfold _log_action. simpl. by case_decide. Qed.

Lemma log_action_healing_in_progress ty a kw (s : State) :
  healing_in_progress (_log_action ty a kw s) = healing_in_progress s.
Proof. destruct s. unfold _log_action. simpl. by case_decide. Qed.

Lemma log_action_action_log_max ty a kw (s : State) :
  _action_log_max (_log_action ty a kw s) = _action_log_max s.
Proof. destruct s. unfold _log_action. simpl. by case_decide. Qed.

Lemma log_action_log_records ty a kw (s : State) :
  log_records (_log_action ty a kw s) = log_records s.
Proof. destruct s. unfold _log_action. simpl. by case_decide. Qed.

Lemma log_action_tasks ty a kw (s : State) :
  tasks (_log_action ty a kw s) = tasks s.
Proof. destruct s. unfold _log_action. simpl. by case_decide. Qed.

Lemma log_action_time_reads ty a kw (s : State) :
  time_reads (_log_action ty a kw s) = S (time_reads s).
Proof. destruct s. unfold _log_action. simpl. by case_decide. Qed.

(** the log after one append: the old entries and the new one, trimmed *)
Lemma log_action_log ty a kw (s : State) :
  _healing_action_log s < length (heap s) →
  healing_action_log (_log_action ty a kw s)
  = PyList.slice_last (_action_log_max s)
      (healing_action_log s ++ [entry_of (time_reads s) (ty, a, kw)]).
Proof.
  intros Hr. destruct s. unfold _log_action, healing_action_log in *.
  simpl in *. rewrite deref_append_eq by done.
  case_decide as Hlen; simpl.
  - unfold PyList.deref. rewrite list_lookup_middle by done. done.
  - rewrite slice_last_short.
    + by rewrite deref_append_eq.
    + unfold entry_of. simpl. lia.
Qed.

Lemma log_action_ref ty a kw (s : State) :
  _healing_action_log s < length (heap s) →
  _healing_action_log (_log_action ty a kw s)
  < length (heap (_log_action ty a kw s)).
Proof.
  intros Hr. destruct s. unfold _log_action. simpl in *. case_decide; simpl.
  - rewrite length_app. simpl. lia.
  - by rewrite length_append.
Qed.

Lemma log_action_LogInv ty a kw (s : State) :
  LogInv s → LogInv (_log_action ty a kw s).
Proof.
  intros [Hr Hm Hl]. split.
  - by apply log_action_ref.
  - by rewrite log_action_action_log_max.
  - rewrite log_action_log, Hm by done.
    rewrite length_slice_last by lia. lia.
Qed.

Lemma init_LogInv agent_list : LogInv (init agent_list).
Proof. split; simpl; lia. Qed.

Lemma log_actions_LogInv calls (s : State) :
  LogInv s → LogInv (log_actions calls s).
Proof.
  revert s. induction calls as [|c calls IH]; intros s Hs; [done|].
  simpl. apply IH. by apply log_action_LogInv.
Qed.

Lemma log_actions_log calls (s : State) :
  LogInv s →
  healing_action_log (log_actions calls s)
  = PyList.slice_last 80 (healing_action_log s ++ entries_of (time_reads s) calls).
Proof.
  revert s. induction calls as [|c calls IH]; intros s Hs.
  - simpl. rewrite app_nil_r, slice_last_short; [done | apply Hs].
  - simpl. rewrite IH by by apply log_action_LogInv.
    destruct c as [[ty a] kw]. simpl.
    rewrite log_action_log, log_action_time_reads by apply Hs.
    rewrite (log_max _ Hs), slice_last_app_slice by lia.
    by rewrite <- app_assoc.
Qed.

Lemma length_entries_of n calls : length (entries_of n calls) = length calls.
Proof. revert n. induction calls; intros n; simpl; [done | by rewrite IHcalls]. Qed.

(** C8: starting from the empty log of a new orchestrator, after any
    sequence of [_log_action] calls the log holds exactly
    [min (number of calls) 80] entries: the newest ones, in the order of the
    calls, the older ones being dropped. *)
Theorem action_log_keeps_newest_80 agent_list calls :
  let s := log_actions calls (init agent_list) in
  let appended := entries_of 1 calls in
  _action_log_max s = 80 ∧
  length (healing_action_log s) = min (length calls) 80 ∧
  healing_action_log s = drop (length calls - 80) appended ∧
  appended = take (length calls - 80) appended ++ healing_action_log s.
Proof.
  intros s appended.
  assert (Hlog : healing_action_log s = drop (length calls - 80) appended).
  { unfold s. rewrite log_actions_log by apply init_LogInv.
    simpl. unfold PyList.slice_last. by rewrite length_entries_of. }
  split_and!.
  - apply (log_max _ (log_actions_LogInv calls _ (init_LogInv agent_list))).
  - rewrite Hlog, length_drop. unfold appended. rewrite length_entries_of. lia.
  - done.
  - by rewrite Hlog, take_drop.
Qed.

Create Rewrite HintDb frame.
Hint Rewrite log_action_agents log_action_quarantine log_action_immune_memory log_action_total_infections log_action_total_healed log_action_total_failed_healings log_action_start_time log_action_running log_action_baselines_learned log_action_pending_approvals log_action_rejected_approvals log_action_healing_in_progress log_action_action_log_max log_action_log_records log_action_tasks log_action_time_reads : frame.

(** *** What the logger leaves alone *)

Lemma logger_agents lv f a (s : State) : agents (logger lv f a s) = agents s.
Proof. by destruct s. Qed.

Lemma logger_quarantine lv f a (s : State) : quarantine (logger lv f a s) = quarantine s.
Proof. by destruct s. Qed.

Lemma logger_immune_memory lv f a (s : State) : immune_memory (logger lv f a s) = immune_memory s.
Proof. by destruct s. Qed.

Lemma logger_total_infections lv f a (s : State) : total_infections (logger lv f a s) = total_infections s.
Proof. by destruct s. Qed.

Lemma logger_total_healed lv f a (s : State) : total_healed (logger lv f a s) = total_healed s.
Proof. by destruct s. Qed.

Lemma logger_total_failed_healings lv f a (s : State) : total_failed_healings (logger lv f a s) = total_failed_healings s.
Proof. by destruct s. Qed.

Lemma logger_start_time lv f a (s : State) : start_time (logger lv f a s) = start_time s.
Proof. by destruct s. Qed.

Lemma logger_running lv f a (s : State) : running (logger lv f a s) = running s.
Proof. by destruct s. Qed.

Lemma logger_baselines_learned lv f a (s : State) : baselines_learned (logger lv f a s) = baselines_learned s.
Proof. by destruct s. Qed.

Lemma logger_pending_approvals lv f a (s : State) : _pending_approvals (logger lv f a s) = _pending_approvals s.
Proof. by destruct s. Qed.

Lemma logger_rejected_approvals lv f a (s : State) : _rejected_approvals (logger lv f a s) = _rejected_approvals s.
Proof. by destruct s. Qed.

Lemma logger_healing_in_progress lv f a (s : State) : healing_in_progress (logger lv f a s) = healing_in_progress s.
Proof. by destruct s. Qed.

Lemma logger_healing_action_log lv f a (s : State) : _healing_action_log (logger lv f a s) = _healing_action_log s.
Proof. by destruct s. Qed.

Lemma logger_action_log_max lv f a (s : State) : _action_log_max (logger lv f a s) = _action_log_max s.
Proof. by destruct s. Qed.

Lemma logger_heap lv f a (s : State) : heap (logger lv f a s) = heap s.
Proof. by destruct s. Qed.

Lemma logger_time_reads lv f a (s : State) : time_reads (logger lv f a s) = time_reads s.
Proof. by destruct s. Qed.

Lemma logger_tasks lv f a (s : State) : tasks (logger lv f a s) = tasks s.
Proof. by destruct s. Qed.

Hint Rewrite logger_agents logger_quarantine logger_immune_memory logger_total_infections logger_total_healed logger_total_failed_healings logger_start_time logger_running logger_baselines_learned logger_pending_approvals logger_rejected_approvals logger_healing_in_progress logger_healing_action_log logger_action_log_max logger_heap logger_time_reads logger_tasks : frame.

(** *** The approval workflow, case by case *)

Lemma approve_healing_absent agent_id approved (s : State) :
  PyDict.mem agent_id (_pending_approvals s) = false →
  approve_healing agent_id approved s = ((None, false), s).
Proof.
  intros Hm%mem_false. unfold approve_healing, PyDict.pop.
  rewrite (proj2 (get_None _ _) Hm), remove_absent by done.
  by destruct s.
Qed.

Lemma start_healing_explicitly_absent agent_id (s : State) :
  PyDict.mem agent_id (_rejected_approvals s) = false →
  start_healing_explicitly agent_id s = (None, s).
Proof.
  intros Hm%mem_false. unfold start_healing_explicitly, PyDict.pop.
  rewrite (proj2 (get_None _ _) Hm), remove_absent by done.
  by destruct s.
Qed.

Lemma approve_healing_approved agent_id entry (s : State) :
  PyDict.get agent_id (_pending_approvals s) = Some entry →
  approve_healing agent_id true s
  = ((Some (p_infection entry), true),
     _log_action "user_approved" agent_id kw_none
       (set_pending_approvals (λ _, PyDict.remove agent_id (_pending_approvals s)) s)).
Proof. intros Hg. unfold approve_healing, PyDict.pop. by rewrite Hg. Qed.

Lemma approve_healing_rejected agent_id entry (s : State) :
  PyDict.get agent_id (_pending_approvals s) = Some entry →
  approve_healing agent_id false s
  = ((None, false),
     let s1 := _log_action "user_rejected" agent_id kw_none
       (set_pending_approvals (λ _, PyDict.remove agent_id (_pending_approvals s)) s) in
     logger WARNING
       "Healing rejected for %s - quarantined until 'Heal now' in the dashboard"
       agent_id
       (set_rejected_approvals
          (PyDict.set agent_id {| r_infection := p_infection entry;
                                  r_diagnosis := p_diagnosis entry;
                                  rejected_at := clk (time_reads s1) |})
          (set_time_reads S s1))).
Proof. intros Hg. unfold approve_healing, PyDict.pop. by rewrite Hg. Qed.

Lemma start_healing_explicitly_present agent_id entry (s : State) :
  PyDict.get agent_id (_rejected_approvals s) = Some entry →
  start_healing_explicitly agent_id s
  = (Some (r_infection entry),
     logger INFO "Agent %s - healing started (Heal now)" agent_id
       (_log_action "explicit_heal_requested" agent_id kw_none
          (set_rejected_approvals
             (λ _, PyDict.remove agent_id (_rejected_approvals s)) s))).
Proof. intros Hg. unfold start_healing_explicitly, PyDict.pop. by rewrite Hg. Qed.

(** C6: approving or rejecting an agent that has no pending entry returns
    [(None, False)], asking to heal an agent that has no rejected entry
    returns [None], and in both cases the state that comes back is the state
    that went in: maps, action log, counters and quarantine included. *)
Theorem workflow_misuse_is_a_no_op (s : State) (agent_id other : string)
    (approved : bool) :
  PyDict.mem agent_id (_pending_approvals s) = false →
  PyDict.mem other (_rejected_approvals s) = false →
  approve_healing agent_id approved s = ((None, false), s) ∧
  start_healing_explicitly other s = (None, s).
Proof.
  intros Hp Hr. split.
  - by apply approve_healing_absent.
  - by apply start_healing_explicitly_absent.
Qed.

(** *** Bulk approval *)

Lemma approve_all_loop_each agent_ids approved acc (s : State) :
  approve_all_loop agent_ids approved acc s
  = ((acc ++ approved_pairs (approve_each agent_ids approved s).1),
     (approve_each agent_ids approved s).2).
Proof.
  revert acc s. induction agent_ids as [|a rest IH]; intros acc s; simpl.
  - by rewrite app_nil_r.
  - destruct (approve_healing a approved s) as [[inf did] s1].
    destruct (approve_each rest approved s1) as [rs s2] eqn:E.
    assert (Hrs : rs = (approve_each rest approved s1).1) by by rewrite E.
    assert (Hs2 : s2 = (approve_each rest approved s1).2) by by rewrite E.
    destruct did, inf as [i|]; rewrite IH; simpl; subst rs s2;
      by rewrite <- ?app_assoc.
Qed.

Lemma approve_each_all_approved (d : list (string * PendingEntry)) (s : State) :
  _pending_approvals s = d → NoDup (PyDict.keys d) →
  approved_pairs (approve_each (PyDict.keys d) true s).1
    = (λ kv, (kv.1, p_infection kv.2)) <$> d ∧
  _pending_approvals (approve_each (PyDict.keys d) true s).2 = [].
Proof.
  revert s. induction d as [|[k e] d IH]; intros s Hd Hnd; [done|].
  change (PyDict.keys ((k, e) :: d)) with (k :: PyDict.keys d) in *.
  apply NoDup_cons in Hnd as [Hk Hnd]. simpl.
  assert (Hg : PyDict.get k (_pending_approvals s) = Some e).
  { rewrite Hd. simpl. by rewrite decide_True. }
  rewrite (approve_healing_approved _ _ _ Hg).
  set (s1 := _log_action _ _ _ _).
  assert (Hs1 : _pending_approvals s1 = d).
  { unfold s1. autorewrite with frame. destruct s. simpl in *. rewrite Hd.
    simpl. rewrite decide_True by done. by apply remove_absent. }
  destruct (IH s1 Hs1 Hnd) as [Hp He].
  destruct (approve_each (PyDict.keys d) true s1) as [rs s2]. simpl in *.
  by rewrite Hp.
Qed.

(** C7: [approve_all_pending] is one [approve_healing] per agent id of the
    snapshot of the pending map, in its order, and returns the pairs of the
    calls that approved.  When everything is approved it returns one
    (agent id, infection) pair per pending entry (three for three) and
    leaves the pending map empty. *)
Theorem approve_all_pending_is_single_calls (s : State) (approved : bool) :
  NoDup (PyDict.keys (_pending_approvals s)) →
  approve_all_pending approved s = approve_all_by_single_calls approved s ∧
  (approve_all_pending true s).1
    = (λ kv, (kv.1, p_infection kv.2)) <$> _pending_approvals s ∧
  length (approve_all_pending true s).1 = length (_pending_approvals s) ∧
  _pending_approvals (approve_all_pending true s).2 = [].
Proof.
  intros Hnd.
  assert (Heq : ∀ b, approve_all_pending b s = approve_all_by_single_calls b s).
  { intros b. unfold approve_all_pending, approve_all_by_single_calls.
    rewrite approve_all_loop_each.
    by destruct (approve_each _ b s). }
  destruct (approve_each_all_approved _ s eq_refl Hnd) as [Hp He].
  assert (H1 : (approve_all_pending true s).1
               = (λ kv, (kv.1, p_infection kv.2)) <$> _pending_approvals s).
  { unfold approve_all_pending. rewrite approve_all_loop_each. simpl. done. }
  split_and!.
  - apply Heq.
  - done.
  - by rewrite H1, length_fmap.
  - unfold approve_all_pending. rewrite approve_all_loop_each. simpl. done.
Qed.

(** *** The sweep, case by case *)

Lemma sentinel_iteration_cases agent_id obs (s : State) :
  sentinel_iteration agent_id obs s = s ∨
  ∃ infection,
    obs_has_baseline obs = true ∧ obs_recent_empty obs = false ∧
    obs_infection obs = Some infection ∧
    QuarantineController.is_quarantined agent_id (quarantine s) = false ∧
    PyDict.mem agent_id (_rejected_approvals s) = false ∧
    sentinel_iteration agent_id obs s = on_detection agent_id infection s.
Proof.
  unfold sentinel_iteration.
  destruct (QuarantineController.is_quarantined _ _); [by left|].
  destruct (obs_has_baseline obs); [|by left]. simpl.
  destruct (obs_recent_empty obs); [by left|].
  destruct (obs_infection obs) as [inf|]; [|by left].
  destruct (PyDict.mem _ _); [by left|].
  right. by exists inf.
Qed.

(** [_log_action] on a state taken apart: the trimming decides two fields *)
Lemma log_action_mkState ty a kw ag qu im ti th tf st ru bl pa ra hp al am he tr lr ts :
  _log_action ty a kw
    (mkState ag qu im ti th tf st ru bl pa ra hp al am he tr lr ts)
  = let he1 := PyList.append al (entry_of tr (ty, a, kw)) he in
    let over := bool_decide (am < length (PyList.deref he1 al)) in
    mkState ag qu im ti th tf st ru bl pa ra hp
      (if over then length he1 else al) am
      (if over then he1 ++ [PyList.slice_last am (PyList.deref he1 al)] else he1)
      (S tr) lr ts.
Proof.
  unfold _log_action, healing_action_log. simpl.
  case_decide; [rewrite bool_decide_eq_true_2 | rewrite bool_decide_eq_false_2];
    done.
Qed.

Ltac crunch := simpl; rewrite ?log_action_mkState; simpl.

Lemma on_detection_rejected agent_id infection (s : State) :
  _rejected_approvals (on_detection agent_id infection s) = _rejected_approvals s.
Proof.
  destruct s. unfold on_detection. by destruct (Qle_bool _ _); crunch.
Qed.

Lemma on_detection_healing_in_progress agent_id infection (s : State) :
  healing_in_progress (on_detection agent_id infection s) = healing_in_progress s.
Proof.
  destruct s. unfold on_detection. by destruct (Qle_bool _ _); crunch.
Qed.

Lemma on_detection_quarantine agent_id infection (s : State) :
  quarantine (on_detection agent_id infection s)
  = QuarantineController.quarantine agent_id (quarantine s).
Proof.
  destruct s. unfold on_detection. by destruct (Qle_bool _ _); crunch.
Qed.

Lemma on_detection_total_infections agent_id infection (s : State) :
  total_infections (on_detection agent_id infection s) = S (total_infections s).
Proof.
  destruct s. unfold on_detection. by destruct (Qle_bool _ _); crunch.
Qed.

Lemma on_detection_agents agent_id infection (s : State) :
  agents (on_detection agent_id infection s)
  = PyDict.update Agent.quarantine agent_id (agents s).
Proof.
  destruct s. unfold on_detection. by destruct (Qle_bool _ _); crunch.
Qed.

Lemma on_detection_severe agent_id infection (s : State) :
  Qle_bool SEVERITY_REQUIRING_APPROVAL (severity infection) = true →
  on_detection agent_id infection s
  = logger INFO
      "Agent %s requires approval (severity %.1f) - use dashboard to Approve/Reject"
      agent_id
      (_log_action "approval_requested" agent_id
         (kw_severity (round1 (severity infection)))
         (set_pending_approvals
            (PyDict.set agent_id
               {| p_infection := infection;
                  p_diagnosis := diagnose infection (get_baseline agent_id);
                  requested_at := clk (time_reads s) |})
            (set_time_reads S
               (logger WARNING "Agent %s QUARANTINED" agent_id
                  (set_agents (PyDict.update Agent.quarantine agent_id)
                     (set_quarantine (QuarantineController.quarantine agent_id)
                        (logger WARNING
                           "INFECTION DETECTED: %s | severity=%.1f/10 | anomalies=[%s]"
                           agent_id (set_total_infections S s)))))))).
Proof. intros Hsev. destruct s. unfold on_detection. by rewrite Hsev. Qed.

Lemma on_detection_severe_pending agent_id infection (s : State) :
  Qle_bool SEVERITY_REQUIRING_APPROVAL (severity infection) = true →
  _pending_approvals (on_detection agent_id infection s)
  = PyDict.set agent_id
      {| p_infection := infection;
         p_diagnosis := diagnose infection (get_baseline agent_id);
         requested_at := clk (time_reads s) |} (_pending_approvals s).
Proof.
  intros Hsev. destruct s. unfold on_detection. rewrite Hsev. by crunch.
Qed.

Lemma on_detection_severe_tasks agent_id infection (s : State) :
  Qle_bool SEVERITY_REQUIRING_APPROVAL (severity infection) = true →
  tasks (on_detection agent_id infection s) = tasks s.
Proof.
  intros Hsev. destruct s. unfold on_detection. rewrite Hsev. by crunch.
Qed.

Lemma healing_action_log_logger lv f a (s : State) :
  healing_action_log (logger lv f a s) = healing_action_log s.
Proof. by destruct s. Qed.

Lemma on_detection_severe_log agent_id infection (s : State) :
  Qle_bool SEVERITY_REQUIRING_APPROVAL (severity infection) = true →
  _healing_action_log s < length (heap s) →
  healing_action_log (on_detection agent_id infection s)
  = PyList.slice_last (_action_log_max s)
      (healing_action_log s ++
       [entry_of (S (time_reads s))
          ("approval_requested", agent_id,
           kw_severity (round1 (severity infection)))]).
Proof.
  intros Hsev Hr. rewrite on_detection_severe by done.
  rewrite healing_action_log_logger, log_action_log; by destruct s.
Qed.

Lemma on_detection_mild agent_id infection (s : State) :
  Qle_bool SEVERITY_REQUIRING_APPROVAL (severity infection) = false →
  _pending_approvals (on_detection agent_id infection s) = _pending_approvals s ∧
  tasks (on_detection agent_id infection s)
    = tasks s ++ [new_task agent_id infection "auto"] ∧
  heap (on_detection agent_id infection s) = heap s ∧
  _healing_action_log (on_detection agent_id infection s) = _healing_action_log s ∧
  _action_log_max (on_detection agent_id infection s) = _action_log_max s ∧
  time_reads (on_detection agent_id infection s) = time_reads s.
Proof. intros Hsev. destruct s. unfold on_detection. by rewrite Hsev. Qed.

Lemma LogInv_logger lv f a (s : State) : LogInv s → LogInv (logger lv f a s).
Proof. by destruct s; intros []. Qed.

Lemma on_detection_LogInv agent_id infection (s : State) :
  LogInv s → LogInv (on_detection agent_id infection s).
Proof.
  intros Hs. destruct (Qle_bool SEVERITY_REQUIRING_APPROVAL (severity infection))
    eqn:Hsev.
  - rewrite on_detection_severe by done.
    apply LogInv_logger, log_action_LogInv. by destruct s, Hs.
  - destruct (on_detection_mild agent_id infection s Hsev)
      as (_ & _ & Hh & Hl & Hm & _).
    destruct Hs as [? ? ?]. unfold healing_action_log in *.
    split; unfold healing_action_log; rewrite ?Hh, ?Hl, ?Hm; done.
Qed.

(** *** Suppression of rejected agents *)

Lemma sentinel_iteration_rejected agent_id obs (s : State) :
  PyDict.mem agent_id (_rejected_approvals s) = true →
  sentinel_iteration agent_id obs s = s.
Proof.
  intros Hr. unfold sentinel_iteration. rewrite Hr.
  by repeat case_match.
Qed.

Lemma sentinel_iteration_elsewhere a agent_id obs (s : State) :
  a ≠ agent_id →
  PyDict.get agent_id (_pending_approvals (sentinel_iteration a obs s))
    = PyDict.get agent_id (_pending_approvals s) ∧
  filter (λ t, h_agent_id t = agent_id) (tasks (sentinel_iteration a obs s))
    = filter (λ t, h_agent_id t = agent_id) (tasks s).
Proof.
  intros Hne.
  destruct (sentinel_iteration_cases a obs s)
    as [-> | (inf & _ & _ & _ & _ & _ & ->)]; [done|].
  destruct (Qle_bool SEVERITY_REQUIRING_APPROVAL (severity inf)) eqn:Hsev.
  - rewrite on_detection_severe_pending, on_detection_severe_tasks by done.
    by rewrite get_set_ne.
  - destruct (on_detection_mild a inf s Hsev) as (-> & -> & _).
    split; [done|]. rewrite filter_app, filter_cons_False by done.
    by rewrite filter_nil, app_nil_r.
Qed.

Lemma sentinel_iteration_keeps_rejected a obs (s : State) :
  _rejected_approvals (sentinel_iteration a obs s) = _rejected_approvals s.
Proof.
  destruct (sentinel_iteration_cases a obs s)
    as [-> | (inf & _ & _ & _ & _ & _ & ->)]; [done|].
  apply on_detection_rejected.
Qed.

Lemma sweep_leaves_rejected_agent agent_id obs ids (s : State) :
  PyDict.mem agent_id (_rejected_approvals s) = true →
  let s' := foldl (λ s a, sentinel_iteration a (obs a) s) s ids in
  _rejected_approvals s' = _rejected_approvals s ∧
  PyDict.get agent_id (_pending_approvals s')
    = PyDict.get agent_id (_pending_approvals s) ∧
  filter (λ t, h_agent_id t = agent_id) (tasks s')
    = filter (λ t, h_agent_id t = agent_id) (tasks s).
Proof.
  revert s. induction ids as [|a ids IH]; intros s Hr; [done|].
  simpl. set (s1 := sentinel_iteration a (obs a) s).
  assert (Hr1 : _rejected_approvals s1 = _rejected_approvals s)
    by apply sentinel_iteration_keeps_rejected.
  destruct (IH s1) as (-> & -> & ->); [by rewrite Hr1|].
  split; [done|]. destruct (decide (a = agent_id)) as [->|Hne].
  - unfold s1. by rewrite sentinel_iteration_rejected.
  - by apply sentinel_iteration_elsewhere.
Qed.

(** C9: as long as an agent sits in the rejected-approval map, an iteration
    of the sweep on it changes nothing at all (no pending entry, no counter,
    no task, no log line), whatever is observed; a whole sweep leaves its
    rejected entry, its pending entry and its tasks as they were; and
    [start_healing_explicitly] is what takes it out of the map. *)
Theorem rejected_agent_is_not_detected_again (s : State) (agent_id : string) :
  PyDict.mem agent_id (_rejected_approvals s) = true →
  (∀ obs, sentinel_iteration agent_id obs s = s) ∧
  (∀ obs,
     _rejected_approvals (sentinel_sweep obs s) = _rejected_approvals s ∧
     PyDict.get agent_id (_pending_approvals (sentinel_sweep obs s))
       = PyDict.get agent_id (_pending_approvals s) ∧
     filter (λ t, h_agent_id t = agent_id) (tasks (sentinel_sweep obs s))
       = filter (λ t, h_agent_id t = agent_id) (tasks s)) ∧
  PyDict.mem agent_id
    (_rejected_approvals (start_healing_explicitly agent_id s).2) = false.
Proof.
  intros Hr. split_and!.
  - intros obs. by apply sentinel_iteration_rejected.
  - intros obs. by apply sweep_leaves_rejected_agent.
  - apply mem_true, mem_get in Hr as [entry Hg].
    rewrite (start_healing_explicitly_present _ _ _ Hg). simpl.
    autorewrite with frame. destruct s. simpl.
    apply mem_false. rewrite elem_of_keys_remove. tauto.
Qed.

(** *** The healing escalation, step by step *)

Lemma iter_discard (d : nat) (a : string) (X : gset string) :
  Nat.iter d (λ hip, hip ∖ {[a]}) X ∖ {[a]} = X ∖ {[a]}.
Proof.
  induction d as [|d IH]; [done|]. rewrite Nat.iter_succ.
  apply set_eq. intros x. rewrite <- IH, !elem_of_difference. tauto.
Qed.

Lemma finally_healing_in_progress t (s : State) :
  healing_in_progress (finally t s) = healing_in_progress s ∖ {[h_agent_id t]}.
Proof. destruct s. unfold finally. simpl. apply iter_discard. Qed.

(** what no resumption of [heal_agent] touches *)
Lemma heal_step_frame result t (s : State) :
  tasks (heal_step result t s).1 = tasks s ∧
  _pending_approvals (heal_step result t s).1 = _pending_approvals s ∧
  _rejected_approvals (heal_step result t s).1 = _rejected_approvals s ∧
  _action_log_max (heal_step result t s).1 = _action_log_max s.
Proof.
  destruct s. unfold heal_step, heal_enter.
  destruct (h_point t); crunch; repeat case_match; crunch; done.
Qed.

Lemma LogInv_view (s1 s2 : State) : log_view s1 = log_view s2 → LogInv s1 → LogInv s2.
Proof.
  destruct s1, s2. unfold log_view. simpl. intros [= -> -> ->] [? ? ?].
  by split.
Qed.

(** a resumption appends to the action log at most once *)
Lemma heal_step_log_view result t (s : State) :
  log_view (heal_step result t s).1 = log_view s ∨
  ∃ ty a kw s0, log_view s0 = log_view s ∧
    log_view (heal_step result t s).1 = log_view (_log_action ty a kw s0).
Proof.
  unfold heal_step, heal_enter.
  destruct (h_point t) as [|dg|dg fa|dg act|] eqn:Hp.
  - left. destruct s. simpl. by case_match.
  - left. destruct s. simpl. by case_decide.
  - left. destruct s. simpl. by case_match.
  - right.
    exists "healing_attempt", (h_agent_id t),
      (kw_attempt (diagnosis_type dg) act (Healer.validation_passed result)
         (h_trigger t)), s.
    split; [done|]. destruct s. crunch. by case_match.
  - left. destruct s. simpl. by case_match.
Qed.

Lemma heal_step_LogInv result t (s : State) :
  LogInv s → LogInv (heal_step result t s).1.
Proof.
  intros Hs.
  destruct (heal_step_log_view result t s) as [Hv | (ty & a & kw & s0 & H0 & Hv)].
  - by eapply LogInv_view.
  - eapply LogInv_view; [done|]. apply log_action_LogInv.
    by eapply LogInv_view.
Qed.

(** a resumption that does not return: same agent, body entered, quarantine
    untouched, and the agent in [healing_in_progress] *)
Lemma heal_step_continue result t (s : State) t' :
  (heal_step result t s).2 = Some t' →
  h_agent_id t' = h_agent_id t ∧ started t' = true ∧
  quarantine (heal_step result t s).1 = quarantine s ∧
  (started t = false → h_agent_id t ∈ healing_in_progress (heal_step result t s).1) ∧
  healing_in_progress s ⊆ healing_in_progress (heal_step result t s).1 ∧
  healing_in_progress (heal_step result t s).1
    ⊆ {[h_agent_id t]} ∪ healing_in_progress s.
Proof.
  destruct s. unfold heal_step, heal_enter, started.
  destruct (h_point t) as [|dg|dg fa|dg act|] eqn:Hp; crunch;
    repeat case_match; crunch; intros [= <-]; simpl; rewrite ?Hp;
    split_and!; try done; set_solver.
Qed.

(** a resumption that returns: the agent leaves [healing_in_progress], and
    nobody else leaves the quarantine *)
Lemma heal_step_return result t (s : State) :
  (heal_step result t s).2 = None →
  healing_in_progress (heal_step result t s).1
    = healing_in_progress s ∖ {[h_agent_id t]} ∧
  QuarantineController.quarantined (quarantine s) ∖ {[h_agent_id t]}
    ⊆ QuarantineController.quarantined (quarantine (heal_step result t s).1).
Proof.
  destruct s. unfold heal_step, heal_enter.
  destruct (h_point t) as [|dg|dg fa|dg act|] eqn:Hp; crunch;
    repeat case_match; crunch; intros [=]; simpl;
    rewrite ?iter_discard; split; set_solver.
Qed.

(** *** The invariant is kept by every move *)

Ltac float :=
  rewrite <- ?app_assoc; simpl; rewrite <- ?Permutation_middle, ?app_nil_r.

Lemma not_quarantined_not_owner sys a :
  Inv sys →
  QuarantineController.is_quarantined a (quarantine (orch sys)) = false →
  a ∉ owners sys.
Proof.
  intros HI Hq Hin. apply (inv_quarantined _ HI) in Hin.
  unfold QuarantineController.is_quarantined in Hq.
  by apply bool_decide_eq_false in Hq.
Qed.

Lemma owner_parts sys a :
  a ∈ owners sys ↔
  a ∈ PyDict.keys (_pending_approvals (orch sys)) ∨
  a ∈ PyDict.keys (_rejected_approvals (orch sys)) ∨
  a ∈ task_ids (orch sys) ∨ a ∈ (returned sys).*1.
Proof. unfold owners. rewrite !elem_of_app. tauto. Qed.

Lemma Inv_sweep sys agent_id obs :
  Inv sys →
  Inv {| orch := sentinel_iteration agent_id obs (orch sys);
         returned := returned sys |}.
Proof.
  intros HI.
  destruct (sentinel_iteration_cases agent_id obs (orch sys))
    as [-> | (inf & _ & _ & _ & Hnq & _ & ->)]; [by destruct sys|].
  pose proof (not_quarantined_not_owner _ _ HI Hnq) as Hfresh.
  set (sys' := {| orch := on_detection agent_id inf (orch sys);
                  returned := returned sys |}).
  assert (Hown : owners sys' ≡ₚ agent_id :: owners sys).
  { unfold owners, task_ids. simpl. rewrite on_detection_rejected.
    destruct (Qle_bool SEVERITY_REQUIRING_APPROVAL (severity inf)) eqn:Hsev.
    - rewrite on_detection_severe_pending, on_detection_severe_tasks by done.
      rewrite keys_set_absent; [by float|].
      intros Hin. apply Hfresh, owner_parts. by left.
    - destruct (on_detection_mild agent_id inf (orch sys) Hsev) as (-> & -> & _).
      rewrite fmap_app. simpl. by float. }
  destruct HI as [Hnd Hq Hp Hl]. split.
  - rewrite Hown. by apply NoDup_cons.
  - intros a. rewrite Hown. simpl. rewrite on_detection_quarantine. simpl.
    rewrite elem_of_cons. intros [->|Ha]; [set_solver|].
    apply Hq in Ha. set_solver.
  - intros a. simpl. rewrite on_detection_healing_in_progress, (Hp a).
    destruct (Qle_bool SEVERITY_REQUIRING_APPROVAL (severity inf)) eqn:Hsev.
    + by rewrite on_detection_severe_tasks.
    + destruct (on_detection_mild agent_id inf (orch sys) Hsev) as (_ & -> & _).
      split; intros (t & Ht & Hid & Hst).
      * exists t. rewrite elem_of_app. auto.
      * exists t. apply elem_of_app in Ht as [Ht|Ht]; [done|].
        apply list_elem_of_singleton in Ht. by subst t.
  - by apply on_detection_LogInv.
Qed.

Lemma approve_healing_effect a approved (s : State) :
  healing_in_progress (approve_healing a approved s).2 = healing_in_progress s ∧
  quarantine (approve_healing a approved s).2 = quarantine s ∧
  tasks (approve_healing a approved s).2 = tasks s ∧
  (LogInv s → LogInv (approve_healing a approved s).2) ∧
  match PyDict.get a (_pending_approvals s) with
  | None => approve_healing a approved s = ((None, false), s)
  | Some e =>
      _pending_approvals (approve_healing a approved s).2
        = PyDict.remove a (_pending_approvals s) ∧
      if approved then
        (approve_healing a approved s).1 = (Some (p_infection e), true) ∧
        _rejected_approvals (approve_healing a approved s).2
          = _rejected_approvals s
      else
        (approve_healing a approved s).1 = (None, false) ∧
        ∃ entry, _rejected_approvals (approve_healing a approved s).2
                 = PyDict.set a entry (_rejected_approvals s)
  end.
Proof.
  destruct (PyDict.get a (_pending_approvals s)) as [e|] eqn:Hg.
  - destruct approved.
    + rewrite (approve_healing_approved _ _ _ Hg). simpl.
      autorewrite with frame. split_and!; try by destruct s.
      intros Hs. apply log_action_LogInv. by destruct s, Hs.
    + rewrite (approve_healing_rejected _ _ _ Hg). simpl.
      autorewrite with frame.
      set (s1 := _log_action _ _ _ _).
      assert (Hs1 : healing_in_progress s1 = healing_in_progress s ∧
                    quarantine s1 = quarantine s ∧ tasks s1 = tasks s ∧
                    _pending_approvals s1 = PyDict.remove a (_pending_approvals s) ∧
                    _rejected_approvals s1 = _rejected_approvals s ∧
                    (LogInv s → LogInv s1)).
      { unfold s1. autorewrite with frame. split_and!; try by destruct s.
        intros Hs. apply log_action_LogInv. by destruct s, Hs. }
      destruct Hs1 as (H1 & H2 & H3 & H4 & H5 & H6).
      destruct s1. simpl in *. subst. split_and!; try done.
      * intros Hs. specialize (H6 Hs). by destruct H6.
      * eauto.
  - assert (Hm : PyDict.mem a (_pending_approvals s) = false).
    { by apply mem_false, get_None. }
    by rewrite (approve_healing_absent _ approved _ Hm).
Qed.

Lemma start_healing_explicitly_effect a (s : State) :
  healing_in_progress (start_healing_explicitly a s).2 = healing_in_progress s ∧
  quarantine (start_healing_explicitly a s).2 = quarantine s ∧
  tasks (start_healing_explicitly a s).2 = tasks s ∧
  _pending_approvals (start_healing_explicitly a s).2 = _pending_approvals s ∧
  (LogInv s → LogInv (start_healing_explicitly a s).2) ∧
  match PyDict.get a (_rejected_approvals s) with
  | None => start_healing_explicitly a s = (None, s)
  | Some e =>
      (start_healing_explicitly a s).1 = Some (r_infection e) ∧
      _rejected_approvals (start_healing_explicitly a s).2
        = PyDict.remove a (_rejected_approvals s)
  end.
Proof.
  destruct (PyDict.get a (_rejected_approvals s)) as [e|] eqn:Hg.
  - rewrite (start_healing_explicitly_present _ _ _ Hg). simpl.
    autorewrite with frame. split_and!; try by destruct s.
    intros Hs. apply LogInv_logger, log_action_LogInv. by destruct s, Hs.
  - assert (Hm : PyDict.mem a (_rejected_approvals s) = false).
    { by apply mem_false, get_None. }
    by rewrite (start_healing_explicitly_absent _ _ Hm).
Qed.

(** a move that passes a fault from one holder to another *)
Lemma Inv_handover sys sys' :
  Inv sys →
  owners sys' ≡ₚ owners sys →
  quarantine (orch sys') = quarantine (orch sys) →
  healing_in_progress (orch sys') = healing_in_progress (orch sys) →
  (∀ t, started t = true → t ∈ tasks (orch sys') ↔ t ∈ tasks (orch sys)) →
  LogInv (orch sys') →
  Inv sys'.
Proof.
  intros [Hnd Hq Hp Hl] Hown Hqu Hhip Hts Hl'. split; [| | |done].
  - by rewrite Hown.
  - intros a. rewrite Hown, Hqu. apply Hq.
  - intros a. rewrite Hhip, (Hp a).
    split; intros (t & Ht & Hid & Hst); exists t; split_and!; try done;
      by apply Hts.
Qed.

Lemma Inv_approve sys agent_id approved :
  Inv sys →
  Inv {| orch := (approve_healing agent_id approved (orch sys)).2;
         returned := returned sys ++
           handed_over agent_id (approve_healing agent_id approved (orch sys)).1 |}.
Proof.
  intros HI.
  destruct (approve_healing_effect agent_id approved (orch sys))
    as (Hhip & Hqu & Hts & Hlog & Hcase).
  destruct (PyDict.get agent_id (_pending_approvals (orch sys))) as [e|] eqn:Hg.
  2:{ rewrite Hcase. simpl. rewrite app_nil_r. by destruct sys. }
  destruct Hcase as [Hpend Hcase].
  assert (HndP : NoDup (PyDict.keys (_pending_approvals (orch sys)))).
  { pose proof (inv_owner _ HI) as Hnd. unfold owners in Hnd.
    by apply NoDup_app in Hnd as [? _]. }
  pose proof (keys_remove_perm agent_id _ HndP (get_Some_mem _ _ _ Hg)) as HP.
  apply (Inv_handover sys); try done; [|simpl; by rewrite Hts|by apply Hlog, HI].
  unfold owners, task_ids. simpl. rewrite Hpend, Hts, HP.
  destruct approved.
  - destruct Hcase as [-> ->]. simpl. rewrite fmap_app. simpl. by float.
  - destruct Hcase as [-> [entry ->]]. simpl. rewrite app_nil_r.
    rewrite keys_set_absent; [by float|].
    intros Hin. pose proof (inv_owner _ HI) as Hnd. unfold owners in Hnd.
    apply NoDup_app in Hnd as (_ & Hdis & _).
    apply (Hdis agent_id); [by eapply get_Some_mem | rewrite elem_of_app; auto].
Qed.

Lemma Inv_heal_now sys agent_id :
  Inv sys →
  Inv {| orch := (start_healing_explicitly agent_id (orch sys)).2;
         returned := returned sys ++
           handed_over agent_id
             ((start_healing_explicitly agent_id (orch sys)).1, true) |}.
Proof.
  intros HI.
  destruct (start_healing_explicitly_effect agent_id (orch sys))
    as (Hhip & Hqu & Hts & Hpend & Hlog & Hcase).
  destruct (PyDict.get agent_id (_rejected_approvals (orch sys))) as [e|] eqn:Hg.
  2:{ rewrite Hcase. simpl. rewrite app_nil_r. by destruct sys. }
  destruct Hcase as [Hret Hrej].
  assert (HndR : NoDup (PyDict.keys (_rejected_approvals (orch sys)))).
  { pose proof (inv_owner _ HI) as Hnd. unfold owners in Hnd.
    apply NoDup_app in Hnd as (_ & _ & Hnd). by apply NoDup_app in Hnd as [? _]. }
  pose proof (keys_remove_perm agent_id _ HndR (get_Some_mem _ _ _ Hg)) as HR.
  apply (Inv_handover sys); try done; [|simpl; by rewrite Hts|by apply Hlog, HI].
  unfold owners, task_ids. simpl. rewrite Hpend, Hts, Hrej, Hret, HR. simpl.
  rewrite fmap_app. simpl. by float.
Qed.

Lemma Inv_schedule sys i agent_id infection trigger :
  Inv sys →
  returned sys !! i = Some (agent_id, infection) →
  Inv {| orch := create_task agent_id infection trigger (orch sys);
         returned := delete i (returned sys) |}.
Proof.
  intros HI Hi.
  apply (Inv_handover sys); try done; try by destruct (orch sys).
  - unfold owners, task_ids. simpl.
    pose proof (delete_Permutation (returned sys) i _ Hi) as HU.
    set (U := delete i (returned sys)) in *. rewrite HU.
    replace (tasks (create_task agent_id infection trigger (orch sys)))
      with (tasks (orch sys) ++ [new_task agent_id infection trigger])
      by by destruct (orch sys).
    rewrite fmap_app, fmap_cons. simpl. float. by destruct (orch sys).
  - intros t Hst. simpl.
    replace (tasks (create_task agent_id infection trigger (orch sys)))
      with (tasks (orch sys) ++ [new_task agent_id infection trigger])
      by by destruct (orch sys).
    rewrite elem_of_app, list_elem_of_singleton.
    split; [intros [?| ->]; [done | discriminate] | auto].
  - simpl. eapply LogInv_view; [|apply HI]. by destruct (orch sys).
Qed.

Lemma Inv_agent sys agent_id f :
  Inv sys →
  Inv {| orch := set_agents (PyDict.update f agent_id) (orch sys);
         returned := returned sys |}.
Proof.
  intros HI. apply (Inv_handover sys); try done; try by destruct (orch sys).
  - unfold owners, task_ids. simpl. by destruct (orch sys).
  - simpl. eapply LogInv_view; [|apply HI]. by destruct (orch sys).
Qed.

Lemma get_healing_actions_LogInv (s : State) :
  LogInv s → LogInv (get_healing_actions s).2.
Proof.
  intros [Hr Hm Hl]. destruct s. unfold healing_action_log in *. simpl in *.
  split; unfold healing_action_log; simpl.
  - rewrite !length_app. simpl. lia.
  - done.
  - unfold PyList.deref in *. by rewrite !lookup_app_l by (rewrite ?length_app; lia).
Qed.

Lemma Inv_read_log sys :
  Inv sys →
  Inv {| orch := (get_healing_actions (orch sys)).2; returned := returned sys |}.
Proof.
  intros HI. apply (Inv_handover sys); try done; try by destruct (orch sys).
  - unfold owners, task_ids. simpl. by destruct (orch sys).
  - by apply get_healing_actions_LogInv, HI.
Qed.

Lemma split_at {A} (l : list A) i x :
  l !! i = Some x →
  ∃ l1 l2, l = l1 ++ x :: l2 ∧
    (∀ y, <[i:=y]> l = l1 ++ y :: l2) ∧ delete i l = l1 ++ l2.
Proof.
  intros Hi. exists (take i l), (drop (S i) l). split_and!.
  - by rewrite take_drop_middle.
  - intros y. apply insert_take_drop. by eapply lookup_lt_Some.
  - apply delete_take_drop.
Qed.

Lemma Inv_task sys i t result :
  Inv sys →
  tasks (orch sys) !! i = Some t →
  Inv {| orch :=
           set_tasks (λ ts, match (heal_step result t (orch sys)).2 with
                            | Some t' => <[i := t']> ts
                            | None => delete i ts
                            end)
                     (heal_step result t (orch sys)).1;
         returned := returned sys |}.
Proof.
  intros HI Hi.
  destruct (heal_step_frame result t (orch sys)) as (Hts & Hpe & Hre & _).
  pose proof (heal_step_LogInv result t (orch sys) (inv_log _ HI)) as Hlog.
  destruct (split_at _ _ _ Hi) as (l1 & l2 & Hl & Hins & Hdel).
  destruct HI as [Hnd Hq Hp _].
  assert (Hnd' := Hnd). unfold owners, task_ids in Hnd'. rewrite Hl in Hnd'.
  rewrite fmap_app, fmap_cons in Hnd'.
  destruct (heal_step result t (orch sys)) as [s' ot] eqn:Hstep. simpl in *.
  assert (Hs' : s' = (heal_step result t (orch sys)).1) by by rewrite Hstep.
  assert (Hot : (heal_step result t (orch sys)).2 = ot) by by rewrite Hstep.
  destruct ot as [t'|].
  - destruct (heal_step_continue result t (orch sys) t' Hot)
      as (Hid & Hst & Hqu & Hin & Hsub & Hsup).
    rewrite <- Hs' in *. split.
    + unfold owners, task_ids. destruct s'. simpl in *. subst.
      rewrite list_fmap_insert, Hid, list_insert_id; [done|].
      by rewrite list_lookup_fmap, Hi.
    + intros a. unfold owners, task_ids. destruct s'. simpl in *. subst.
      rewrite list_fmap_insert, Hid, list_insert_id
        by by rewrite list_lookup_fmap, Hi.
      apply Hq.
    + intros a. specialize (Hp a). simpl.
      replace (tasks (set_tasks (λ ts, <[i:=t']> ts) s')) with (l1 ++ t' :: l2)
        by (destruct s'; simpl in *; by rewrite Hts, Hins).
      replace (healing_in_progress (set_tasks (λ ts, <[i:=t']> ts) s'))
        with (healing_in_progress s') by by destruct s'.
      rewrite Hl in Hp. split.
      * intros Ha. apply Hsup in Ha. apply elem_of_union in Ha as [Ha|Ha].
        { apply elem_of_singleton in Ha as ->. exists t'.
          rewrite elem_of_app, elem_of_cons. auto. }
        apply Hp in Ha as (t0 & Ht0 & Hid0 & Hst0).
        apply elem_of_app in Ht0 as [Ht0|Ht0].
        { exists t0. rewrite elem_of_app. auto. }
        apply elem_of_cons in Ht0 as [->|Ht0].
        { exists t'. rewrite elem_of_app, elem_of_cons. split_and!; auto.
          congruence. }
        exists t0. rewrite elem_of_app, elem_of_cons. auto.
      * intros (t0 & Ht0 & Hid0 & Hst0).
        apply elem_of_app in Ht0 as [Ht0|Ht0].
        { apply Hsub, Hp. exists t0. rewrite elem_of_app. auto. }
        apply elem_of_cons in Ht0 as [->|Ht0].
        { assert (Ha : h_agent_id t = a) by congruence.
          destruct (started t) eqn:Hstt; [|rewrite <- Ha; by apply Hin].
          apply Hsub, Hp. exists t. rewrite elem_of_app, elem_of_cons. auto. }
        apply Hsub, Hp. exists t0. rewrite elem_of_app, elem_of_cons. auto.
    + eapply LogInv_view; [|exact Hlog]. by destruct s'.
  - destruct (heal_step_return result t (orch sys) Hot) as (Hhip & Hqu).
    rewrite <- Hs' in *.
    assert (Hown : owners sys ≡ₚ h_agent_id t ::
              owners {| orch := set_tasks (λ ts, delete i ts) s';
                        returned := returned sys |}).
    { unfold owners, task_ids. destruct s'. simpl in *. subst.
      rewrite Hl at 1. rewrite Hdel, !fmap_app, fmap_cons. by float. }
    rewrite Hown in Hnd. apply NoDup_cons in Hnd as [Hfresh Hnd].
    split.
    + done.
    + intros a Ha. assert (a ≠ h_agent_id t) by congruence.
      assert (Ha' : a ∈ owners sys) by (rewrite Hown, elem_of_cons; auto).
      apply Hq in Ha'.
      replace (quarantine (orch {| orch := set_tasks (λ ts, delete i ts) s';
                                   returned := returned sys |}))
        with (quarantine s') by by destruct s'.
      apply Hqu. set_solver.
    + intros a. specialize (Hp a). simpl.
      replace (tasks (set_tasks (λ ts, delete i ts) s')) with (l1 ++ l2)
        by (destruct s'; simpl in *; by rewrite Hts, Hdel).
      replace (healing_in_progress (set_tasks (λ ts, delete i ts) s'))
        with (healing_in_progress s') by by destruct s'.
      rewrite Hhip, elem_of_difference, elem_of_singleton, Hp, Hl.
      assert (Hnot : ∀ t0, t0 ∈ l1 ++ l2 → h_agent_id t0 ≠ h_agent_id t).
      { intros t0 Ht0 Heq. apply Hfresh, owner_parts. right. right. left.
        unfold task_ids. replace (tasks (orch _)) with (l1 ++ l2)
          by (destruct s'; simpl in *; by rewrite Hts, Hdel).
        rewrite <- Heq. by apply list_elem_of_fmap_2. }
      split.
      * intros [(t0 & Ht0 & Hid0 & Hst0) Hne]. exists t0. split_and!; try done.
        rewrite elem_of_app in Ht0 |- *. rewrite elem_of_cons in Ht0.
        destruct Ht0 as [?|[->|?]]; auto. done.
      * intros (t0 & Ht0 & Hid0 & Hst0). split.
        { exists t0. split_and!; try done.
          rewrite elem_of_app in Ht0 |- *. rewrite elem_of_cons. tauto. }
        rewrite <- Hid0. by apply Hnot.
    + eapply LogInv_view; [|exact Hlog]. by destruct s'.
Qed.

Lemma init_Inv agent_list : Inv {| orch := init agent_list; returned := [] |}.
Proof.
  split.
  - apply NoDup_nil_2.
  - intros a Ha. by apply elem_of_nil in Ha.
  - intros a. simpl. split; [set_solver|].
    intros (t & Ht & _). by apply elem_of_nil in Ht.
  - apply init_LogInv.
Qed.

Lemma step_Inv sys sys' : Inv sys → step sys sys' → Inv sys'.
Proof.
  intros HI Hstep. destruct Hstep.
  - by apply Inv_sweep.
  - by apply Inv_approve.
  - by apply Inv_heal_now.
  - by eapply Inv_schedule.
  - by apply Inv_task.
  - by apply Inv_agent.
  - by apply Inv_read_log.
Qed.

(** every reachable state of the system satisfies the invariant *)
Lemma reachable_Inv agent_list sys : reachable agent_list sys → Inv sys.
Proof.
  induction 1 as [|sys sys' _ IH Hstep]; [apply init_Inv | by eapply step_Inv].
Qed.

(** *** Properties of the reachable states *)

(** C3: in every reachable state no agent id is both in the pending-approval
    map and in the rejected-approval map, and an agent id in either of them
    is in the quarantine set. *)
Theorem pending_and_rejected_exclusive_and_quarantined agent_list sys a :
  reachable agent_list sys →
  ¬ (a ∈ PyDict.keys (_pending_approvals (orch sys)) ∧
     a ∈ PyDict.keys (_rejected_approvals (orch sys))) ∧
  (a ∈ PyDict.keys (_pending_approvals (orch sys)) ∨
   a ∈ PyDict.keys (_rejected_approvals (orch sys)) →
   QuarantineController.is_quarantined a (quarantine (orch sys)) = true).
Proof.
  intros [Hnd Hq _ _]%reachable_Inv. split.
  - intros [HP HR]. unfold owners in Hnd.
    apply NoDup_app in Hnd as (_ & Hdis & _).
    apply (Hdis a HP). rewrite elem_of_app. auto.
  - intros Hin. apply bool_decide_eq_true, Hq, owner_parts. tauto.
Qed.

(** C1: in a reachable state, when the sweep detects an infection on an
    agent (not quarantined, baseline learned, recent telemetry present):
    with a severity of 7.0 or more it diagnoses at once, stores the entry
    under the agent id in the pending-approval map, appends an
    [approval_requested] action and starts no healing; with a lower severity
    it queues a [heal_agent] task and touches neither the pending-approval
    map nor the action log. *)
Theorem severity_routing agent_list sys agent_id obs infection :
  reachable agent_list sys →
  QuarantineController.is_quarantined agent_id (quarantine (orch sys)) = false →
  obs_has_baseline obs = true →
  obs_recent_empty obs = false →
  obs_infection obs = Some infection →
  let s := orch sys in
  let s' := sentinel_iteration agent_id obs s in
  let requested :=
    entry_of (S (time_reads s))
      ("approval_requested", agent_id,
       kw_severity (round1 (severity infection))) in
  if Qle_bool SEVERITY_REQUIRING_APPROVAL (severity infection) then
    PyDict.get agent_id (_pending_approvals s')
      = Some {| p_infection := infection;
                p_diagnosis := diagnose infection (get_baseline agent_id);
                requested_at := clk (time_reads s) |} ∧
    healing_action_log s'
      = PyList.slice_last 80 (healing_action_log s ++ [requested]) ∧
    last (healing_action_log s') = Some requested ∧
    tasks s' = tasks s ∧
    healing_in_progress s' = healing_in_progress s
  else
    tasks s' = tasks s ++ [new_task agent_id infection "auto"] ∧
    _pending_approvals s' = _pending_approvals s ∧
    PyDict.mem agent_id (_pending_approvals s') = false ∧
    healing_action_log s' = healing_action_log s.
Proof.
  intros HI%reachable_Inv Hnq Hb Hr Hinf s s' requested.
  pose proof (not_quarantined_not_owner _ _ HI Hnq) as Hfresh.
  subst s. set (s := orch sys) in *.
  assert (Hs' : s' = on_detection agent_id infection s).
  { unfold s', sentinel_iteration. rewrite Hnq, Hb, Hr, Hinf. simpl.
    rewrite (proj2 (mem_false _ _)); [done|].
    intros Hin. apply Hfresh, owner_parts. auto. }
  destruct (inv_log _ HI) as [Hlr Hlm Hll]. fold s in Hlr, Hlm, Hll.
  destruct (Qle_bool SEVERITY_REQUIRING_APPROVAL (severity infection)) eqn:Hsev;
    rewrite Hs'.
  - rewrite on_detection_severe_pending, on_detection_severe_tasks,
      on_detection_severe_log, on_detection_healing_in_progress, Hlm by done.
    split_and!; try done.
    + apply get_set_eq.
    + apply last_slice_last_snoc. lia.
  - destruct (on_detection_mild agent_id infection s Hsev)
      as (HP & HT & Hh & Hl & _).
    rewrite HP, HT. unfold healing_action_log. rewrite Hh, Hl.
    split_and!; try done.
    apply mem_false. intros Hin. apply Hfresh, owner_parts. auto.
Qed.

(** *** Reading the action log *)

(** an append to the log leaves every other list object as it is *)
Lemma log_action_other_objects ty a kw (s : State) r :
  r < length (heap s) → r ≠ _healing_action_log s →
  PyList.deref (heap (_log_action ty a kw s)) r = PyList.deref (heap s) r.
Proof.
  intros Hr Hne. destruct s. rewrite log_action_mkState. simpl in *.
  case_bool_decide.
  - unfold PyList.deref at 1.
    rewrite lookup_app_l by by rewrite length_append.
    fold (PyList.deref (PyList.append _healing_action_log0
            (entry_of time_reads0 (ty, a, kw)) heap0) r).
    by rewrite deref_append_ne.
  - by rewrite deref_append_ne.
Qed.

(** C10: [get_healing_actions] returns a new list object holding the newest
    [min (length of the log) 50] entries in their order, 50 being below the
    cap of 80 under which the log is kept; the log object, every other list
    object and every attribute stay as they were, and later appends to the
    log do not show in the list returned. *)
Theorem get_healing_actions_copies_newest_50 (s : State) :
  LogInv s →
  let r := (get_healing_actions s).1 in
  let s' := (get_healing_actions s).2 in
  PyList.deref (heap s') r
    = drop (length (healing_action_log s) - 50) (healing_action_log s) ∧
  length (PyList.deref (heap s') r) = min (length (healing_action_log s)) 50 ∧
  50 < _action_log_max s ∧
  length (healing_action_log s) ≤ _action_log_max s ∧
  length (heap s) ≤ r ∧
  r ≠ _healing_action_log s' ∧
  healing_action_log s' = healing_action_log s ∧
  (∀ r0, r0 < length (heap s) →
         PyList.deref (heap s') r0 = PyList.deref (heap s) r0) ∧
  s' = set_heap (λ _, heap s') s ∧
  (∀ ty a kw,
     PyList.deref (heap (_log_action ty a kw s')) r = PyList.deref (heap s') r).
Proof.
  intros [Hr Hm Hl] r s'.
  assert (Hrr : r = S (length (heap s))).
  { unfold r. destruct s. simpl. rewrite length_app. simpl. lia. }
  assert (Hh : heap s' = heap s ++
            [PyList.slice_last 50 (healing_action_log s)] ++
            [PyList.slice_last 50 (healing_action_log s)]).
  { unfold s'. destruct s. unfold healing_action_log. simpl.
    rewrite <- app_assoc. simpl. do 3 f_equal.
    unfold PyList.deref. by rewrite list_lookup_middle. }
  assert (Hrf : _healing_action_log s' = _healing_action_log s)
    by by destruct s.
  assert (Hd : PyList.deref (heap s') r
               = PyList.slice_last 50 (healing_action_log s)).
  { rewrite Hh, Hrr. unfold PyList.deref.
    rewrite app_assoc, list_lookup_middle; [done|].
    rewrite length_app. simpl. lia. }
  assert (Hold : ∀ r0, r0 < length (heap s) →
            PyList.deref (heap s') r0 = PyList.deref (heap s) r0).
  { intros r0 Hr0. rewrite Hh. unfold PyList.deref. by rewrite lookup_app_l. }
  split_and!.
  - by rewrite Hd.
  - rewrite Hd, length_slice_last; lia.
  - lia.
  - lia.
  - lia.
  - rewrite Hrf. lia.
  - unfold healing_action_log. rewrite Hrf. by apply Hold.
  - done.
  - by destruct s.
  - intros ty a kw. apply log_action_other_objects.
    + rewrite Hh, !length_app. simpl. lia.
    + rewrite Hrf. lia.
Qed.

(** *** Exhaustion *)

(** C5 (as the code has it): when no policy action is left outside the
    known-failed set, the resumption logs one error-level record, takes the
    agent out of the quarantine set and calls [release] on it, which keeps
    the infection and sets the status after it ([INFECTED] for an infected
    agent); it records nothing in the immune memory, appends nothing to the
    action log, changes none of the three counters (failed attempts were
    counted when they failed), and the task ends, leaving
    [healing_in_progress]. *)
Theorem exhaustion_releases_unhealed result t (s : State) diagnosis failed_actions :
  h_point t = at_sleep2 diagnosis failed_actions →
  Healer.get_next_action get_healing_policy (diagnosis_type diagnosis)
    failed_actions = None →
  let s' := (heal_step result t s).1 in
  (heal_step result t s).2 = None ∧
  log_records s' = log_records s ++
    [{| level := ERROR; fmt := "All healing actions exhausted for %s";
        about := h_agent_id t |}] ∧
  QuarantineController.is_quarantined (h_agent_id t) (quarantine s') = false ∧
  PyDict.get (h_agent_id t) (agents s')
    = Agent.release <$> PyDict.get (h_agent_id t) (agents s) ∧
  (∀ a, Agent.infected (Agent.release a) = Agent.infected a ∧
        Agent.infection_type (Agent.release a) = Agent.infection_type a ∧
        Agent.status (Agent.release a)
          = if Agent.infected a then Agent.INFECTED else Agent.HEALTHY) ∧
  immune_memory s' = immune_memory s ∧
  heap s' = heap s ∧ _healing_action_log s' = _healing_action_log s ∧
  total_failed_healings s' = total_failed_healings s ∧
  total_healed s' = total_healed s ∧
  total_infections s' = total_infections s ∧
  (h_agent_id t ∉ healing_in_progress s') ∧
  tasks s' = tasks s.
Proof.
  intros Hp Hnone s'. unfold s', heal_step. rewrite Hp, Hnone.
  destruct s. simpl. split_and!; try done.
  - apply bool_decide_eq_false. set_solver.
  - apply get_update_eq.
  - intros a. by destruct a as [? ? ? ? [] ?].
  - rewrite iter_discard. set_solver.
Qed.

(** *** One episode, resumption by resumption *)

Lemma first_not_failed_head (policy : list HealingAction) F :
  Healer.first_not_failed policy F = head (filter (λ a, a ∉ F) policy).
Proof.
  induction policy as [|a policy IH]; simpl; [done|].
  destruct (decide (a ∈ F)).
  - by rewrite filter_cons_False by (intros ?; done).
  - by rewrite filter_cons_True.
Qed.

Lemma get_failed_actions_record aid (dt : DiagnosisType) (act : HealingAction) m :
  ImmuneMemory.get_failed_actions aid dt
    (ImmuneMemory.record_healing aid dt act false m)
  = ImmuneMemory.get_failed_actions aid dt m ∪ {[act]}.
Proof.
  unfold ImmuneMemory.get_failed_actions, ImmuneMemory.record_healing.
  rewrite List.filter_app, fmap_app, list_to_set_app_L. simpl.
  unfold ImmuneMemory.is_failure_of. simpl.
  rewrite !bool_decide_eq_true_2 by done. simpl.
  apply set_eq. intros x. set_solver.
Qed.

Lemma filter_ne_absent (l : list HealingAction) x :
  x ∉ l → filter (λ a, a ≠ x) l = l.
Proof.
  induction l as [|a l IH]; [done|]. rewrite not_elem_of_cons. intros [Hne Hn].
  rewrite filter_cons_True by done. by rewrite IH.
Qed.

Lemma filter_after_failure (policy : list HealingAction)
    (F : gset HealingAction) act rest :
  NoDup policy →
  filter (λ a, a ∉ F) policy = act :: rest →
  filter (λ a, a ∉ F ∪ {[act]}) policy = rest.
Proof.
  intros Hnd Hf.
  assert (Hnd' : NoDup (act :: rest)) by (rewrite <- Hf; by apply NoDup_filter).
  apply NoDup_cons in Hnd' as [Hact _].
  assert (Heq : filter (λ a, a ∉ F ∪ {[act]}) policy
                = filter (λ a, a ≠ act) (filter (λ a, a ∉ F) policy)).
  { clear. induction policy as [|a policy IH]; [done|].
    destruct (decide (a ∈ F)) as [HF|HF].
    - rewrite (filter_cons_False (λ a, a ∉ F)) by (intros ?; done).
      rewrite filter_cons_False by set_solver. done.
    - rewrite (filter_cons_True (λ a, a ∉ F)) by done.
      destruct (decide (a = act)) as [->|Hne].
      + rewrite !filter_cons_False by set_solver. done.
      + rewrite !filter_cons_True by set_solver. by rewrite IH. }
  rewrite Heq, Hf, filter_cons_False by (intros ?; done).
  by apply filter_ne_absent.
Qed.

Lemma run_chain_S fuel answer t (s : State) :
  run_chain (S fuel) answer t s
  = match heal_step (match h_point t with
                     | at_apply _ next_action => answer next_action
                     | _ => no_result
                     end) t s with
    | (s', None) => Some (attempted t, s')
    | (s', Some t') =>
        match run_chain fuel answer t' s' with
        | Some (acts, s'') => Some (attempted t ++ acts, s'')
        | None => None
        end
    end.
Proof. done. Qed.

Lemma run_chain_step fuel answer t (s : State) result s' ot :
  result = match h_point t with
           | at_apply _ next_action => answer next_action
           | _ => no_result
           end →
  heal_step result t s = (s', ot) →
  run_chain (S fuel) answer t s
  = match ot with
    | None => Some (attempted t, s')
    | Some t' =>
        match run_chain fuel answer t' s' with
        | Some (acts, s'') => Some (attempted t ++ acts, s'')
        | None => None
        end
    end.
Proof. intros -> Hs. rewrite run_chain_S, Hs. done. Qed.

Lemma run_chain_sleep3 fuel answer t (s : State) :
  h_point t = at_sleep3 →
  run_chain fuel answer t s = run_chain fuel answer (recurse t) s.
Proof.
  intros Hp. destruct fuel; [done|]. rewrite !run_chain_S.
  unfold heal_step, attempted. rewrite Hp. done.
Qed.

Lemma heal_enter_found t (s : State) agent :
  PyDict.get (h_agent_id t) (agents s) = Some agent →
  ∃ s1,
    heal_enter t s
    = (s1, Some (with_point t (at_sleep1
         (diagnose (h_infection t) (get_baseline (h_agent_id t)))))) ∧
    summary s1
    = (agents s, quarantine s, immune_memory s, total_failed_healings s,
       total_healed s, {[h_agent_id t]} ∪ healing_in_progress s).
Proof.
  intros Hg. unfold heal_enter. destruct s. simpl in *. rewrite Hg.
  by eexists.
Qed.

Lemma heal_step_sleep1 result t (s : State) dg :
  h_point t = at_sleep1 dg →
  ∃ s2,
    heal_step result t s
    = (s2, Some (with_point t (at_sleep2 dg
         (ImmuneMemory.get_failed_actions (h_agent_id t) (diagnosis_type dg)
            (immune_memory s))))) ∧
    summary s2 = summary s.
Proof.
  intros Hp. unfold heal_step. rewrite Hp. destruct s. simpl.
  case_decide; by eexists.
Qed.

Lemma heal_step_sleep2 result t (s : State) dg failed act :
  h_point t = at_sleep2 dg failed →
  Healer.get_next_action get_healing_policy (diagnosis_type dg) failed
    = Some act →
  ∃ s3,
    heal_step result t s = (s3, Some (with_point t (at_apply dg act))) ∧
    summary s3 = summary s.
Proof.
  intros Hp Hn. unfold heal_step. rewrite Hp, Hn. destruct s. by eexists.
Qed.

Lemma update_apply_healing_failed result k (d : list (string * Agent.BaseAgent)) :
  Healer.validation_passed result = false →
  PyDict.update (Healer.apply_healing result) k d = d.
Proof.
  intros _. unfold Healer.apply_healing. apply update_id.
Qed.

Lemma heal_step_apply_failed result t (s : State) dg act :
  h_point t = at_apply dg act →
  Healer.validation_passed result = false →
  ∃ s4,
    heal_step result t s = (s4, Some (with_point t at_sleep3)) ∧
    summary s4
    = (agents s, quarantine s,
       ImmuneMemory.record_healing (h_agent_id t) (diagnosis_type dg) act false
         (immune_memory s),
       S (total_failed_healings s), total_healed s, healing_in_progress s).
Proof.
  intros Hp Hf. unfold heal_step. rewrite Hp, Hf. destruct s. crunch.
  rewrite update_apply_healing_failed by done. by eexists.
Qed.

Lemma heal_step_exhausted result t (s : State) dg failed :
  h_point t = at_sleep2 dg failed →
  Healer.get_next_action get_healing_policy (diagnosis_type dg) failed = None →
  ∃ s',
    heal_step result t s = (s', None) ∧
    summary s'
    = (PyDict.update Agent.release (h_agent_id t) (agents s),
       QuarantineController.release (h_agent_id t) (quarantine s),
       immune_memory s, total_failed_healings s, total_healed s,
       healing_in_progress s ∖ {[h_agent_id t]}).
Proof.
  intros Hp Hn. unfold heal_step. rewrite Hp, Hn. destruct s. simpl.
  eexists. split; [done|]. unfold summary. simpl. by rewrite iter_discard.
Qed.

(** an episode in which every applied action fails tries the policy actions
    that are not yet known to have failed, each once and in policy order,
    and then gives up *)
Lemma episode_all_fail todo : ∀ fuel answer t (s : State) agent,
  always_fails answer →
  h_point t = at_start →
  PyDict.get (h_agent_id t) (agents s) = Some agent →
  NoDup (get_healing_policy (diagnosis_type
           (diagnose (h_infection t) (get_baseline (h_agent_id t))))) →
  filter (λ a, a ∉ ImmuneMemory.get_failed_actions (h_agent_id t)
                     (diagnosis_type
                        (diagnose (h_infection t) (get_baseline (h_agent_id t))))
                     (immune_memory s))
    (get_healing_policy (diagnosis_type
       (diagnose (h_infection t) (get_baseline (h_agent_id t))))) = todo →
  4 * length todo + 3 ≤ fuel →
  ∃ s', run_chain fuel answer t s = Some (todo, s') ∧
    agents s' = PyDict.update Agent.release (h_agent_id t) (agents s) ∧
    quarantine s' = QuarantineController.release (h_agent_id t) (quarantine s) ∧
    total_failed_healings s' = total_failed_healings s + length todo ∧
    total_healed s' = total_healed s ∧
    healing_in_progress s' = healing_in_progress s ∖ {[h_agent_id t]} ∧
    ImmuneMemory.get_failed_actions (h_agent_id t)
      (diagnosis_type (diagnose (h_infection t) (get_baseline (h_agent_id t))))
      (immune_memory s')
    = ImmuneMemory.get_failed_actions (h_agent_id t)
        (diagnosis_type (diagnose (h_infection t) (get_baseline (h_agent_id t))))
        (immune_memory s) ∪ list_to_set todo.
Proof.
  induction todo as [|act rest IH]; intros fuel answer t s agent Hfail Hp Hg Hnd Hf Hfuel.
  - destruct fuel as [|[|[|fuel]]]; [simpl in Hfuel; lia..|].
    destruct (heal_enter_found t s agent Hg) as (s1 & He & Hs1).
    injection Hs1 as Ha1 Hq1 Hm1 Hf1 Hh1 Hp1.
    set (dg := diagnose (h_infection t) (get_baseline (h_agent_id t))) in *.
    set (t1 := with_point t (at_sleep1 dg)) in *.
    destruct (heal_step_sleep1 no_result t1 s1 dg eq_refl) as (s2 & H2 & Hs2).
    injection Hs2 as Ha2 Hq2 Hm2 Hf2 Hh2 Hp2.
    set (t2 := with_point t1 _) in *.
    destruct (heal_step_exhausted no_result t2 s2 dg _ eq_refl) as (s' & H3 & Hs3).
    { unfold Healer.get_next_action. rewrite first_not_failed_head. simpl.
      rewrite Hm1, Hf. done. }
    injection Hs3 as Ha3 Hq3 Hm3 Hf3 Hh3 Hp3.
    assert (He' : heal_step no_result t s = (s1, Some t1)).
    { unfold heal_step. by rewrite Hp. }
    exists s'. split_and!.
    + rewrite (run_chain_step _ answer t s no_result s1 (Some t1));
        [|by rewrite Hp|done].
      rewrite (run_chain_step _ _ t1 s1 no_result _ _ eq_refl H2).
      rewrite (run_chain_step _ _ t2 s2 no_result _ _ eq_refl H3).
      unfold attempted. by rewrite Hp.
    + rewrite Ha3, Ha2, Ha1. done.
    + rewrite Hq3, Hq2, Hq1. done.
    + rewrite Hf3, Hf2, Hf1. simpl. lia.
    + congruence.
    + rewrite Hp3, Hp2, Hp1. set_solver.
    + rewrite Hm3, Hm2, Hm1. set_solver.
  - simpl in Hfuel.
    destruct fuel as [|[|[|[|fuel]]]]; [lia..|].
    destruct (heal_enter_found t s agent Hg) as (s1 & He & Hs1).
    injection Hs1 as Ha1 Hq1 Hm1 Hf1 Hh1 Hp1.
    set (dg := diagnose (h_infection t) (get_baseline (h_agent_id t))) in *.
    set (t1 := with_point t (at_sleep1 dg)) in *.
    destruct (heal_step_sleep1 no_result t1 s1 dg eq_refl) as (s2 & H2 & Hs2).
    injection Hs2 as Ha2 Hq2 Hm2 Hf2 Hh2 Hp2.
    set (t2 := with_point t1 _) in *.
    destruct (heal_step_sleep2 no_result t2 s2 dg _ act eq_refl) as (s3 & H3 & Hs3).
    { unfold Healer.get_next_action. rewrite first_not_failed_head. simpl.
      rewrite Hm1, Hf. done. }
    injection Hs3 as Ha3 Hq3 Hm3 Hf3 Hh3 Hp3.
    set (t3 := with_point t2 _) in *.
    destruct (heal_step_apply_failed (answer act) t3 s3 dg act eq_refl (Hfail act))
      as (s4 & H4 & Hs4).
    injection Hs4 as Ha4 Hq4 Hm4 Hf4 Hh4 Hp4.
    assert (He' : heal_step no_result t s = (s1, Some t1)).
    { unfold heal_step. by rewrite Hp. }
    destruct (IH fuel answer (recurse t) s4 agent)
      as (s' & Hrun & HA & HQ & HF & HH & HP & HM); try done.
    { change (h_agent_id (recurse t)) with (h_agent_id t). congruence. }
    { change (h_agent_id (recurse t)) with (h_agent_id t).
      change (h_infection (recurse t)) with (h_infection t). fold dg.
      change (h_agent_id t3) with (h_agent_id t) in Hm4.
      rewrite Hm4, Hm3, Hm2, Hm1, get_failed_actions_record.
      by apply filter_after_failure. }
    { lia. }
    change (h_agent_id (recurse t)) with (h_agent_id t) in *.
    change (h_infection (recurse t)) with (h_infection t) in *.
    change (h_agent_id t3) with (h_agent_id t) in *.
    fold dg in HM.
    exists s'. split_and!.
    + rewrite (run_chain_step _ answer t s no_result s1 (Some t1));
        [|by rewrite Hp|done].
      rewrite (run_chain_step _ _ t1 s1 no_result _ _ eq_refl H2).
      rewrite (run_chain_step _ _ t2 s2 no_result _ _ eq_refl H3).
      rewrite (run_chain_step _ _ t3 s3 (answer act) _ _ eq_refl H4).
      rewrite (run_chain_sleep3 fuel answer (with_point t3 at_sleep3) s4 eq_refl).
      change (recurse (with_point t3 at_sleep3)) with (recurse t).
      rewrite Hrun. unfold attempted. by rewrite Hp.
    + rewrite HA, Ha4, Ha3, Ha2, Ha1. done.
    + rewrite HQ, Hq4, Hq3, Hq2, Hq1. done.
    + rewrite HF, Hf4, Hf3, Hf2, Hf1. simpl. lia.
    + congruence.
    + rewrite HP, Hp4, Hp3, Hp2, Hp1. set_solver.
    + rewrite HM, Hm4, Hm3, Hm2, Hm1, get_failed_actions_record. set_solver.
Qed.

(** C4 (as the code has it): for a fault category whose policy has N
    pairwise distinct actions, none of them yet recorded as failed for this
    agent and category when the episode starts, an episode in which every
    applied action fails performs exactly N attempts: the policy actions, in
    policy order, each once.  It then gives up: the agent leaves the
    quarantine and [healing_in_progress] as infected as it was, N failures
    are counted, and every policy action is now known to have failed. *)
Theorem escalation_tries_each_action_once fuel answer agent_id infection trigger
    (s : State) agent :
  let dt := diagnosis_type (diagnose infection (get_baseline agent_id)) in
  let policy := get_healing_policy dt in
  always_fails answer →
  PyDict.get agent_id (agents s) = Some agent →
  NoDup policy →
  Forall (λ a, a ∉ ImmuneMemory.get_failed_actions agent_id dt (immune_memory s))
    policy →
  4 * length policy + 3 ≤ fuel →
  ∃ s', run_chain fuel answer (new_task agent_id infection trigger) s
          = Some (policy, s') ∧
    total_failed_healings s' = total_failed_healings s + length policy ∧
    total_healed s' = total_healed s ∧
    QuarantineController.is_quarantined agent_id (quarantine s') = false ∧
    PyDict.get agent_id (agents s') = Some (Agent.release agent) ∧
    Agent.infected (Agent.release agent) = Agent.infected agent ∧
    (agent_id ∉ healing_in_progress s') ∧
    Forall (λ a, a ∈ ImmuneMemory.get_failed_actions agent_id dt (immune_memory s'))
      policy.
Proof.
  intros dt policy Hfail Hg Hnd Hfresh Hfuel.
  assert (Hf : filter (λ a, a ∉ ImmuneMemory.get_failed_actions agent_id dt
                               (immune_memory s)) policy = policy).
  { clear -Hfresh. induction Hfresh as [|a l Ha _ IH]; [done|].
    rewrite filter_cons_True by done. by rewrite IH. }
  destruct (episode_all_fail policy fuel answer
              (new_task agent_id infection trigger) s agent)
    as (s' & Hrun & HA & HQ & HF & HH & HP & HM); try done.
  exists s'. simpl in *. split_and!; try done.
  - rewrite HQ. apply bool_decide_eq_false. simpl. set_solver.
  - by rewrite HA, get_update_eq, Hg.
  - rewrite HP. set_solver.
  - apply Forall_forall. intros a Ha. fold dt in HM. rewrite HM. set_solver.
Qed.
End orchestrator_facts.

(** * The statements on the small fleet *)

Section fleet.
Import Demo.
#[local] Existing Instance Demo.collaborators.

(** severity 7.5 on VPN, from the initial state: a pending entry, no task *)
Lemma severity_routing_witness :
  reachable fleet sys0 ∧
  QuarantineController.is_quarantined "VPN" (quarantine (orch sys0)) = false ∧
  PyDict.get "VPN" (_pending_approvals (orch sys_pending))
    = Some {| p_infection := severe "VPN";
              p_diagnosis := diagnose (severe "VPN") tt;
              requested_at := clk 1 |} ∧
  tasks (orch sys_pending) = tasks (orch sys0) ∧
  healing_in_progress (orch sys_pending) = healing_in_progress (orch sys0).
Proof.
  split; [apply reach_init|]. split; [reflexivity|].
  pose proof (severity_routing fleet sys0 "VPN" (sighting (severe "VPN"))
                (severe "VPN") (reach_init _) eq_refl eq_refl eq_refl eq_refl)
    as H.
  cbv zeta in H. change (Qle_bool _ _) with true in H. cbv iota in H.
  destruct H as (H1 & _ & _ & H4 & H5). split_and!; assumption.
Defined.

(** the sweep queues a task for Docker, and the task runs to its first
    [await] *)
Lemma sys_healing_reachable : reachable fleet sys_healing.
Proof.
  eapply reach_step; [eapply reach_step; [apply reach_init|]|].
  - apply (step_sweep sys0 "Docker" (sighting (mild "Docker"))).
    apply (bool_decide_unpack _). vm_compute. exact I.
  - apply (step_task sys_queued 0 docker_task no_result). reflexivity.
Defined.

(** VPN is detected as severe and the user rejects the healing *)
Lemma sys_rejected_reachable : reachable fleet sys_rejected.
Proof.
  eapply reach_step; [eapply reach_step; [apply reach_init|]|].
  - apply (step_sweep sys0 "VPN" (sighting (severe "VPN"))).
    apply (bool_decide_unpack _). vm_compute. exact I.
  - apply (step_approve sys_pending "VPN" false).
Defined.

(** ... which leaves VPN rejected, not pending, and quarantined *)
Lemma pending_and_rejected_witness :
  reachable fleet sys_rejected ∧
  ¬ ("VPN" ∈ PyDict.keys (_pending_approvals (orch sys_rejected)) ∧
     "VPN" ∈ PyDict.keys (_rejected_approvals (orch sys_rejected))) ∧
  ("VPN" ∈ PyDict.keys (_pending_approvals (orch sys_rejected)) ∨
   "VPN" ∈ PyDict.keys (_rejected_approvals (orch sys_rejected)) →
   QuarantineController.is_quarantined "VPN" (quarantine (orch sys_rejected))
     = true).
Proof.
  split; [apply sys_rejected_reachable|].
  apply (pending_and_rejected_exclusive_and_quarantined fleet sys_rejected "VPN"
           sys_rejected_reachable).
Defined.

(** nothing is pending or rejected in the initial state *)
Lemma workflow_misuse_witness :
  PyDict.mem "VPN" (_pending_approvals s0) = false ∧
  PyDict.mem "Docker" (_rejected_approvals s0) = false ∧
  approve_healing "VPN" true s0 = ((None, false), s0) ∧
  start_healing_explicitly "Docker" s0 = (None, s0).
Proof.
  split; [reflexivity|]. split; [reflexivity|].
  apply (workflow_misuse_is_a_no_op s0 "VPN" "Docker" true); reflexivity.
Defined.

(** three pending entries, all approved at once *)
Lemma approve_all_pending_witness :
  NoDup (PyDict.keys (_pending_approvals s_pending3)) ∧
  length (_pending_approvals s_pending3) = 3 ∧
  approve_all_pending true s_pending3
    = approve_all_by_single_calls true s_pending3 ∧
  (approve_all_pending true s_pending3).1
    = [("VPN", severe "VPN"); ("Docker", severe "Docker");
       ("Slack", severe "Slack")] ∧
  length (approve_all_pending true s_pending3).1 = 3 ∧
  _pending_approvals (approve_all_pending true s_pending3).2 = [].
Proof.
  assert (Hnd : NoDup (PyDict.keys (_pending_approvals s_pending3))).
  { apply (bool_decide_unpack _). vm_compute. exact I. }
  split; [exact Hnd|]. split; [reflexivity|].
  destruct (approve_all_pending_is_single_calls s_pending3 true Hnd)
    as (H1 & H2 & H3 & H4).
  split_and!; [exact H1 | rewrite H2; reflexivity | rewrite H3; reflexivity
              | exact H4].
Defined.

(** the rejected VPN is not detected again *)
Lemma rejected_agent_witness :
  PyDict.mem "VPN" (_rejected_approvals (orch sys_rejected)) = true ∧
  sentinel_iteration "VPN" (sighting (severe "VPN")) (orch sys_rejected)
    = orch sys_rejected ∧
  PyDict.mem "VPN"
    (_rejected_approvals (start_healing_explicitly "VPN" (orch sys_rejected)).2)
    = false.
Proof.
  assert (Hr : PyDict.mem "VPN" (_rejected_approvals (orch sys_rejected)) = true)
    by (vm_compute; reflexivity).
  split; [exact Hr|].
  destruct (rejected_agent_is_not_detected_again (orch sys_rejected) "VPN" Hr)
    as (H1 & _ & H3).
  split; [apply H1 | exact H3].
Defined.

(** a hundred appends: eighty entries kept, fifty handed out *)
Lemma get_healing_actions_witness :
  LogInv s_logged ∧
  length (healing_action_log s_logged) = 80 ∧
  length (PyList.deref (heap (get_healing_actions s_logged).2)
            (get_healing_actions s_logged).1) = 50 ∧
  healing_action_log (get_healing_actions s_logged).2 = healing_action_log s_logged.
Proof.
  assert (Hl : LogInv s_logged).
  { split; vm_compute; lia. }
  split; [exact Hl|]. split; [vm_compute; reflexivity|].
  destruct (get_healing_actions_copies_newest_50 s_logged Hl)
    as (_ & H2 & _ & _ & _ & _ & H7 & _).
  split; [rewrite H2; vm_compute; reflexivity | exact H7].
Defined.

(** both actions are known to have failed: the task gives up *)
Lemma exhaustion_witness :
  h_point exhausted_task
    = at_sleep2 (diagnose (mild "VPN") tt) (list_to_set ["first"; "second"]) ∧
  Healer.get_next_action get_healing_policy
    (diagnosis_type (diagnose (mild "VPN") tt))
    (list_to_set ["first"; "second"]) = None ∧
  (heal_step no_result exhausted_task s_mild).2 = None ∧
  QuarantineController.is_quarantined "VPN"
    (quarantine (heal_step no_result exhausted_task s_mild).1) = false ∧
  total_failed_healings (heal_step no_result exhausted_task s_mild).1
    = total_failed_healings s_mild.
Proof.
  split; [reflexivity|].
  assert (Hn : Healer.get_next_action get_healing_policy
                 (diagnosis_type (diagnose (mild "VPN") tt))
                 (list_to_set ["first"; "second"]) = None)
    by (vm_compute; reflexivity).
  split; [exact Hn|].
  destruct (exhaustion_releases_unhealed no_result exhausted_task s_mild _ _
              eq_refl Hn)
    as (H1 & _ & H3 & _ & _ & _ & _ & _ & H9 & _).
  split_and!; assumption.
Defined.

(** a first episode on VPN in which both actions fail *)
Lemma escalation_witness :
  always_fails fails ∧
  PyDict.get "VPN" (agents s_mild) = Some (Agent.quarantine vpn) ∧
  NoDup (get_healing_policy (diagnosis_type (diagnose (mild "VPN") tt))) ∧
  Forall (λ a, a ∉ ImmuneMemory.get_failed_actions "VPN"
                     (diagnosis_type (diagnose (mild "VPN") tt))
                     (immune_memory s_mild))
    (get_healing_policy (diagnosis_type (diagnose (mild "VPN") tt))) ∧
  4 * 2 + 3 ≤ 11 ∧
  ∃ s', run_chain 11 fails vpn_task s_mild = Some (["first"; "second"], s') ∧
        total_failed_healings s' = total_failed_healings s_mild + 2 ∧
        QuarantineController.is_quarantined "VPN" (quarantine s') = false.
Proof.
  assert (H1 : always_fails fails) by (intros a; reflexivity).
  assert (H2 : PyDict.get "VPN" (agents s_mild) = Some (Agent.quarantine vpn))
    by (vm_compute; reflexivity).
  assert (H3 : NoDup (get_healing_policy
                        (diagnosis_type (diagnose (mild "VPN") tt)))).
  { apply (bool_decide_unpack _). vm_compute. exact I. }
  assert (H4 : Forall (λ a, a ∉ ImmuneMemory.get_failed_actions "VPN"
                     (diagnosis_type (diagnose (mild "VPN") tt))
                     (immune_memory s_mild))
                 (get_healing_policy (diagnosis_type (diagnose (mild "VPN") tt)))).
  { apply (bool_decide_unpack _). vm_compute. exact I. }
  assert (H5 : 4 * 2 + 3 ≤ 11) by lia.
  split_and!; try assumption.
  destruct (@escalation_tries_each_action_once Demo.collaborators 11 fails
              "VPN" (mild "VPN") "auto" s_mild (Agent.quarantine vpn)
              H1 H2 H3 H4 H5)
    as (s' & Hrun & Hf & _ & Hq & _).
  exists s'. split_and!; assumption.
Defined.

(** A policy of two actions, every applied action failing, and yet a single
    attempt: [first] failed in an earlier episode of the same agent and
    category, and the immune memory keeps it. *)
Lemma known_failure_is_not_tried_again :
  always_fails fails ∧
  length (get_healing_policy (diagnosis_type (diagnose (mild "VPN") tt))) = 2 ∧
  QuarantineController.is_quarantined "VPN" (quarantine s_infected_again) = true ∧
  run_chain 11 fails vpn_task s_infected_again
    = Some (["second"], after_episode 11 fails vpn_task s_infected_again) ∧
  length ["second"]
    ≠ length (get_healing_policy (diagnosis_type (diagnose (mild "VPN") tt))).
Proof.
  split; [intros a; reflexivity|]. split; [reflexivity|].
  split; [vm_compute; reflexivity|]. split; [vm_compute; reflexivity|].
  simpl. lia.
Qed.

(** An episode that is exhausted from the start (both actions failed in the
    episode before) ends with the failed-healing counter where it was: the
    exhaustion itself is counted nowhere. *)
Lemma exhausted_episode_is_not_counted :
  run_chain 11 fails vpn_task s_detected_again
    = Some ([], after_episode 11 fails vpn_task s_detected_again) ∧
  total_failed_healings (after_episode 11 fails vpn_task s_detected_again)
    = total_failed_healings s_detected_again ∧
  total_healed (after_episode 11 fails vpn_task s_detected_again)
    = total_healed s_detected_again ∧
  QuarantineController.is_quarantined "VPN"
    (quarantine (after_episode 11 fails vpn_task s_detected_again)) = false.
Proof. split_and!; vm_compute; reflexivity. Qed.

(** the other half of the severity scenario: 4.0 starts healing and leaves
    the pending-approval map empty *)
Example mild_detection_starts_healing :
  tasks (orch sys_queued) = [docker_task] ∧
  _pending_approvals (orch sys_queued) = [].
Proof. split; vm_compute; reflexivity. Qed.
End fleet.

(** * More of the agents and of the orchestrator *)

(** ** The knobs of an agent *)

Section agent_state_facts.
Import AgentState.

Lemma iter_rollback_frame n st :
  memory (Nat.iter n rollback_prompt st) = memory st ∧
  temperature (Nat.iter n rollback_prompt st) = temperature st ∧
  max_tools (Nat.iter n rollback_prompt st) = max_tools st.
Proof.
  induction n as [|n IH]; [done|]. rewrite Nat.iter_succ.
  unfold rollback_prompt at 1 3 5. by case_match.
Qed.

(** X1: from a prompt version of at least 1, [n] calls of
    [rollback_prompt] leave the version at [max 1 (version - n)]: it goes
    down one by one and stops at 1; nothing else changes. *)
Theorem rollback_prompt_stops_at_one (n : nat) (st : t) :
  (1 ≤ prompt_version st)%Z →
  prompt_version (Nat.iter n rollback_prompt st)
    = Z.max 1 (prompt_version st - Z.of_nat n) ∧
  memory (Nat.iter n rollback_prompt st) = memory st ∧
  temperature (Nat.iter n rollback_prompt st) = temperature st ∧
  max_tools (Nat.iter n rollback_prompt st) = max_tools st.
Proof.
  intros Hpv. split; [|apply iter_rollback_frame].
  induction n as [|n IH]; [simpl; lia|].
  rewrite Nat.iter_succ. unfold rollback_prompt at 1.
  destruct (Z.ltb_spec 1 (prompt_version (Nat.iter n rollback_prompt st)));
    simpl; lia.
Qed.

Lemma rollback_prompt_witness :
  let st := {| memory := []; prompt_version := 3; temperature := 7 # 10;
               max_tools := 5 |} in
  (1 ≤ prompt_version st)%Z ∧
  prompt_version (Nat.iter 5 rollback_prompt st) = 1%Z.
Proof.
  intros st. split; [simpl; lia|].
  apply (rollback_prompt_stops_at_one 5 st). simpl. lia.
Defined.

Lemma max_tenth_floor x : (1 # 10 <= max_tenth x)%Q.
Proof.
  unfold max_tenth. destruct (Qle_bool x (1 # 10)) eqn:E.
  - apply Qle_refl.
  - apply Qlt_le_weak, Qnot_le_lt. intros Hle.
    apply Qle_bool_iff in Hle. congruence.
Qed.

(** X2: after one or more calls of [reduce_autonomy] the temperature is at
    least 0.1 and the tool budget is [max 1 (budget - 2 * calls)], so at
    least 1, whatever the two were before; memory and prompt version are
    untouched; and once temperature 0.1 and budget 1 are reached a further
    call changes nothing. *)
Theorem reduce_autonomy_floors (n : nat) (st : t) :
  let st' := Nat.iter (S n) reduce_autonomy st in
  (1 # 10 <= temperature st')%Q ∧
  max_tools st' = Z.max 1 (max_tools st - 2 * Z.of_nat (S n)) ∧
  (1 ≤ max_tools st')%Z ∧
  memory st' = memory st ∧ prompt_version st' = prompt_version st ∧
  (temperature st' = 1 # 10 → max_tools st' = 1%Z →
   reduce_autonomy st' = st').
Proof.
  assert (Hmt : ∀ k, max_tools (Nat.iter (S k) reduce_autonomy st)
                     = Z.max 1 (max_tools st - 2 * Z.of_nat (S k))).
  { induction k as [|k IH]; [simpl; lia|].
    rewrite Nat.iter_succ. unfold reduce_autonomy at 1.
    cbn [max_tools]. rewrite IH. lia. }
  intros st'. split_and!.
  - apply max_tenth_floor.
  - apply Hmt.
  - unfold st'. rewrite Hmt. lia.
  - unfold st'. induction n as [|n IH]; [done|]. by rewrite Nat.iter_succ.
  - unfold st'. induction n as [|n IH]; [done|]. by rewrite Nat.iter_succ.
  - clearbody st'. destruct st' as [m p te mt].
    simpl. intros -> ->. done.
Qed.

Lemma reduce_autonomy_witness :
  let st' := Nat.iter 3 reduce_autonomy default in
  temperature st' = 1 # 10 ∧ max_tools st' = 1%Z ∧ reduce_autonomy st' = st'.
Proof.
  pose proof (reduce_autonomy_floors 2 default) as (_ & H2 & _ & _ & _ & H6).
  split_and!; [reflexivity | exact H2 | apply H6; reflexivity].
Defined.
End agent_state_facts.

(** ** Quarantine and release on the agent object *)

Section agent_facts.
Import Agent.

(** X3: [release] sets the status after the infection flag alone, so for an
    agent whose status agrees with its flag, [quarantine] followed by
    [release] gives the agent back as it was; an agent cured while in
    quarantine comes out healthy, one infected while in quarantine comes
    out infected. *)
Theorem quarantine_release_round_trip (a : BaseAgent) :
  status a = (if infected a then INFECTED else HEALTHY) →
  status (quarantine a) = QUARANTINED ∧
  release (quarantine a) = a ∧
  status (release (cure (quarantine a))) = HEALTHY ∧
  (∀ ty, status (release (infect ty (quarantine a))) = INFECTED).
Proof.
  destruct a as [i ty st n inf it]. simpl. intros ->.
  unfold release, quarantine. simpl. by destruct inf.
Qed.

Lemma quarantine_release_witness :
  release (quarantine Demo.vpn) = Demo.vpn.
Proof. apply (quarantine_release_round_trip Demo.vpn). reflexivity. Defined.
End agent_facts.

(** ** The agent pool *)

Section agent_pool_facts.
Import AgentPool.

(** a list repeated [k] times, read at an index: the list read at the index
    modulo its length *)
Lemma lookup_concat_replicate {A} (l : list A) k i :
  i < k * length l →
  concat (replicate k l) !! i = l !! (i mod length l).
Proof.
  revert i. induction k as [|k IH]; intros i Hi; [lia|].
  simpl in *. destruct (decide (i < length l)) as [Hlt|Hge].
  - by rewrite lookup_app_l, Nat.mod_small.
  - rewrite lookup_app_r, IH by lia. f_equal.
    replace i with ((i - length l) + 1 * length l) at 2 by lia.
    by rewrite Nat.Div0.mod_add.
Qed.

Lemma pool_names_lookup count i :
  i < count → pool_names count !! i = AGENT_NAMES !! (i mod length AGENT_NAMES).
Proof.
  intros Hi. unfold pool_names. rewrite lookup_take_lt by done.
  apply lookup_concat_replicate.
  pose proof (Nat.div_mod_eq count (length AGENT_NAMES)).
  pose proof (Nat.mod_upper_bound count (length AGENT_NAMES)).
  simpl in *. lia.
Qed.

Lemma pool_entry_Some count i :
  i < count →
  ∃ name agent_type model mcp,
    AGENT_NAMES !! (i mod 15) = Some name ∧
    agent_classes !! (i mod 4) = Some agent_type ∧
    MODELS !! (i mod 6) = Some model ∧
    MCP_SERVER_PRESETS !! (i mod 6) = Some mcp ∧
    pool_entry (pool_names count) i
    = Some {| agent := new_agent name agent_type; model_name := model;
              mcp_servers := mcp |}.
Proof.
  intros Hi.
  destruct (lookup_lt_is_Some_2 AGENT_NAMES (i mod 15)) as [name Hn].
  { apply Nat.mod_upper_bound. done. }
  destruct (lookup_lt_is_Some_2 agent_classes (i mod 4)) as [ty Ht].
  { apply Nat.mod_upper_bound. done. }
  destruct (lookup_lt_is_Some_2 MODELS (i mod 6)) as [model Hm].
  { apply Nat.mod_upper_bound. done. }
  destruct (lookup_lt_is_Some_2 MCP_SERVER_PRESETS (i mod 6)) as [mcp Hs].
  { apply Nat.mod_upper_bound. done. }
  exists name, ty, model, mcp. split_and!; try done.
  unfold pool_entry. rewrite pool_names_lookup by done.
  change (length agent_classes) with 4. change (length AGENT_NAMES) with 15.
  change (length MODELS) with 6. change (length MCP_SERVER_PRESETS) with 6.
  by rewrite Ht, Hn, Hm, Hs.
Qed.

Lemma create_agent_pool_total count : is_Some (create_agent_pool count).
Proof.
  apply mapM_is_Some, Forall_forall. intros i [_ Hi]%elem_of_seq.
  simpl in Hi. unfold compose.
  destruct (pool_entry_Some count i Hi) as (? & ? & ? & ? & _ & _ & _ & _ & ->).
  done.
Qed.

Lemma create_agent_pool_at count pool :
  create_agent_pool count = Some pool →
  length pool = count ∧
  ∀ i, i < count →
    ∃ p, pool !! i = Some p ∧
      AGENT_NAMES !! (i mod 15) = Some (Agent.agent_id (agent p)) ∧
      agent_classes !! (i mod 4) = Some (Agent.agent_type (agent p)) ∧
      MODELS !! (i mod 6) = Some (model_name p) ∧
      MCP_SERVER_PRESETS !! (i mod 6) = Some (mcp_servers p) ∧
      Agent.status (agent p) = Agent.HEALTHY ∧
      Agent.infected (agent p) = false.
Proof.
  intros E%mapM_Some. split.
  { apply Forall2_length in E. by rewrite length_seq in E. }
  intros i Hi.
  destruct (Forall2_lookup_l _ _ _ i i E) as (p & Hp & Hf).
  { by apply lookup_seq. }
  destruct (pool_entry_Some count i Hi)
    as (name & ty & model & mcp & Hn & Ht & Hm & Hs & He).
  rewrite He in Hf. injection Hf as <-. by exists
    {| agent := new_agent name ty; model_name := model; mcp_servers := mcp |}.
Qed.

(** X4: [create_agent_pool(count)] never runs out of names: it returns
    [count] agents, and the agent at index [i] is healthy and not infected,
    carries the name at index [i mod 15] of [AGENT_NAMES], the class at
    index [i mod 4], the model at index [i mod 6] and the server preset at
    index [i mod 6]; so two agents fifteen places apart have the same id. *)
Theorem create_agent_pool_cycles (count : nat) :
  ∃ pool,
    create_agent_pool count = Some pool ∧
    length pool = count ∧
    (∀ i, i < count →
      ∃ p, pool !! i = Some p ∧
        AGENT_NAMES !! (i mod 15) = Some (Agent.agent_id (agent p)) ∧
        agent_classes !! (i mod 4) = Some (Agent.agent_type (agent p)) ∧
        MODELS !! (i mod 6) = Some (model_name p) ∧
        MCP_SERVER_PRESETS !! (i mod 6) = Some (mcp_servers p) ∧
        Agent.status (agent p) = Agent.HEALTHY ∧
        Agent.infected (agent p) = false) ∧
    (∀ i p q, pool !! i = Some p → pool !! (i + 15) = Some q →
       Agent.agent_id (agent p) = Agent.agent_id (agent q)).
Proof.
  destruct (create_agent_pool_total count) as [pool E].
  destruct (create_agent_pool_at count pool E) as [Hlen Hat].
  exists pool. split_and!; try done.
  intros i p q Hp Hq.
  assert (Hi : i + 15 < count) by (rewrite <- Hlen; by eapply lookup_lt_Some).
  destruct (Hat i) as (p' & Hp' & Hn & _); [lia|].
  destruct (Hat (i + 15) Hi) as (q' & Hq' & Hn' & _).
  replace ((i + 15) mod 15) with (i mod 15) in Hn'
    by (replace (i + 15) with (i + 1 * 15) by lia; by rewrite Nat.Div0.mod_add).
  congruence.
Qed.

(** seventeen agents: the seventeenth is a second Docker *)
Lemma create_agent_pool_witness :
  ∃ pool p,
    create_agent_pool 17 = Some pool ∧ length pool = 17 ∧
    pool !! 16 = Some p ∧ Agent.agent_id (agent p) = "Docker".
Proof.
  destruct (create_agent_pool_cycles 17) as (pool & E & Hlen & Hat & _).
  destruct (Hat 16) as (p & Hp & Hn & _); [lia|].
  exists pool, p. split_and!; [exact E | exact Hlen | exact Hp |].
  change (Some "Docker" = Some (Agent.agent_id (agent p))) in Hn.
  injection Hn as <-. reflexivity.
Defined.
End agent_pool_facts.

(** ** More facts about dictionaries *)

Module PyDictMore.
Import PyDict PyDictFacts.
Section facts.
Context {K V : Type} `{EqDecision K}.
Implicit Types (d : list (K * V)).

Lemma keys_set_present k v d : k ∈ keys d → keys (set k v d) = keys d.
Proof.
  induction d as [|[k0 v0] d IH]; simpl; intros Hin.
  - by apply elem_of_nil in Hin.
  - change (keys ((k0, v0) :: d)) with (k0 :: keys d) in Hin.
    destruct (decide (k = k0)) as [->|Hne]; [done|].
    apply elem_of_cons in Hin as [?|Hin]; [done|].
    change (keys ((k0, v0) :: set k v d)) with (k0 :: keys (set k v d)).
    by rewrite IH.
Qed.

Lemma remove_set_absent k v d : k ∉ keys d → remove k (set k v d) = d.
Proof.
  intros Hn. rewrite set_absent by done.
  induction d as [|[k0 v0] d IH]; simpl.
  - by rewrite decide_True.
  - change (keys ((k0, v0) :: d)) with (k0 :: keys d) in Hn.
    apply not_elem_of_cons in Hn as [Hne Hn].
    rewrite decide_False by done. by rewrite IH.
Qed.

Lemma remove_head k v d : k ∉ keys d → remove k ((k, v) :: d) = d.
Proof. intros Hn. simpl. rewrite decide_True by done. by apply remove_absent. Qed.

(** a dictionary comprehension [{f(x): x for x in l}], continued from [d] *)
Lemma get_comprehension (f : V → K) (l : list V) k d :
  get k (foldl (λ d x, set (f x) x d) d l)
  = match last (filter (λ x, f x = k) l) with
    | Some x => Some x
    | None => get k d
    end.
Proof.
  revert d. induction l as [|x l IH]; intros d; [done|].
  simpl. rewrite IH. destruct (decide (f x = k)) as [Hk|Hk].
  - rewrite filter_cons_True by done.
    destruct (filter (λ x, f x = k) l) as [|y m] eqn:E.
    + simpl. by rewrite <- Hk, get_set_eq.
    + change (last (x :: y :: m)) with (last (y :: m)).
      destruct (last (y :: m)) eqn:E'; [done|].
      by apply last_None in E'.
  - rewrite filter_cons_False by done. by rewrite get_set_ne.
Qed.

Lemma elem_of_keys_comprehension (f : V → K) (l : list V) k d :
  k ∈ keys (foldl (λ d x, set (f x) x d) d l) ↔ k ∈ f <$> l ∨ k ∈ keys d.
Proof.
  revert d. induction l as [|x l IH]; intros d; simpl.
  - rewrite elem_of_nil. tauto.
  - rewrite IH, elem_of_keys_set, elem_of_cons. tauto.
Qed.

Lemma NoDup_keys_comprehension (f : V → K) (l : list V) d :
  NoDup (keys d) → NoDup (keys (foldl (λ d x, set (f x) x d) d l)).
Proof.
  revert d. induction l as [|x l IH]; intros d Hd; [done|].
  simpl. by apply IH, NoDup_keys_set.
Qed.

Lemma comprehension_distinct (f : V → K) (l : list V) d :
  NoDup (f <$> l) → (∀ x, x ∈ l → f x ∉ keys d) →
  foldl (λ d x, set (f x) x d) d l = d ++ ((λ x, (f x, x)) <$> l).
Proof.
  revert d. induction l as [|x l IH]; intros d Hnd Hdis; simpl.
  - by rewrite app_nil_r.
  - rewrite fmap_cons in Hnd. apply NoDup_cons in Hnd as [Hx Hnd].
    rewrite set_absent by (apply Hdis; left).
    rewrite IH; [by rewrite <- app_assoc | done |].
    intros y Hy. unfold keys. rewrite fmap_app, elem_of_app. simpl.
    intros [Hin|Hin].
    + apply (Hdis y); [by right | done].
    + apply list_elem_of_singleton in Hin. apply Hx. rewrite <- Hin.
      by apply list_elem_of_fmap_2.
Qed.

Lemma keys_comprehension_known (f : V → K) (l : list V) d :
  (∀ x, x ∈ l → f x ∈ keys d) →
  keys (foldl (λ d x, set (f x) x d) d l) = keys d.
Proof.
  revert d. induction l as [|x l IH]; intros d Hin; [done|].
  simpl. rewrite IH.
  - apply keys_set_present, Hin. left.
  - intros y Hy. rewrite keys_set_present by (apply Hin; left).
    apply Hin. by right.
Qed.
End facts.
End PyDictMore.

(** ** Construction of the orchestrator *)

Section init_facts.
Context `{Collaborators}.
Import PyDictFacts PyDictMore.

(** X5: the dictionary [__init__] builds from the agents has one entry per
    agent id: its keys are the ids of the agents given, without repetition,
    and the agent stored under an id is the last one given with that id;
    when the ids are pairwise distinct it holds every agent, in the order
    given. *)
Theorem init_one_agent_per_id (agent_list : list Agent.BaseAgent) :
  let d := agents (init agent_list) in
  NoDup (PyDict.keys d) ∧
  (∀ k, k ∈ PyDict.keys d ↔ k ∈ Agent.agent_id <$> agent_list) ∧
  (∀ k, PyDict.get k d
        = last (filter (λ a, Agent.agent_id a = k) agent_list)) ∧
  (NoDup (Agent.agent_id <$> agent_list) →
   d = (λ a, (Agent.agent_id a, a)) <$> agent_list).
Proof.
  simpl. split_and!.
  - apply NoDup_keys_comprehension, NoDup_nil_2.
  - intros k. rewrite elem_of_keys_comprehension.
    unfold PyDict.keys. simpl. rewrite elem_of_nil. tauto.
  - intros k. rewrite get_comprehension. simpl.
    by destruct (last _).
  - intros Hnd. rewrite comprehension_distinct; [done|done|].
    intros x _. apply not_elem_of_nil.
Qed.

Lemma pool_ids count pool :
  AgentPool.create_agent_pool count = Some pool →
  Agent.agent_id <$> (AgentPool.agent <$> pool) = AgentPool.pool_names count.
Proof.
  intros E. destruct (create_agent_pool_at count pool E) as [Hlen Hat].
  assert (Hln : length (AgentPool.pool_names count) = count).
  { unfold AgentPool.pool_names. rewrite length_take, length_concat.
    pose proof (Nat.div_mod_eq count 15).
    pose proof (Nat.mod_upper_bound count 15).
    rewrite fmap_replicate, sum_list_replicate. simpl in *. lia. }
  apply list_eq. intros i. destruct (decide (i < count)) as [Hi|Hi].
  - destruct (Hat i Hi) as (p & Hp & Hn & _).
    rewrite !list_lookup_fmap, Hp, pool_names_lookup by done. simpl.
    by rewrite <- Hn.
  - rewrite !lookup_ge_None_2; [done | lia | rewrite !length_fmap; lia].
Qed.

Lemma elem_of_concat_replicate {A} k (l : list A) x :
  x ∈ concat (replicate k l) → x ∈ l.
Proof.
  induction k as [|k IH]; simpl; intros Hx.
  - by apply elem_of_nil in Hx.
  - apply elem_of_app in Hx as [?|?]; auto.
Qed.

Lemma pool_names_split count :
  ∃ rest, AgentPool.pool_names count = take count AgentPool.AGENT_NAMES ++ rest ∧
    (∀ x, x ∈ rest → x ∈ AgentPool.AGENT_NAMES ∧ 15 ≤ count).
Proof.
  exists (take (count - 15)
            (concat (replicate (count / 15) AgentPool.AGENT_NAMES))).
  split.
  - unfold AgentPool.pool_names.
    replace (count / length AgentPool.AGENT_NAMES + 1) with (S (count / 15))
      by (simpl; lia).
    change (concat (replicate (S (count / 15)) AgentPool.AGENT_NAMES))
      with (AgentPool.AGENT_NAMES ++
            concat (replicate (count / 15) AgentPool.AGENT_NAMES)).
    by rewrite take_app.
  - intros x Hx. split.
    + apply (subseteq_take (count - 15)) in Hx.
      by apply elem_of_concat_replicate in Hx.
    + destruct (decide (15 ≤ count)); [done|].
      replace (count - 15) with 0 in Hx by lia. by apply elem_of_nil in Hx.
Qed.

(** X6: an orchestrator built on [create_agent_pool(count)] manages one
    agent per name: its dictionary has the first [count] names of
    [AGENT_NAMES] as keys, in that order, so [min count 15] agents, however
    large the pool is. *)
Theorem pool_orchestrator_has_one_agent_per_name (count : nat) pool :
  AgentPool.create_agent_pool count = Some pool →
  let s := init (AgentPool.agent <$> pool) in
  PyDict.keys (agents s) = take count AgentPool.AGENT_NAMES ∧
  length (agents s) = min count 15 ∧
  length pool = count.
Proof.
  intros E.
  assert (Hk : PyDict.keys (agents (init (AgentPool.agent <$> pool)))
               = take count AgentPool.AGENT_NAMES).
  { pose proof (pool_ids count pool E) as Hids.
    destruct (pool_names_split count) as (rest & Hsplit & Hrest).
    rewrite Hsplit in Hids. simpl.
    set (l := AgentPool.agent <$> pool) in *.
    set (c := length (take count AgentPool.AGENT_NAMES)).
    assert (H1 : Agent.agent_id <$> take c l = take count AgentPool.AGENT_NAMES).
    { unfold c. by rewrite fmap_take, Hids, take_app_length. }
    assert (H2 : Agent.agent_id <$> drop c l = rest).
    { unfold c. by rewrite fmap_drop, Hids, drop_app_length. }
    rewrite <- (take_drop c l), foldl_app.
    assert (Hin : foldl (λ d a, PyDict.set (Agent.agent_id a) a d) [] (take c l)
                  = (λ a, (Agent.agent_id a, a)) <$> take c l).
    { rewrite comprehension_distinct; [done| |].
      - rewrite H1. eapply sublist_NoDup; [|apply sublist_take].
        apply (bool_decide_unpack _). vm_compute. exact I.
      - intros x _. apply not_elem_of_nil. }
    rewrite Hin, keys_comprehension_known.
    - unfold PyDict.keys. rewrite <- list_fmap_compose. exact H1.
    - intros x Hx. unfold PyDict.keys. rewrite <- list_fmap_compose.
      change (fst ∘ (λ a, (Agent.agent_id a, a))) with Agent.agent_id.
      rewrite H1. destruct (Hrest (Agent.agent_id x)) as [Hn Hc].
      { rewrite <- H2. by apply list_elem_of_fmap_2. }
      by rewrite take_ge. }
  intros s. split_and!.
  - done.
  - unfold s. rewrite <- (length_fmap fst). fold (PyDict.keys (agents (init (AgentPool.agent <$> pool)))).
    rewrite Hk, length_take. simpl. lia.
  - by apply create_agent_pool_at.
Qed.
End init_facts.

(** ** More of the approval workflow *)

Ltac unlog := simpl; rewrite ?log_action_mkState; simpl.

Create Rewrite HintDb fields.
#[global] Hint Rewrite @log_action_agents @log_action_quarantine @log_action_immune_memory @log_action_total_infections @log_action_total_healed @log_action_total_failed_healings @log_action_start_time @log_action_running @log_action_baselines_learned @log_action_pending_approvals @log_action_rejected_approvals @log_action_healing_in_progress @log_action_action_log_max @log_action_log_records @log_action_tasks @log_action_time_reads @logger_agents @logger_quarantine @logger_immune_memory @logger_total_infections @logger_total_healed @logger_total_failed_healings @logger_start_time @logger_running @logger_baselines_learned @logger_pending_approvals @logger_rejected_approvals @logger_healing_in_progress @logger_healing_action_log @logger_action_log_max @logger_heap @logger_time_reads @logger_tasks : fields.

Section workflow_facts.
Context `{Collaborators}.
Import PyDictFacts PyListFacts PyDictMore.


(** X7: deciding on a pending approval.  The call takes the entry out of
    the pending map and appends one action to the log ([user_approved] or
    [user_rejected]); approving hands the stored infection back with
    [True]; rejecting returns [(None, False)], files the infection and the
    diagnosis under the agent id in the rejected map with the clock reading
    that follows the one of the log entry, and logs one warning.  The
    quarantine, the agents, the tasks and the counters are not touched: the
    agent stays quarantined either way. *)
Theorem approval_decision_moves_the_entry (s : State) agent_id approved entry :
  LogInv s →
  PyDict.get agent_id (_pending_approvals s) = Some entry →
  let r := approve_healing agent_id approved s in
  let s' := r.2 in
  r.1 = (if approved then (Some (p_infection entry), true) else (None, false)) ∧
  _pending_approvals s' = PyDict.remove agent_id (_pending_approvals s) ∧
  PyDict.mem agent_id (_pending_approvals s') = false ∧
  _rejected_approvals s'
    = (if approved then _rejected_approvals s
       else PyDict.set agent_id
              {| r_infection := p_infection entry;
                 r_diagnosis := p_diagnosis entry;
                 rejected_at := clk (S (time_reads s)) |}
              (_rejected_approvals s)) ∧
  healing_action_log s'
    = PyList.slice_last 80
        (healing_action_log s ++
         [entry_of (time_reads s)
            (if approved then "user_approved" else "user_rejected",
             agent_id, kw_none)]) ∧
  log_records s'
    = log_records s ++
      (if approved then []
       else [{| level := WARNING;
                fmt := "Healing rejected for %s - quarantined until 'Heal now' in the dashboard";
                about := agent_id |}]) ∧
  quarantine s' = quarantine s ∧ agents s' = agents s ∧ tasks s' = tasks s ∧
  healing_in_progress s' = healing_in_progress s ∧
  immune_memory s' = immune_memory s ∧
  total_infections s' = total_infections s ∧
  total_healed s' = total_healed s ∧
  total_failed_healings s' = total_failed_healings s.
Proof.
  intros [Hr Hm Hl] Hg r s'. unfold s', r. clear s' r.
  assert (Hmem : PyDict.mem agent_id
            (PyDict.remove agent_id (_pending_approvals s)) = false).
  { apply mem_false. rewrite elem_of_keys_remove. tauto. }
  destruct approved.
  - rewrite (approve_healing_approved _ _ _ Hg). simpl.
    rewrite log_action_log by by destruct s.
    autorewrite with fields. destruct s. simpl in *. subst.
    rewrite app_nil_r. split_and!; done.
  - rewrite (approve_healing_rejected _ _ _ Hg). simpl.
    set (s1 := _log_action "user_rejected" agent_id kw_none _).
    assert (H1 : healing_action_log s1
                 = PyList.slice_last 80
                     (healing_action_log s ++
                      [entry_of (time_reads s) ("user_rejected", agent_id, kw_none)])).
    { unfold s1. rewrite log_action_log by by destruct s.
      by destruct s; simpl in *; subst. }
    assert (H2 : _pending_approvals s1
                 = PyDict.remove agent_id (_pending_approvals s) ∧
                 _rejected_approvals s1 = _rejected_approvals s ∧
                 time_reads s1 = S (time_reads s) ∧
                 log_records s1 = log_records s ∧
                 quarantine s1 = quarantine s ∧ agents s1 = agents s ∧
                 tasks s1 = tasks s ∧
                 healing_in_progress s1 = healing_in_progress s ∧
                 immune_memory s1 = immune_memory s ∧
                 total_infections s1 = total_infections s ∧
                 total_healed s1 = total_healed s ∧
                 total_failed_healings s1 = total_failed_healings s).
    { unfold s1. autorewrite with fields. by destruct s. }
    clearbody s1.
    destruct H2 as (? & ? & ? & ? & ? & ? & ? & ? & ? & ? & ? & ?).
    destruct s1. unfold healing_action_log in *. simpl in *. subst.
    split_and!; done.
Qed.

(** X8: rejecting and then asking to heal now.  For an agent with a pending
    entry and no rejected entry, the rejection puts it in the rejected map,
    where a later approval finds nothing to approve, and
    [start_healing_explicitly] hands back the infection that was pending
    and leaves the rejected map as it was before the rejection; the agent
    is quarantined throughout and no task is created by either call. *)
Theorem reject_then_heal_now_returns_the_infection (s : State) agent_id entry :
  PyDict.get agent_id (_pending_approvals s) = Some entry →
  PyDict.mem agent_id (_rejected_approvals s) = false →
  let s1 := (approve_healing agent_id false s).2 in
  let r := start_healing_explicitly agent_id s1 in
  PyDict.mem agent_id (_rejected_approvals s1) = true ∧
  approve_healing agent_id true s1 = ((None, false), s1) ∧
  r.1 = Some (p_infection entry) ∧
  _rejected_approvals r.2 = _rejected_approvals s ∧
  _pending_approvals r.2 = PyDict.remove agent_id (_pending_approvals s) ∧
  quarantine r.2 = quarantine s ∧ tasks r.2 = tasks s.
Proof.
  intros Hg Hn%mem_false s1 r.
  destruct (approve_healing_effect agent_id false s)
    as (_ & Hq & Ht & _ & Hcase).
  rewrite Hg in Hcase. destruct Hcase as (Hp & _ & e & He).
  fold s1 in Hq, Ht, Hp, He.
  assert (Hg1 : PyDict.get agent_id (_rejected_approvals s1) = Some e).
  { rewrite He. apply get_set_eq. }
  destruct (start_healing_explicitly_effect agent_id s1)
    as (_ & Hq2 & Ht2 & Hp2 & _ & Hcase).
  rewrite Hg1 in Hcase. destruct Hcase as [Hr1 Hr2]. fold r in Hq2, Ht2, Hp2, Hr1, Hr2.
  assert (Hinf : r_infection e = p_infection entry).
  { assert (Hx : PyDict.get agent_id (_rejected_approvals s1)
                 = Some {| r_infection := p_infection entry;
                           r_diagnosis := p_diagnosis entry;
                           rejected_at := clk (S (time_reads s)) |}).
    { unfold s1. rewrite (approve_healing_rejected _ _ _ Hg). simpl.
      autorewrite with fields.
      replace (time_reads (set_pending_approvals
                 (λ _, PyDict.remove agent_id (_pending_approvals s)) s))
        with (time_reads s) by by destruct s.
      set (s0 := _log_action _ _ _ _). destruct s0. simpl. apply get_set_eq. }
    rewrite Hg1 in Hx. by injection Hx as ->. }
  split_and!.
  - apply mem_true. by eapply get_Some_mem.
  - apply approve_healing_absent, mem_false.
    rewrite Hp, elem_of_keys_remove. tauto.
  - by rewrite Hr1, Hinf.
  - rewrite Hr2, He. by apply remove_set_absent.
  - by rewrite Hp2.
  - by rewrite Hq2.
  - by rewrite Ht2.
Qed.

(** *** Starting all rejected agents *)

Lemma start_all_loop_each agent_ids acc (s : State) :
  start_all_loop agent_ids acc s
  = (acc ++ omap (λ p, pair p.1 <$> p.2) (start_each agent_ids s).1,
     (start_each agent_ids s).2).
Proof.
  revert acc s. induction agent_ids as [|a rest IH]; intros acc s; simpl.
  - by rewrite app_nil_r.
  - destruct (start_healing_explicitly a s) as [inf s1].
    destruct (start_each rest s1) as [rs s2] eqn:E.
    assert (Hrs : rs = (start_each rest s1).1) by by rewrite E.
    assert (Hs2 : s2 = (start_each rest s1).2) by by rewrite E.
    destruct inf as [i|]; rewrite IH; simpl; subst rs s2;
      by rewrite <- ?app_assoc.
Qed.

Lemma start_each_all (d : list (string * RejectedEntry)) (s : State) :
  _rejected_approvals s = d → NoDup (PyDict.keys d) →
  omap (λ p, pair p.1 <$> p.2) (start_each (PyDict.keys d) s).1
    = (λ kv, (kv.1, r_infection kv.2)) <$> d ∧
  (start_each (PyDict.keys d) s).1
    = (λ kv, (kv.1, Some (r_infection kv.2))) <$> d ∧
  _rejected_approvals (start_each (PyDict.keys d) s).2 = [] ∧
  _pending_approvals (start_each (PyDict.keys d) s).2 = _pending_approvals s ∧
  quarantine (start_each (PyDict.keys d) s).2 = quarantine s ∧
  tasks (start_each (PyDict.keys d) s).2 = tasks s.
Proof.
  revert s. induction d as [|[k e] d IH]; intros s Hd Hnd.
  { simpl. by rewrite Hd. }
  change (PyDict.keys ((k, e) :: d)) with (k :: PyDict.keys d) in *.
  apply NoDup_cons in Hnd as [Hk Hnd]. simpl.
  assert (Hg : PyDict.get k (_rejected_approvals s) = Some e).
  { rewrite Hd. simpl. by rewrite decide_True. }
  destruct (start_healing_explicitly_effect k s)
    as (_ & Hq & Ht & Hp & _ & Hcase).
  rewrite Hg in Hcase. destruct Hcase as [Hr1 Hr2].
  destruct (start_healing_explicitly k s) as [r s1]. simpl in *. subst r.
  assert (Hs1 : _rejected_approvals s1 = d).
  { rewrite Hr2, Hd. by apply remove_head. }
  destruct (IH s1 Hs1 Hnd) as (H1 & H2 & H3 & H4 & H5 & H6).
  destruct (start_each (PyDict.keys d) s1) as [rs s2]. simpl in *.
  split_and!; [f_equal; exact H1 | f_equal; exact H2 | done | congruence..].
Qed.

(** X9: [start_healing_all_rejected] is one [start_healing_explicitly] per
    agent id of the snapshot of the rejected map, in its order; it returns
    one (agent id, infection) pair per rejected entry and leaves the
    rejected map empty, the pending map, the quarantine and the tasks as
    they were. *)
Theorem start_healing_all_rejected_is_single_calls (s : State) :
  NoDup (PyDict.keys (_rejected_approvals s)) →
  let r := start_healing_all_rejected s in
  let calls := start_each (PyDict.keys (_rejected_approvals s)) s in
  r = (omap (λ p, pair p.1 <$> p.2) calls.1, calls.2) ∧
  calls.1 = (λ kv, (kv.1, Some (r_infection kv.2))) <$> _rejected_approvals s ∧
  r.1 = (λ kv, (kv.1, r_infection kv.2)) <$> _rejected_approvals s ∧
  _rejected_approvals r.2 = [] ∧
  _pending_approvals r.2 = _pending_approvals s ∧
  quarantine r.2 = quarantine s ∧ tasks r.2 = tasks s.
Proof.
  intros Hnd r calls. unfold r, calls, start_healing_all_rejected.
  rewrite start_all_loop_each. simpl.
  destruct (start_each_all _ s eq_refl Hnd) as (H1 & H2 & H3 & H4 & H5 & H6).
  by split_and!.
Qed.

(** *** Rejecting all pending approvals *)

Lemma approve_each_all_rejected (d : list (string * PendingEntry)) (s : State) :
  _pending_approvals s = d → NoDup (PyDict.keys d) →
  (∀ k, k ∈ PyDict.keys d → k ∉ PyDict.keys (_rejected_approvals s)) →
  approved_pairs (approve_each (PyDict.keys d) false s).1 = [] ∧
  _pending_approvals (approve_each (PyDict.keys d) false s).2 = [] ∧
  _rejected_approvals (approve_each (PyDict.keys d) false s).2
    = _rejected_approvals s ++ rejected_entries (time_reads s) d ∧
  time_reads (approve_each (PyDict.keys d) false s).2
    = time_reads s + 2 * length d ∧
  quarantine (approve_each (PyDict.keys d) false s).2 = quarantine s ∧
  tasks (approve_each (PyDict.keys d) false s).2 = tasks s.
Proof.
  revert s. induction d as [|[k e] d IH]; intros s Hd Hnd Hdis.
  { simpl. rewrite Hd, app_nil_r. split_and!; try done; lia. }
  change (PyDict.keys ((k, e) :: d)) with (k :: PyDict.keys d) in *.
  apply NoDup_cons in Hnd as [Hk Hnd]. simpl.
  assert (Hg : PyDict.get k (_pending_approvals s) = Some e).
  { rewrite Hd. simpl. by rewrite decide_True. }
  assert (Hkr : k ∉ PyDict.keys (_rejected_approvals s)).
  { apply Hdis. left. }
  rewrite (approve_healing_rejected _ _ _ Hg). simpl.
  set (s0 := _log_action "user_rejected" k kw_none _).
  assert (H0 : _pending_approvals s0 = d ∧
               _rejected_approvals s0 = _rejected_approvals s ∧
               time_reads s0 = S (time_reads s) ∧
               quarantine s0 = quarantine s ∧ tasks s0 = tasks s).
  { unfold s0. autorewrite with fields. destruct s. simpl in *. subst.
    simpl. rewrite decide_True by done. rewrite remove_absent by done.
    done. }
  destruct H0 as (Hp0 & Hr0 & Ht0 & Hq0 & Hts0).
  set (s1 := logger _ _ _ _).
  assert (H1 : _pending_approvals s1 = d ∧
               _rejected_approvals s1
                 = _rejected_approvals s ++
                   [(k, {| r_infection := p_infection e;
                           r_diagnosis := p_diagnosis e;
                           rejected_at := clk (S (time_reads s)) |})] ∧
               time_reads s1 = S (S (time_reads s)) ∧
               quarantine s1 = quarantine s ∧ tasks s1 = tasks s).
  { unfold s1. autorewrite with fields. clearbody s0. destruct s0. simpl in *.
    subst. rewrite set_absent by done. done. }
  clearbody s1. destruct H1 as (Hp1 & Hr1 & Ht1 & Hq1 & Hts1).
  destruct (IH s1 Hp1 Hnd) as (I1 & I2 & I3 & I4 & I5 & I6).
  { intros k' Hk'. rewrite Hr1. unfold PyDict.keys. rewrite fmap_app.
    rewrite elem_of_app. simpl. intros [Hin|Hin].
    - apply (Hdis k'); [by right | done].
    - apply list_elem_of_singleton in Hin. by subst k'. }
  destruct (approve_each (PyDict.keys d) false s1) as [rs s2]. simpl in *.
  rewrite I1, I2, I3, I4, I5, I6, Hr1, Ht1, Hq1, Hts1, <- app_assoc.
  split_and!; try done. lia.
Qed.

Lemma keys_rejected_entries n (d : list (string * PendingEntry)) :
  PyDict.keys (rejected_entries n d) = PyDict.keys d.
Proof.
  revert n. induction d as [|[k e] d IH]; intros n; [done|].
  simpl. f_equal. apply IH.
Qed.

(** X10: [approve_all_pending(False)] rejects every pending approval: it
    returns the empty list, empties the pending map and appends its entries
    to the rejected map in the order of the pending map, each with its
    infection and diagnosis and its own rejection time (no pending agent
    having a rejected entry already); it reads the clock twice per entry,
    releases nobody and creates no task. *)
Theorem reject_all_pending_moves_every_entry (s : State) :
  NoDup (PyDict.keys (_pending_approvals s)) →
  Forall (λ k, k ∉ PyDict.keys (_rejected_approvals s))
         (PyDict.keys (_pending_approvals s)) →
  let r := approve_all_pending false s in
  r.1 = [] ∧
  _pending_approvals r.2 = [] ∧
  _rejected_approvals r.2
    = _rejected_approvals s ++
      rejected_entries (time_reads s) (_pending_approvals s) ∧
  PyDict.keys (_rejected_approvals r.2)
    = PyDict.keys (_rejected_approvals s) ++ PyDict.keys (_pending_approvals s) ∧
  time_reads r.2 = time_reads s + 2 * length (_pending_approvals s) ∧
  quarantine r.2 = quarantine s ∧ tasks r.2 = tasks s.
Proof.
  intros Hnd Hdis r. unfold r, approve_all_pending.
  rewrite approve_all_loop_each. simpl.
  destruct (approve_each_all_rejected _ s eq_refl Hnd
              (proj1 (Forall_forall _ _) Hdis))
    as (H1 & H2 & H3 & H4 & H5 & H6).
  rewrite H1, H2, H3, H4, H5, H6. split_and!; try done.
  unfold PyDict.keys. rewrite fmap_app. f_equal. apply keys_rejected_entries.
Qed.
End workflow_facts.

(** ** More of the healing escalation and of the sweep *)

Section healing_facts.
Context `{Collaborators}.
Import PyDictFacts PyListFacts PyDictMore.

Lemma get_update_ne {V} (f : V → V) (k k' : string) (d : list (string * V)) :
  k ≠ k' → PyDict.get k' (PyDict.update f k d) = PyDict.get k' d.
Proof.
  intros Hne. induction d as [|[k0 v0] d IH]; simpl; [done|].
  destruct (decide (k = k0)) as [->|Hne0]; simpl.
  - by rewrite !decide_False.
  - destruct (decide (k' = k0)); [done | apply IH].
Qed.


(** X12: [heal_agent] for an agent id the orchestrator does not manage.
    The lookup in [self.agents] fails before anything else is done, so the
    task ends at once and all that is left is the [finally] clause: the id
    is not in [healing_in_progress]; the quarantine, the counters, the
    immune memory, the approval maps, the action log and the logger are as
    they were. *)
Theorem heal_agent_of_unknown_agent result t (s : State) :
  h_point t = at_start →
  PyDict.get (h_agent_id t) (agents s) = None →
  heal_step result t s
  = (set_healing_in_progress (λ hip, hip ∖ {[h_agent_id t]}) s, None) ∧
  quarantine (heal_step result t s).1 = quarantine s ∧
  (h_agent_id t ∉ healing_in_progress (heal_step result t s).1).
Proof.
  intros Hp Hg.
  assert (Heq : heal_step result t s
    = (set_healing_in_progress (λ hip, hip ∖ {[h_agent_id t]}) s, None)).
  { unfold heal_step, heal_enter. rewrite Hp. destruct s. simpl in *.
    rewrite Hg. unfold finally. simpl. do 2 f_equal.
    rewrite iter_discard. set_solver. }
  rewrite Heq. destruct s. simpl. split_and!; [done | done | set_solver].
Qed.

(** *** The sweep *)

Lemma on_detection_rest agent_id infection (s : State) :
  total_healed (on_detection agent_id infection s) = total_healed s ∧
  total_failed_healings (on_detection agent_id infection s)
    = total_failed_healings s ∧
  immune_memory (on_detection agent_id infection s) = immune_memory s.
Proof.
  destruct s. unfold on_detection. by destruct (Qle_bool _ _); unlog.
Qed.

(** X13: one iteration of the sweep changes the state exactly when it sees
    a new detection: the agent is not quarantined, has a baseline and
    recent telemetry, the sentinel reports an infection, and the agent has
    no rejected approval.  It then counts one infection, puts the agent in
    the quarantine set and calls [quarantine] on the agent object, leaves
    the other agents, the healing counters and the immune memory alone,
    and a second iteration on the same agent does nothing. *)
Theorem sweep_acts_exactly_on_new_detections (s : State) agent_id obs :
  let s' := sentinel_iteration agent_id obs s in
  (s' ≠ s ↔
   QuarantineController.is_quarantined agent_id (quarantine s) = false ∧
   obs_has_baseline obs = true ∧ obs_recent_empty obs = false ∧
   is_Some (obs_infection obs) ∧
   PyDict.mem agent_id (_rejected_approvals s) = false) ∧
  (s' ≠ s →
   total_infections s' = S (total_infections s) ∧
   quarantine s' = QuarantineController.quarantine agent_id (quarantine s) ∧
   QuarantineController.is_quarantined agent_id (quarantine s') = true ∧
   PyDict.get agent_id (agents s')
     = Agent.quarantine <$> PyDict.get agent_id (agents s) ∧
   (∀ a, a ≠ agent_id → PyDict.get a (agents s') = PyDict.get a (agents s)) ∧
   total_healed s' = total_healed s ∧
   total_failed_healings s' = total_failed_healings s ∧
   immune_memory s' = immune_memory s ∧
   (∀ obs', sentinel_iteration agent_id obs' s' = s')).
Proof.
  intros s'.
  assert (Hdet : ∀ inf, s' = on_detection agent_id inf s →
    s' ≠ s ∧
    total_infections s' = S (total_infections s) ∧
    quarantine s' = QuarantineController.quarantine agent_id (quarantine s) ∧
    QuarantineController.is_quarantined agent_id (quarantine s') = true ∧
    PyDict.get agent_id (agents s')
      = Agent.quarantine <$> PyDict.get agent_id (agents s) ∧
    (∀ a, a ≠ agent_id → PyDict.get a (agents s') = PyDict.get a (agents s)) ∧
    total_healed s' = total_healed s ∧
    total_failed_healings s' = total_failed_healings s ∧
    immune_memory s' = immune_memory s ∧
    (∀ obs', sentinel_iteration agent_id obs' s' = s')).
  { intros inf ->.
    destruct (on_detection_rest agent_id inf s) as (H1 & H2 & H3).
    assert (Hq : QuarantineController.is_quarantined agent_id
              (quarantine (on_detection agent_id inf s)) = true).
    { rewrite on_detection_quarantine. apply bool_decide_eq_true. simpl.
      set_solver. }
    split_and!; try done.
    - intros Heq. pose proof (on_detection_total_infections agent_id inf s) as Hc.
      rewrite Heq in Hc. lia.
    - apply on_detection_total_infections.
    - apply on_detection_quarantine.
    - rewrite on_detection_agents. apply get_update_eq.
    - intros a Hne. rewrite on_detection_agents. by apply get_update_ne.
    - intros obs'. unfold sentinel_iteration. by rewrite Hq. }
  destruct (sentinel_iteration_cases agent_id obs s)
    as [Hsame | (inf & Hb & Hr & Hi & Hq & Hrej & Hdo)]; fold s' in Hsame || fold s' in Hdo.
  - split; [|done]. split; [done|].
    intros (Hq & Hb & Hr & [inf Hi] & Hrej). exfalso.
    assert (Hdo : s' = on_detection agent_id inf s).
    { unfold s', sentinel_iteration. by rewrite Hq, Hb, Hr, Hi, Hrej. }
    destruct (Hdet inf Hdo) as [Hne _]. done.
  - destruct (Hdet inf Hdo) as (Hne & Hrest). split.
    + split; [|done]. intros _. rewrite Hi. split_and!; done.
    + intros _. exact Hrest.
Qed.

Lemma sentinel_iteration_quarantine_grows a obs (s : State) :
  QuarantineController.quarantined (quarantine s)
  ⊆ QuarantineController.quarantined (quarantine (sentinel_iteration a obs s)).
Proof.
  destruct (sentinel_iteration_cases a obs s)
    as [-> | (inf & _ & _ & _ & _ & _ & ->)]; [done|].
  rewrite on_detection_quarantine. simpl. set_solver.
Qed.

Lemma sentinel_iteration_sighted a obs (s : State) :
  (∀ x, x ∈ PyDict.keys (_rejected_approvals s) →
        x ∈ QuarantineController.quarantined (quarantine s)) →
  obs_has_baseline obs = true → obs_recent_empty obs = false →
  is_Some (obs_infection obs) →
  a ∈ QuarantineController.quarantined (quarantine (sentinel_iteration a obs s)).
Proof.
  intros Hrq Hb Hr [inf Hi]. unfold sentinel_iteration.
  destruct (QuarantineController.is_quarantined a (quarantine s)) eqn:Hq.
  { by apply bool_decide_eq_true in Hq. }
  rewrite Hb, Hr, Hi. simpl.
  destruct (PyDict.mem a (_rejected_approvals s)) eqn:Hm.
  { apply Hrq. by apply mem_true. }
  rewrite on_detection_quarantine. simpl. set_solver.
Qed.

Lemma sweep_sighted obs a ids : ∀ s : State,
  (∀ x, x ∈ PyDict.keys (_rejected_approvals s) →
        x ∈ QuarantineController.quarantined (quarantine s)) →
  obs_has_baseline (obs a) = true → obs_recent_empty (obs a) = false →
  is_Some (obs_infection (obs a)) →
  let s' := foldl (λ s x, sentinel_iteration x (obs x) s) s ids in
  QuarantineController.quarantined (quarantine s)
    ⊆ QuarantineController.quarantined (quarantine s') ∧
  (a ∈ ids → a ∈ QuarantineController.quarantined (quarantine s')).
Proof.
  induction ids as [|x ids IH]; intros s Hrq Hb Hr Hi; simpl.
  { split; [done|]. intros Hin. by apply elem_of_nil in Hin. }
  set (s1 := sentinel_iteration x (obs x) s).
  pose proof (sentinel_iteration_quarantine_grows x (obs x) s) as Hgrow.
  fold s1 in Hgrow.
  destruct (IH s1) as [Hsub Hin]; try done.
  { intros y. unfold s1. rewrite sentinel_iteration_keeps_rejected.
    intros Hy. apply Hgrow. by apply Hrq. }
  split; [set_solver|].
  intros [->|Ha]%elem_of_cons; [|by apply Hin].
  apply Hsub. by apply sentinel_iteration_sighted.
Qed.

(** X14: in a reachable state, every agent of the orchestrator for which
    the sweep has a baseline, recent telemetry and an infection reported by
    the sentinel is in the quarantine set when the sweep is over, whether
    the sweep detected it or found it held already; and the sweep releases
    nobody. *)
Theorem sweep_quarantines_every_sighted_agent agent_list sys obs a :
  reachable agent_list sys →
  a ∈ PyDict.keys (agents (orch sys)) →
  obs_has_baseline (obs a) = true →
  obs_recent_empty (obs a) = false →
  is_Some (obs_infection (obs a)) →
  QuarantineController.is_quarantined a
    (quarantine (sentinel_sweep obs (orch sys))) = true ∧
  QuarantineController.quarantined (quarantine (orch sys))
    ⊆ QuarantineController.quarantined
        (quarantine (sentinel_sweep obs (orch sys))).
Proof.
  intros HI%reachable_Inv Ha Hb Hr Hi.
  destruct (sweep_sighted obs a (PyDict.keys (agents (orch sys))) (orch sys))
    as [Hsub Hin]; try done.
  { intros x Hx. apply (inv_quarantined _ HI), owner_parts. auto. }
  split; [|done]. apply bool_decide_eq_true. by apply Hin.
Qed.
End healing_facts.

(** ** What a run only adds to *)

Ltac grow :=
  split; simpl; rewrite ?PyDictFacts.keys_update;
  try done; try lia; try (rewrite <- ?app_assoc; by eexists).

Section run_facts.
Context `{Collaborators}.
Import PyDictFacts PyListFacts PyDictMore.

Lemma grows_refl (s : State) : grows s s.
Proof. by split. Qed.

Lemma grows_trans (s1 s2 s3 : State) : grows s1 s2 → grows s2 s3 → grows s1 s3.
Proof.
  intros [] []. split; try congruence; try (by etrans).
Qed.

Lemma on_detection_grows agent_id infection (s : State) :
  grows s (on_detection agent_id infection s).
Proof.
  destruct s. unfold on_detection. destruct (Qle_bool _ _); unlog; grow.
Qed.

Lemma sentinel_iteration_grows agent_id obs (s : State) :
  grows s (sentinel_iteration agent_id obs s).
Proof.
  destruct (sentinel_iteration_cases agent_id obs s)
    as [-> | (inf & _ & _ & _ & _ & _ & ->)];
    [apply grows_refl | apply on_detection_grows].
Qed.

Lemma approve_healing_grows agent_id approved (s : State) :
  grows s (approve_healing agent_id approved s).2.
Proof.
  destruct s. unfold approve_healing, PyDict.pop. simpl.
  destruct (PyDict.get _ _); [destruct approved|]; unlog; grow.
Qed.

Lemma start_healing_explicitly_grows agent_id (s : State) :
  grows s (start_healing_explicitly agent_id s).2.
Proof.
  destruct s. unfold start_healing_explicitly, PyDict.pop. simpl.
  destruct (PyDict.get _ _); unlog; grow.
Qed.

Lemma heal_step_grows result t (s : State) : grows s (heal_step result t s).1.
Proof.
  destruct s. unfold heal_step, heal_enter.
  destruct (h_point t); unlog; repeat case_match; unlog; grow.
Qed.

Lemma step_grows sys sys' : step sys sys' → grows (orch sys) (orch sys').
Proof.
  intros Hstep. destruct Hstep; simpl.
  - apply sentinel_iteration_grows.
  - apply approve_healing_grows.
  - apply start_healing_explicitly_grows.
  - destruct (orch sys). grow.
  - eapply grows_trans; [apply (heal_step_grows result t)|].
    destruct (heal_step result t (orch sys)).1. grow.
  - destruct (orch sys). grow.
  - destruct (orch sys). grow.
Qed.

(** X15: along every run of the system the three counters, the number of
    clock readings and the number of quarantine events never go down, the
    immune memory and the output of the logger are only appended to, and
    the agent ids, the start time and the cap of the action log never
    change. *)
Theorem counters_and_records_only_grow sys sys' :
  rtc step sys sys' →
  total_infections (orch sys) ≤ total_infections (orch sys') ∧
  total_healed (orch sys) ≤ total_healed (orch sys') ∧
  total_failed_healings (orch sys) ≤ total_failed_healings (orch sys') ∧
  time_reads (orch sys) ≤ time_reads (orch sys') ∧
  QuarantineController.total_quarantines (quarantine (orch sys))
    ≤ QuarantineController.total_quarantines (quarantine (orch sys')) ∧
  immune_memory (orch sys) `prefix_of` immune_memory (orch sys') ∧
  log_records (orch sys) `prefix_of` log_records (orch sys') ∧
  PyDict.keys (agents (orch sys')) = PyDict.keys (agents (orch sys)) ∧
  start_time (orch sys') = start_time (orch sys) ∧
  _action_log_max (orch sys') = _action_log_max (orch sys).
Proof.
  intros Hrun.
  assert (Hg : grows (orch sys) (orch sys')).
  { induction Hrun as [|sys1 sys2 sys3 Hstep _ IH]; [apply grows_refl|].
    eapply grows_trans; [by apply step_grows | done]. }
  by destruct Hg.
Qed.
End run_facts.

(** ** Infections, holders and healings *)

Section count_facts.
Context `{Collaborators}.
Import PyDictFacts PyListFacts PyDictMore.

Lemma length_set_le {V} (k : string) (v : V) d :
  length (PyDict.set k v d) ≤ S (length d).
Proof.
  induction d as [|[k0 v0] d IH]; simpl; [done|].
  destruct (decide (k = k0)); simpl; lia.
Qed.

Lemma length_remove_le {V} (k : string) (d : list (string * V)) :
  length (PyDict.remove k d) ≤ length d.
Proof.
  induction d as [|[k0 v0] d IH]; simpl; [done|].
  destruct (decide (k = k0)); simpl; lia.
Qed.

Lemma length_remove_present {V} (k : string) (d : list (string * V)) v :
  PyDict.get k d = Some v → S (length (PyDict.remove k d)) ≤ length d.
Proof.
  induction d as [|[k0 v0] d IH]; simpl; [done|].
  destruct (decide (k = k0)); simpl.
  - intros _. pose proof (length_remove_le k d). lia.
  - intros Hg. specialize (IH Hg). lia.
Qed.

Lemma length_owners sys :
  length (owners sys)
  = length (_pending_approvals (orch sys)) +
    length (_rejected_approvals (orch sys)) +
    length (tasks (orch sys)) + length (returned sys).
Proof.
  unfold owners, task_ids, PyDict.keys. rewrite !length_app, !length_fmap. lia.
Qed.

Lemma approve_healing_counters a approved (s : State) :
  total_infections (approve_healing a approved s).2 = total_infections s ∧
  total_healed (approve_healing a approved s).2 = total_healed s.
Proof.
  destruct s. unfold approve_healing, PyDict.pop. simpl.
  destruct (PyDict.get _ _); [destruct approved|]; unlog; done.
Qed.

Lemma start_healing_explicitly_counters a (s : State) :
  total_infections (start_healing_explicitly a s).2 = total_infections s ∧
  total_healed (start_healing_explicitly a s).2 = total_healed s.
Proof.
  destruct s. unfold start_healing_explicitly, PyDict.pop. simpl.
  destruct (PyDict.get _ _); unlog; done.
Qed.

Lemma heal_step_counters result t (s : State) :
  total_infections (heal_step result t s).1 = total_infections s ∧
  QuarantineController.total_quarantines (quarantine (heal_step result t s).1)
    = QuarantineController.total_quarantines (quarantine s) ∧
  match (heal_step result t s).2 with
  | Some _ => total_healed (heal_step result t s).1 = total_healed s
  | None => total_healed (heal_step result t s).1 ≤ S (total_healed s)
  end.
Proof.
  destruct s. unfold heal_step, heal_enter.
  destruct (h_point t); unlog; repeat case_match; unlog;
    split_and!; simpl; try done; lia.
Qed.

(** every healing counted and every fault still held was counted as an
    infection, and every counted infection was one quarantine event *)
Lemma step_counts sys sys' :
  step sys sys' →
  total_healed (orch sys) + length (owners sys) ≤ total_infections (orch sys) ∧
  QuarantineController.total_quarantines (quarantine (orch sys))
    = total_infections (orch sys) →
  total_healed (orch sys') + length (owners sys') ≤ total_infections (orch sys') ∧
  QuarantineController.total_quarantines (quarantine (orch sys'))
    = total_infections (orch sys').
Proof.
  intros Hstep. rewrite !length_owners. intros [HJ HQ].
  destruct Hstep as [sys a obs Ha | sys a approved | sys a
                    | sys i a inf trig Hi | sys i t result Hi
                    | sys a f | sys]; simpl.
  - destruct (sentinel_iteration_cases a obs (orch sys))
      as [-> | (inf & _ & _ & _ & _ & _ & ->)]; [done|].
    destruct (on_detection_rest a inf (orch sys)) as (-> & _ & _).
    rewrite on_detection_total_infections, on_detection_rejected,
      on_detection_quarantine. simpl. split; [|lia].
    destruct (Qle_bool SEVERITY_REQUIRING_APPROVAL (severity inf)) eqn:Hsev.
    + rewrite on_detection_severe_pending, on_detection_severe_tasks by done.
      pose proof (length_set_le a
        {| p_infection := inf;
           p_diagnosis := diagnose inf (get_baseline a);
           requested_at := clk (time_reads (orch sys)) |}
        (_pending_approvals (orch sys))). lia.
    + destruct (on_detection_mild a inf (orch sys) Hsev) as (-> & -> & _).
      rewrite length_app. simpl. lia.
  - destruct (approve_healing_counters a approved (orch sys)) as [-> ->].
    destruct (approve_healing_effect a approved (orch sys))
      as (_ & -> & Hts & _ & Hcase).
    split; [|done]. rewrite Hts, length_app.
    destruct (PyDict.get a (_pending_approvals (orch sys))) as [e|] eqn:Hg.
    2:{ rewrite Hcase. simpl. lia. }
    destruct Hcase as [-> Hcase].
    pose proof (length_remove_present _ _ _ Hg).
    destruct approved.
    + destruct Hcase as [-> ->]. simpl. lia.
    + destruct Hcase as [-> [entry ->]]. simpl.
      pose proof (length_set_le a entry (_rejected_approvals (orch sys))). lia.
  - destruct (start_healing_explicitly_counters a (orch sys)) as [-> ->].
    destruct (start_healing_explicitly_effect a (orch sys))
      as (_ & -> & -> & -> & _ & Hcase).
    split; [|done]. rewrite length_app.
    destruct (PyDict.get a (_rejected_approvals (orch sys))) as [e|] eqn:Hg.
    2:{ rewrite Hcase. simpl. lia. }
    destruct Hcase as [-> ->].
    pose proof (length_remove_present _ _ _ Hg). simpl. lia.
  - rewrite length_delete by by eexists.
    pose proof (lookup_lt_Some _ _ _ Hi).
    destruct (orch sys). simpl in *. rewrite length_app. simpl. split; lia.
  - destruct (heal_step_frame result t (orch sys)) as (Hts & Hpe & Hre & _).
    destruct (heal_step_counters result t (orch sys)) as (Hti & Htq & Hth).
    pose proof (lookup_lt_Some _ _ _ Hi).
    destruct (heal_step result t (orch sys)) as [s' ot]. simpl in *.
    destruct s'. simpl in *. subst. split; [|lia].
    destruct ot.
    + rewrite length_insert. lia.
    + rewrite length_delete by by eexists. lia.
  - destruct (orch sys). simpl in *. split; lia.
  - destruct (orch sys). simpl in *. split; lia.
Qed.

Lemma reachable_counts agent_list sys :
  reachable agent_list sys →
  total_healed (orch sys) + length (owners sys) ≤ total_infections (orch sys) ∧
  QuarantineController.total_quarantines (quarantine (orch sys))
    = total_infections (orch sys).
Proof.
  induction 1 as [|sys sys' _ IH Hstep]; [done|].
  by apply (step_counts sys).
Qed.

(** X16: in every reachable state the healings counted plus the faults
    still held (pending, rejected, being healed, or handed to a caller) do
    not exceed the infections counted; so the healing success rate of the
    summary lies between 0 and 1, is 0 when no infection was counted, and
    can be 1 only when no fault is held any more. *)
Theorem success_rate_is_a_proportion agent_list sys :
  reachable agent_list sys →
  let s := orch sys in
  total_healed s + length (owners sys) ≤ total_infections s ∧
  (0 <= resolution_rate s)%Q ∧ (resolution_rate s <= 1)%Q ∧
  (total_infections s = 0 → resolution_rate s = 0%Q) ∧
  (0 < total_infections s → (resolution_rate s == 1)%Q → owners sys = []).
Proof.
  intros [HJ _]%reachable_counts s. fold s in HJ.
  unfold resolution_rate.
  destruct (total_infections s) as [|n] eqn:Hn; simpl.
  { split_and!; try done; lia. }
  assert (Hpos : Z.pos (Pos.of_nat (S n)) = Z.of_nat (S n)).
  { rewrite <- Pos.of_nat_succ, Zpos_P_of_succ_nat. lia. }
  split_and!.
  - done.
  - unfold Qle. simpl. lia.
  - unfold Qle. simpl. rewrite Hpos. lia.
  - done.
  - intros _. unfold Qeq. simpl. rewrite Hpos. intros Heq.
    apply length_zero_iff_nil. lia.
Qed.

Lemma heal_step_quarantine_sub result t (s : State) :
  QuarantineController.quarantined (quarantine (heal_step result t s).1)
  ⊆ QuarantineController.quarantined (quarantine s).
Proof.
  destruct s. unfold heal_step, heal_enter.
  destruct (h_point t); unlog; repeat case_match; unlog; set_solver.
Qed.

Lemma sentinel_iteration_quarantine_sub a obs (s : State) :
  QuarantineController.quarantined (quarantine (sentinel_iteration a obs s))
  ⊆ {[a]} ∪ QuarantineController.quarantined (quarantine s).
Proof.
  destruct (sentinel_iteration_cases a obs s)
    as [-> | (inf & _ & _ & _ & _ & _ & ->)]; [set_solver|].
  by rewrite on_detection_quarantine.
Qed.

Lemma step_quarantined_count sys sys' :
  step sys sys' →
  QuarantineController.get_quarantined_count (quarantine (orch sys))
    ≤ QuarantineController.total_quarantines (quarantine (orch sys)) →
  QuarantineController.get_quarantined_count (quarantine (orch sys'))
    ≤ QuarantineController.total_quarantines (quarantine (orch sys')).
Proof.
  unfold QuarantineController.get_quarantined_count.
  intros Hstep HI.
  destruct Hstep as [sys a obs Ha | sys a approved | sys a
                    | sys i a inf trig Hi | sys i t result Hi
                    | sys a f | sys]; simpl.
  - destruct (sentinel_iteration_cases a obs (orch sys))
      as [-> | (inf & _ & _ & _ & _ & _ & ->)]; [done|].
    rewrite on_detection_quarantine. simpl.
    rewrite size_union_alt, size_singleton.
    assert (Hsub : QuarantineController.quarantined (quarantine (orch sys)) ∖ {[a]}
            ⊆ QuarantineController.quarantined (quarantine (orch sys)))
      by set_solver.
    apply subseteq_size in Hsub. lia.
  - destruct (approve_healing_effect a approved (orch sys)) as (_ & -> & _).
    done.
  - destruct (start_healing_explicitly_effect a (orch sys)) as (_ & -> & _).
    done.
  - by destruct (orch sys).
  - pose proof (subseteq_size _ _ (heal_step_quarantine_sub result t (orch sys))).
    destruct (heal_step_counters result t (orch sys)) as (_ & Htq & _).
    destruct (heal_step result t (orch sys)).1. simpl in *. lia.
  - by destruct (orch sys).
  - by destruct (orch sys).
Qed.

(** X17: in every reachable state the number of quarantine events equals
    the number of infections counted (every counted infection quarantined
    its agent once, and nothing else quarantines), and the agents currently
    in quarantine are at most that many. *)
Theorem one_quarantine_event_per_infection agent_list sys :
  reachable agent_list sys →
  QuarantineController.total_quarantines (quarantine (orch sys))
    = total_infections (orch sys) ∧
  QuarantineController.get_quarantined_count (quarantine (orch sys))
    ≤ total_infections (orch sys).
Proof.
  intros Hr. destruct (reachable_counts _ _ Hr) as [_ HQ].
  split; [done|]. rewrite <- HQ. clear HQ.
  induction Hr as [|sys sys' _ IH Hstep]; [done|].
  by apply (step_quarantined_count sys).
Qed.
End count_facts.

(** ** More properties of the reachable states *)

Section reachable_facts.
Context `{Collaborators}.
Import PyDictFacts PyListFacts PyDictMore.

Lemma step_known sys sys' :
  step sys sys' →
  (∀ a, a ∈ QuarantineController.quarantined (quarantine (orch sys)) →
        a ∈ PyDict.keys (agents (orch sys))) →
  ∀ a, a ∈ QuarantineController.quarantined (quarantine (orch sys')) →
       a ∈ PyDict.keys (agents (orch sys')).
Proof.
  intros Hstep HK x. rewrite (g_agents _ _ (step_grows _ _ Hstep)).
  intros Hx. destruct Hstep as [sys a obs Ha | sys a approved | sys a
                    | sys i a inf trig Hi | sys i t result Hi
                    | sys a f | sys]; simpl in Hx.
  - apply sentinel_iteration_quarantine_sub in Hx.
    apply elem_of_union in Hx as [->%elem_of_singleton|Hx]; [done | by apply HK].
  - destruct (approve_healing_effect a approved (orch sys)) as (_ & Hq & _).
    rewrite Hq in Hx. by apply HK.
  - destruct (start_healing_explicitly_effect a (orch sys)) as (_ & Hq & _).
    rewrite Hq in Hx. by apply HK.
  - apply HK. by destruct (orch sys).
  - apply HK, (heal_step_quarantine_sub result t).
    by destruct (heal_step result t (orch sys)).1.
  - apply HK. by destruct (orch sys).
  - apply HK. by destruct (orch sys).
Qed.

Lemma reachable_known agent_list sys :
  reachable agent_list sys →
  PyDict.keys (agents (orch sys)) = PyDict.keys (agents (init agent_list)) ∧
  ∀ a, a ∈ QuarantineController.quarantined (quarantine (orch sys)) →
       a ∈ PyDict.keys (agents (orch sys)).
Proof.
  induction 1 as [|sys sys' _ [IH1 IH2] Hstep].
  - split; [done|]. simpl. set_solver.
  - split; [|by apply (step_known sys)].
    by rewrite (g_agents _ _ (step_grows _ _ Hstep)).
Qed.

Lemma task_at_start_not_in_progress sys i t :
  Inv sys → tasks (orch sys) !! i = Some t → started t = false →
  h_agent_id t ∉ healing_in_progress (orch sys).
Proof.
  intros [Hnd _ Hp _] Hi Hst Hin.
  apply Hp in Hin as (t0 & Ht0 & Hid & Hst0).
  apply list_elem_of_lookup_1 in Ht0 as [j Hj].
  assert (Hndt : NoDup (task_ids (orch sys))).
  { unfold owners in Hnd. apply NoDup_app in Hnd as (_ & _ & Hnd).
    apply NoDup_app in Hnd as (_ & _ & Hnd). by apply NoDup_app in Hnd as [? _]. }
  assert (Hij : i = j).
  { apply (NoDup_lookup _ i j (h_agent_id t) Hndt); unfold task_ids;
      rewrite list_lookup_fmap; [by rewrite Hi | rewrite Hj; simpl; by rewrite Hid]. }
  subst j. congruence.
Qed.

(** the resumptions at which a task that finds its agent returns *)
Lemma heal_step_returns_iff result t (s : State) :
  is_Some (PyDict.get (h_agent_id t) (agents s)) →
  (heal_step result t s).2 = None ↔
  (∃ diagnosis failed_actions,
     h_point t = at_sleep2 diagnosis failed_actions ∧
     Healer.get_next_action get_healing_policy (diagnosis_type diagnosis)
       failed_actions = None) ∨
  (∃ diagnosis action,
     h_point t = at_apply diagnosis action ∧
     Healer.validation_passed result = true).
Proof.
  intros [agent Hg]. unfold heal_step, heal_enter.
  destruct (h_point t) as [|dg|dg fa|dg act|] eqn:Hp.
  - destruct s. simpl in *. rewrite Hg. simpl.
    split; [done|]. by intros [(? & ? & ? & ?)|(? & ? & ? & ?)].
  - destruct s. simpl. try case_decide; simpl;
      (split; [done|]; by intros [(? & ? & ? & ?)|(? & ? & ? & ?)]).
  - destruct (Healer.get_next_action get_healing_policy (diagnosis_type dg) fa)
      as [act|] eqn:Hn; destruct s; simpl.
    + split; [done|].
      intros [(? & ? & Heq & Hn')|(? & ? & ? & ?)]; [|done].
      injection Heq as <- <-. congruence.
    + split; [|done]. intros _. left. by exists dg, fa.
  - destruct (Healer.validation_passed result) eqn:Hv; destruct s; unlog.
    + split; [|done]. intros _. right. by exists dg, act.
    + split; [done|]. by intros [(? & ? & ? & ?)|(? & ? & ? & ?)].
  - destruct s. simpl in *. rewrite Hg. simpl.
    split; [done|]. by intros [(? & ? & ? & ?)|(? & ? & ? & ?)].
Qed.

(** the first resumption of a task that finds its agent: the id goes into
    [healing_in_progress] and the task waits at its first [await] *)
Lemma heal_step_entry result t (s : State) :
  h_point t = at_start →
  is_Some (PyDict.get (h_agent_id t) (agents s)) →
  ∃ t', (heal_step result t s).2 = Some t' ∧
    h_agent_id t' = h_agent_id t ∧ started t' = true ∧
    healing_in_progress (heal_step result t s).1
      = {[h_agent_id t]} ∪ healing_in_progress s.
Proof.
  intros Hp [agent Hg]. unfold heal_step, heal_enter. rewrite Hp.
  destruct s. simpl in *. rewrite Hg. simpl. by eexists.
Qed.

(** C2: in every reachable state no two [heal_agent] tasks are for the same
    agent, and [healing_in_progress] holds exactly the agents whose task has
    entered the body and not returned.  A task that has not run yet is not
    in the set; its first resumption, the entry of [heal_agent], puts the
    agent id in the set and goes on to the first [await].  A resumption
    that does not return, the recursive escalation included, leaves the
    agent in the set; the one that returns takes it out, and a resumption
    returns in two cases only: a passing result of [apply_healing]
    (success) and no action left to try (exhaustion). *)
Theorem one_chain_per_agent_and_in_progress agent_list sys :
  reachable agent_list sys →
  NoDup (task_ids (orch sys)) ∧
  (∀ a, a ∈ healing_in_progress (orch sys) ↔
        ∃ t, t ∈ tasks (orch sys) ∧ h_agent_id t = a ∧ started t = true) ∧
  (∀ i t result, tasks (orch sys) !! i = Some t →
     match (heal_step result t (orch sys)).2 with
     | Some t' =>
         h_agent_id t' = h_agent_id t ∧
         h_agent_id t ∈ healing_in_progress (heal_step result t (orch sys)).1
     | None =>
         h_agent_id t ∉ healing_in_progress (heal_step result t (orch sys)).1
     end) ∧
  (∀ i t result, tasks (orch sys) !! i = Some t → h_point t = at_start →
     (h_agent_id t ∉ healing_in_progress (orch sys)) ∧
     ∃ t', (heal_step result t (orch sys)).2 = Some t' ∧
       h_agent_id t' = h_agent_id t ∧ started t' = true ∧
       (h_agent_id t ∈ healing_in_progress (heal_step result t (orch sys)).1) ∧
       healing_in_progress (heal_step result t (orch sys)).1
         = {[h_agent_id t]} ∪ healing_in_progress (orch sys)) ∧
  (∀ i t result, tasks (orch sys) !! i = Some t →
     (heal_step result t (orch sys)).2 = None ↔
     (∃ diagnosis failed_actions,
        h_point t = at_sleep2 diagnosis failed_actions ∧
        Healer.get_next_action get_healing_policy (diagnosis_type diagnosis)
          failed_actions = None) ∨
     (∃ diagnosis action,
        h_point t = at_apply diagnosis action ∧
        Healer.validation_passed result = true)).
Proof.
  intros Hr. destruct (reachable_known _ _ Hr) as [_ HK].
  pose proof (reachable_Inv _ _ Hr) as HI.
  assert (Hfound : ∀ i t, tasks (orch sys) !! i = Some t →
            is_Some (PyDict.get (h_agent_id t) (agents (orch sys)))).
  { intros i t Hi. apply mem_get, HK, (inv_quarantined _ HI), owner_parts.
    right. right. left. unfold task_ids. apply list_elem_of_fmap_2.
    by eapply list_elem_of_lookup_2. }
  pose proof HI as [Hnd Hq Hp _]. split_and!.
  - unfold owners in Hnd. apply NoDup_app in Hnd as (_ & _ & Hnd).
    apply NoDup_app in Hnd as (_ & _ & Hnd). by apply NoDup_app in Hnd as [? _].
  - apply Hp.
  - intros i t result Hi.
    destruct (heal_step result t (orch sys)).2 as [t'|] eqn:Hot.
    + destruct (heal_step_continue _ _ _ _ Hot) as (Hid & _ & _ & Hin & Hsub & _).
      split; [done|]. destruct (started t) eqn:Hst; [|by apply Hin].
      apply Hsub, Hp. exists t. split_and!; try done.
      by eapply list_elem_of_lookup_2.
    + destruct (heal_step_return _ _ _ Hot) as [-> _]. set_solver.
  - intros i t result Hi Hstart. split.
    + apply (task_at_start_not_in_progress sys i t HI Hi).
      unfold started. by rewrite Hstart.
    + destruct (heal_step_entry result t (orch sys) Hstart (Hfound i t Hi))
        as (t' & H1 & H2 & H3 & H4).
      exists t'. split_and!; try done. rewrite H4. set_solver.
  - intros i t result Hi. apply heal_step_returns_iff. by eapply Hfound.
Qed.

(** X18: in every reachable state the orchestrator manages the agents it
    was built with, only they can be in quarantine, and every [heal_agent]
    task is for one of them: the lookup [self.agents[agent_id]] at the
    entry of [heal_agent], and at the entry of each recursive call, finds
    the agent, and the task goes on to its first [await]. *)
Theorem heal_agent_always_finds_its_agent agent_list sys :
  reachable agent_list sys →
  PyDict.keys (agents (orch sys)) = PyDict.keys (agents (init agent_list)) ∧
  (∀ a, QuarantineController.is_quarantined a (quarantine (orch sys)) = true →
        a ∈ Agent.agent_id <$> agent_list) ∧
  (∀ i t, tasks (orch sys) !! i = Some t →
     is_Some (PyDict.get (h_agent_id t) (agents (orch sys))) ∧
     ∀ result, h_point t = at_start ∨ h_point t = at_sleep3 →
       is_Some (heal_step result t (orch sys)).2).
Proof.
  intros Hr. destruct (reachable_known _ _ Hr) as [Hkeys HK].
  pose proof (reachable_Inv _ _ Hr) as HI.
  split_and!; [done| |].
  - intros a Ha%bool_decide_eq_true. apply HK in Ha. rewrite Hkeys in Ha.
    simpl in Ha. apply elem_of_keys_comprehension in Ha as [Ha|Ha]; [done|].
    by apply elem_of_nil in Ha.
  - intros i t Hi.
    assert (Hg : is_Some (PyDict.get (h_agent_id t) (agents (orch sys)))).
    { apply mem_get, HK, (inv_quarantined _ HI), owner_parts.
      right. right. left. unfold task_ids. apply list_elem_of_fmap_2.
      by eapply list_elem_of_lookup_2. }
    split; [done|]. destruct Hg as [agent Hg].
    intros result [Hp|Hp]; unfold heal_step, heal_enter; rewrite Hp;
      destruct (orch sys); simpl in *; by rewrite Hg.
Qed.

(** X19: in every reachable state the action log names a list object of
    the heap, its cap is 80, it holds at most 80 entries, and
    [get_healing_actions] returns a list of at most 50 entries. *)
Theorem action_log_stays_bounded agent_list sys :
  reachable agent_list sys →
  let s := orch sys in
  _healing_action_log s < length (heap s) ∧
  _action_log_max s = 80 ∧
  length (healing_action_log s) ≤ 80 ∧
  length (PyList.deref (heap (get_healing_actions s).2)
                       (get_healing_actions s).1) ≤ 50.
Proof.
  intros [Hr Hm Hl]%reachable_Inv%inv_log s. fold s in Hr, Hm, Hl.
  split_and!; try done.
  assert (Hd : PyList.deref (heap (get_healing_actions s).2)
                 (get_healing_actions s).1
               = PyList.slice_last 50 (healing_action_log s)).
  { destruct s. unfold healing_action_log. simpl. unfold PyList.deref at 1.
    rewrite list_lookup_middle by done. simpl.
    unfold PyList.deref at 1. by rewrite list_lookup_middle. }
  rewrite Hd, length_slice_last; lia.
Qed.

(** X20: in every reachable state an agent that has a [heal_agent] task, or
    whose infection has been handed to a caller that has not scheduled it
    yet, is in the quarantine set and has neither a pending nor a rejected
    approval, and it is not in both situations at once. *)
Theorem agent_being_healed_is_quarantined_and_decided agent_list sys a :
  reachable agent_list sys →
  a ∈ task_ids (orch sys) ∨ a ∈ (returned sys).*1 →
  QuarantineController.is_quarantined a (quarantine (orch sys)) = true ∧
  PyDict.mem a (_pending_approvals (orch sys)) = false ∧
  PyDict.mem a (_rejected_approvals (orch sys)) = false ∧
  ¬ (a ∈ task_ids (orch sys) ∧ a ∈ (returned sys).*1).
Proof.
  intros [Hnd Hq _ _]%reachable_Inv Ha. unfold owners in Hnd.
  apply NoDup_app in Hnd as (_ & HdP & Hnd).
  apply NoDup_app in Hnd as (_ & HdR & Hnd).
  apply NoDup_app in Hnd as (_ & HdT & _).
  split_and!.
  - apply bool_decide_eq_true, Hq, owner_parts. tauto.
  - apply mem_false. intros HP. apply (HdP a HP). rewrite !elem_of_app. tauto.
  - apply mem_false. intros HR. apply (HdR a HR). rewrite !elem_of_app. tauto.
  - intros [HT HU]. by apply (HdT a HT).
Qed.
End reachable_facts.

(** ** Draining before shutdown *)

Section drain_facts.
Context `{Collaborators}.
Import PyDictFacts PyListFacts PyDictMore.

Lemma schedule_all_tasks trigger pairs (s : State) :
  schedule_all trigger pairs s
  = set_tasks (λ ts, ts ++ ((λ p, new_task p.1 p.2 trigger) <$> pairs)) s.
Proof.
  revert s. induction pairs as [|p pairs IH]; intros s.
  - destruct s. simpl. by rewrite app_nil_r.
  - unfold schedule_all in *. simpl. rewrite IH. destruct s. simpl.
    by rewrite <- app_assoc.
Qed.

Lemma approve_each_true_frame agent_ids (s : State) :
  _rejected_approvals (approve_each agent_ids true s).2 = _rejected_approvals s ∧
  quarantine (approve_each agent_ids true s).2 = quarantine s ∧
  tasks (approve_each agent_ids true s).2 = tasks s.
Proof.
  revert s. induction agent_ids as [|a rest IH]; intros s; [done|].
  simpl.
  destruct (approve_healing_effect a true s) as (_ & Hq & Ht & _ & Hcase).
  assert (Hr : _rejected_approvals (approve_healing a true s).2
               = _rejected_approvals s).
  { destruct (PyDict.get a (_pending_approvals s)).
    - by destruct Hcase as (_ & _ & ->).
    - by rewrite Hcase. }
  destruct (approve_healing a true s) as [r s1]. simpl in *.
  destruct (IH s1) as (I1 & I2 & I3).
  destruct (approve_each rest true s1) as [rs s2]. simpl in *.
  split_and!; congruence.
Qed.

(** X21: the draining part of [run].  Whatever is held when the run ends is
    scheduled: both approval maps are left empty, and one [heal_agent] task
    is queued after the existing ones for every pending approval, with
    trigger [drain_approve], and then for every rejected approval, with
    trigger [drain_heal_now], each with the infection that was stored, in
    the order of the maps; nobody is released from quarantine by the
    draining itself. *)
Theorem drain_queues_one_task_per_held_agent (s : State) :
  NoDup (PyDict.keys (_pending_approvals s)) →
  NoDup (PyDict.keys (_rejected_approvals s)) →
  let s' := drain s in
  _pending_approvals s' = [] ∧
  _rejected_approvals s' = [] ∧
  tasks s'
    = tasks s ++
      ((λ kv, new_task kv.1 (p_infection kv.2) "drain_approve")
         <$> _pending_approvals s) ++
      ((λ kv, new_task kv.1 (r_infection kv.2) "drain_heal_now")
         <$> _rejected_approvals s) ∧
  task_ids s'
    = task_ids s ++ PyDict.keys (_pending_approvals s) ++
      PyDict.keys (_rejected_approvals s) ∧
  quarantine s' = quarantine s.
Proof.
  intros HndP HndR s'.
  assert (Hmain : _pending_approvals s' = [] ∧ _rejected_approvals s' = [] ∧
    tasks s'
    = tasks s ++
      ((λ kv, new_task kv.1 (p_infection kv.2) "drain_approve")
         <$> _pending_approvals s) ++
      ((λ kv, new_task kv.1 (r_infection kv.2) "drain_heal_now")
         <$> _rejected_approvals s) ∧
    quarantine s' = quarantine s).
  { unfold s', drain, approve_all_pending.
    rewrite approve_all_loop_each. simpl.
    destruct (approve_each_all_approved _ s eq_refl HndP) as [Hpairs Hpend].
    destruct (approve_each_true_frame (PyDict.keys (_pending_approvals s)) s)
      as (HR & HQ & HT).
    rewrite Hpairs, schedule_all_tasks.
    set (s1 := (approve_each _ true s).2) in *.
    set (s2 := set_tasks _ s1).
    assert (H2 : _pending_approvals s2 = [] ∧
                 _rejected_approvals s2 = _rejected_approvals s ∧
                 quarantine s2 = quarantine s ∧
                 tasks s2 = tasks s ++
                   ((λ p, new_task p.1 p.2 "drain_approve") <$>
                    ((λ kv, (kv.1, p_infection kv.2)) <$> _pending_approvals s))).
    { unfold s2. clearbody s1. destruct s1. simpl in *. by subst. }
    clearbody s2. destruct H2 as (P2 & R2 & Q2 & T2).
    unfold start_healing_all_rejected. rewrite start_all_loop_each. simpl.
    rewrite R2.
    destruct (start_each_all (_rejected_approvals s) s2 R2 HndR)
      as (S1 & _ & S3 & S4 & S5 & S6).
    rewrite S1, schedule_all_tasks.
    set (s3 := (start_each _ s2).2) in *. clearbody s3.
    destruct s3. simpl in *. subst.
    rewrite T2, <- !list_fmap_compose, <- app_assoc. done. }
  destruct Hmain as (HP & HR & HT & HQ). split_and!; try done.
  unfold task_ids, PyDict.keys. rewrite HT, !fmap_app, <- !list_fmap_compose.
  done.
Qed.
End drain_facts.

(** ** The further statements on the small fleet *)

Section fleet_rest.
Import Demo DemoRest.
#[local] Existing Instance Demo.collaborators.

(** the sweep queues a task for Docker *)
Lemma sys_queued_reachable : reachable fleet sys_queued.
Proof.
  eapply reach_step; [apply reach_init|].
  apply (step_sweep sys0 "Docker" (sighting (mild "Docker"))).
  apply (bool_decide_unpack _). vm_compute. exact I.
Defined.

(** ... which is not in [healing_in_progress] before the task has run, and
    is the one agent in it once the task has entered [heal_agent] *)
Lemma one_chain_per_agent_witness :
  reachable fleet sys_queued ∧
  tasks (orch sys_queued) !! 0 = Some docker_task ∧
  h_point docker_task = at_start ∧
  NoDup (task_ids (orch sys_queued)) ∧
  ("Docker" ∉ healing_in_progress (orch sys_queued)) ∧
  is_Some (heal_step no_result docker_task (orch sys_queued)).2 ∧
  ("Docker" ∈ healing_in_progress (orch sys_healing)) ∧
  healing_in_progress (orch sys_healing) = {["Docker"]}.
Proof.
  split; [apply sys_queued_reachable|]. split; [reflexivity|].
  split; [reflexivity|].
  destruct (one_chain_per_agent_and_in_progress fleet sys_queued
              sys_queued_reachable) as (H1 & _ & _ & H4 & _).
  destruct (H4 0 docker_task no_result eq_refl eq_refl)
    as (Hout & t' & Ht' & _ & _ & Hin & Heq).
  assert (Hh : healing_in_progress (orch sys_healing)
               = healing_in_progress
                   (heal_step no_result docker_task (orch sys_queued)).1)
    by reflexivity.
  split_and!.
  - exact H1.
  - exact Hout.
  - rewrite Ht'. by eexists.
  - rewrite Hh. exact Hin.
  - rewrite Hh, Heq. apply set_eq. intros x.
    rewrite elem_of_union. split; [|by left]. intros [Hx|Hx]; [exact Hx|].
    exfalso. revert Hx. apply not_elem_of_empty.
Defined.

(** the three agents of the fleet have distinct ids: all three are managed *)
Lemma init_witness :
  NoDup (Agent.agent_id <$> fleet) ∧
  agents (init fleet) = [("VPN", vpn); ("Docker", docker); ("Slack", slack)].
Proof.
  assert (Hnd : NoDup (Agent.agent_id <$> fleet)).
  { apply (bool_decide_unpack _). vm_compute. exact I. }
  split; [exact Hnd|].
  destruct (init_one_agent_per_id fleet) as (_ & _ & _ & H4).
  rewrite (H4 Hnd). reflexivity.
Defined.

(** seventeen agents in the pool, fifteen under the orchestrator *)
Lemma pool_orchestrator_witness :
  ∃ pool,
    AgentPool.create_agent_pool 17 = Some pool ∧
    length pool = 17 ∧
    length (agents (init (AgentPool.agent <$> pool))) = 15.
Proof.
  destruct (AgentPool.create_agent_pool 17) as [pool|] eqn:E;
    [|vm_compute in E; discriminate].
  exists pool.
  destruct (pool_orchestrator_has_one_agent_per_name 17 pool E)
    as (_ & H2 & H3).
  split_and!; [reflexivity | exact H3 | exact H2].
Defined.

(** VPN is pending and the user rejects *)
Lemma approval_decision_witness :
  let entry := {| p_infection := severe "VPN";
                  p_diagnosis := diagnose (severe "VPN") tt;
                  requested_at := clk 1 |} in
  LogInv (orch sys_pending) ∧
  PyDict.get "VPN" (_pending_approvals (orch sys_pending)) = Some entry ∧
  (approve_healing "VPN" false (orch sys_pending)).1 = (None, false) ∧
  _rejected_approvals (approve_healing "VPN" false (orch sys_pending)).2
    = [("VPN", {| r_infection := severe "VPN";
                  r_diagnosis := diagnose (severe "VPN") tt;
                  rejected_at := clk 4 |})] ∧
  quarantine (approve_healing "VPN" false (orch sys_pending)).2
    = quarantine (orch sys_pending).
Proof.
  intros entry.
  assert (Hl : LogInv (orch sys_pending)) by (split; vm_compute; lia).
  assert (Hg : PyDict.get "VPN" (_pending_approvals (orch sys_pending))
               = Some entry) by reflexivity.
  split; [exact Hl|]. split; [exact Hg|].
  destruct (approval_decision_moves_the_entry (orch sys_pending) "VPN" false
              entry Hl Hg) as (H1 & _ & _ & H4 & _ & _ & H7 & _).
  split_and!; [exact H1 | rewrite H4; reflexivity | exact H7].
Defined.

(** ... and then asks to heal now *)
Lemma reject_then_heal_now_witness :
  let entry := {| p_infection := severe "VPN";
                  p_diagnosis := diagnose (severe "VPN") tt;
                  requested_at := clk 1 |} in
  PyDict.get "VPN" (_pending_approvals (orch sys_pending)) = Some entry ∧
  PyDict.mem "VPN" (_rejected_approvals (orch sys_pending)) = false ∧
  (start_healing_explicitly "VPN"
     (approve_healing "VPN" false (orch sys_pending)).2).1
    = Some (severe "VPN").
Proof.
  intros entry. split; [reflexivity|]. split; [reflexivity|].
  destruct (reject_then_heal_now_returns_the_infection (orch sys_pending) "VPN"
              entry eq_refl eq_refl) as (_ & _ & H3 & _).
  exact H3.
Defined.

(** three rejected agents, all started at once *)
Lemma start_healing_all_rejected_witness :
  NoDup (PyDict.keys (_rejected_approvals s_rejected3)) ∧
  (start_healing_all_rejected s_rejected3).1
    = [("VPN", severe "VPN"); ("Docker", severe "Docker");
       ("Slack", severe "Slack")] ∧
  _rejected_approvals (start_healing_all_rejected s_rejected3).2 = [].
Proof.
  assert (Hnd : NoDup (PyDict.keys (_rejected_approvals s_rejected3))).
  { apply (bool_decide_unpack _). vm_compute. exact I. }
  split; [exact Hnd|].
  destruct (start_healing_all_rejected_is_single_calls s_rejected3 Hnd)
    as (_ & _ & H3 & H4 & _).
  split; [rewrite H3; reflexivity | exact H4].
Defined.

(** three pending agents, all rejected at once *)
Lemma reject_all_pending_witness :
  NoDup (PyDict.keys (_pending_approvals s_pending3)) ∧
  Forall (λ k, k ∉ PyDict.keys (_rejected_approvals s_pending3))
         (PyDict.keys (_pending_approvals s_pending3)) ∧
  (approve_all_pending false s_pending3).1 = [] ∧
  PyDict.keys (_rejected_approvals s_rejected3) = ["VPN"; "Docker"; "Slack"] ∧
  time_reads s_rejected3 = time_reads s_pending3 + 6.
Proof.
  assert (Hnd : NoDup (PyDict.keys (_pending_approvals s_pending3))).
  { apply (bool_decide_unpack _). vm_compute. exact I. }
  assert (Hdis : Forall (λ k, k ∉ PyDict.keys (_rejected_approvals s_pending3))
                        (PyDict.keys (_pending_approvals s_pending3))).
  { apply (bool_decide_unpack _). vm_compute. exact I. }
  split; [exact Hnd|]. split; [exact Hdis|].
  destruct (reject_all_pending_moves_every_entry s_pending3 Hnd Hdis)
    as (H1 & _ & _ & H4 & H5 & _).
  split_and!; [exact H1 | unfold s_rejected3; rewrite H4; reflexivity
              | unfold s_rejected3; rewrite H5; reflexivity].
Defined.


(** nobody called Ghost in the fleet *)
Lemma heal_agent_of_unknown_agent_witness :
  h_point ghost_task = at_start ∧
  PyDict.get "Ghost" (agents s0) = None ∧
  (heal_step no_result ghost_task s0).2 = None ∧
  quarantine (heal_step no_result ghost_task s0).1 = quarantine s0.
Proof.
  split; [reflexivity|]. split; [reflexivity|].
  destruct (heal_agent_of_unknown_agent no_result ghost_task s0 eq_refl eq_refl)
    as (H1 & H2 & _).
  split; [rewrite H1; reflexivity | exact H2].
Defined.

(** the first sighting of VPN changes the state, the second does not *)
Lemma sweep_acts_witness :
  s_mild ≠ s0 ∧ total_infections s_mild = 1 ∧
  sentinel_iteration "VPN" (sighting (mild "VPN")) s_mild = s_mild.
Proof.
  destruct (sweep_acts_exactly_on_new_detections s0 "VPN" (sighting (mild "VPN")))
    as [Hiff Hthen].
  assert (Hne : s_mild ≠ s0).
  { apply Hiff. split_and!; try reflexivity. by eexists. }
  split; [exact Hne|].
  destruct (Hthen Hne) as (H1 & _ & _ & _ & _ & _ & _ & _ & H9).
  split; [exact H1 | apply H9].
Defined.

(** a sweep that sights every agent of the fleet *)
Lemma sweep_quarantines_witness :
  reachable fleet sys0 ∧
  "Docker" ∈ PyDict.keys (agents (orch sys0)) ∧
  QuarantineController.is_quarantined "Docker" (quarantine s_pending3) = true.
Proof.
  assert (Hin : "Docker" ∈ PyDict.keys (agents (orch sys0))).
  { apply (bool_decide_unpack _). vm_compute. exact I. }
  split; [apply reach_init|]. split; [exact Hin|].
  destruct (sweep_quarantines_every_sighted_agent fleet sys0
              (λ a, sighting (severe a)) "Docker" (reach_init _) Hin
              eq_refl eq_refl (ex_intro _ (severe "Docker") eq_refl))
    as [H1 _].
  exact H1.
Defined.

(** from the initial state to Docker being healed *)
Lemma sys_healing_run : rtc step sys0 sys_healing.
Proof.
  eapply rtc_l; [|eapply rtc_l; [|apply rtc_refl]].
  - apply (step_sweep sys0 "Docker" (sighting (mild "Docker"))).
    apply (bool_decide_unpack _). vm_compute. exact I.
  - apply (step_task sys_queued 0 docker_task no_result). reflexivity.
Defined.

Lemma counters_witness :
  rtc step sys0 sys_healing ∧
  total_infections (orch sys0) ≤ total_infections (orch sys_healing) ∧
  PyDict.keys (agents (orch sys_healing)) = PyDict.keys (agents (orch sys0)).
Proof.
  split; [apply sys_healing_run|].
  destruct (counters_and_records_only_grow sys0 sys_healing sys_healing_run)
    as (H1 & _ & _ & _ & _ & _ & _ & H8 & _).
  split; [exact H1 | exact H8].
Defined.

(** one infection counted, one fault held, nothing healed yet *)
Lemma success_rate_witness :
  reachable fleet sys_healing ∧
  total_healed (orch sys_healing) + length (owners sys_healing)
    ≤ total_infections (orch sys_healing) ∧
  (resolution_rate (orch sys_healing) <= 1)%Q.
Proof.
  split; [apply sys_healing_reachable|].
  destruct (success_rate_is_a_proportion fleet sys_healing sys_healing_reachable)
    as (H1 & _ & H3 & _).
  split; [exact H1 | exact H3].
Defined.

Lemma one_quarantine_event_witness :
  reachable fleet sys_rejected ∧
  QuarantineController.total_quarantines (quarantine (orch sys_rejected))
    = total_infections (orch sys_rejected).
Proof.
  split; [apply sys_rejected_reachable|].
  apply (one_quarantine_event_per_infection fleet sys_rejected
           sys_rejected_reachable).
Defined.

(** the task for Docker finds Docker *)
Lemma heal_agent_finds_witness :
  reachable fleet sys_healing ∧
  is_Some (PyDict.get "Docker" (agents (orch sys_healing))).
Proof.
  split; [apply sys_healing_reachable|].
  destruct (heal_agent_always_finds_its_agent fleet sys_healing
              sys_healing_reachable) as (_ & _ & H3).
  destruct (H3 0 (with_point docker_task
                    (at_sleep1 (@diagnose Demo.collaborators
                                  (mild "Docker") tt))) eq_refl)
    as [H4 _].
  exact H4.
Defined.

Lemma action_log_bounded_witness :
  reachable fleet sys_rejected ∧
  length (healing_action_log (orch sys_rejected)) ≤ 80.
Proof.
  split; [apply sys_rejected_reachable|].
  destruct (action_log_stays_bounded fleet sys_rejected sys_rejected_reachable)
    as (_ & _ & H3 & _).
  exact H3.
Defined.

(** Docker, being healed, is quarantined and not waiting for a decision *)
Lemma agent_being_healed_witness :
  reachable fleet sys_healing ∧
  "Docker" ∈ task_ids (orch sys_healing) ∧
  QuarantineController.is_quarantined "Docker" (quarantine (orch sys_healing))
    = true ∧
  PyDict.mem "Docker" (_pending_approvals (orch sys_healing)) = false.
Proof.
  assert (Hin : "Docker" ∈ task_ids (orch sys_healing)).
  { apply (bool_decide_unpack _). vm_compute. exact I. }
  split; [apply sys_healing_reachable|]. split; [exact Hin|].
  destruct (agent_being_healed_is_quarantined_and_decided fleet sys_healing
              "Docker" sys_healing_reachable (or_introl Hin))
    as (H1 & H2 & _).
  split; [exact H1 | exact H2].
Defined.

(** VPN pending and Docker rejected when the run ends *)
Lemma drain_witness :
  NoDup (PyDict.keys (_pending_approvals (orch sys_mixed))) ∧
  NoDup (PyDict.keys (_rejected_approvals (orch sys_mixed))) ∧
  _pending_approvals (drain (orch sys_mixed)) = [] ∧
  _rejected_approvals (drain (orch sys_mixed)) = [] ∧
  tasks (drain (orch sys_mixed))
    = [new_task "VPN" (severe "VPN") "drain_approve";
       new_task "Docker" (severe "Docker") "drain_heal_now"].
Proof.
  assert (HP : NoDup (PyDict.keys (_pending_approvals (orch sys_mixed)))).
  { apply (bool_decide_unpack _). vm_compute. exact I. }
  assert (HR : NoDup (PyDict.keys (_rejected_approvals (orch sys_mixed)))).
  { apply (bool_decide_unpack _). vm_compute. exact I. }
  split; [exact HP|]. split; [exact HR|].
  destruct (drain_queues_one_task_per_held_agent (orch sys_mixed) HP HR)
    as (H1 & H2 & H3 & _).
  split_and!; [exact H1 | exact H2 | rewrite H3; reflexivity].
Defined.
End fleet_rest.

(** ** What the immune memory remembers *)

Section memory_facts.
Context `{Collaborators}.
Import PyDictFacts PyListFacts PyDictMore.

Lemma get_failed_actions_prefix aid (dt : DiagnosisType)
    (m m' : list (ImmuneMemory.HealingRecord DiagnosisType HealingAction)) :
  m `prefix_of` m' →
  ImmuneMemory.get_failed_actions aid dt m
  ⊆ ImmuneMemory.get_failed_actions aid dt m'.
Proof.
  intros [k ->]. unfold ImmuneMemory.get_failed_actions.
  rewrite List.filter_app, fmap_app, list_to_set_app. set_solver.
Qed.

Lemma first_not_failed_outside (policy : list HealingAction) F act :
  Healer.first_not_failed policy F = Some act → act ∉ F.
Proof.
  induction policy as [|a policy IH]; simpl; [done|].
  destruct (decide (a ∈ F)); [done|]. by intros [= <-].
Qed.

(** X22: a healing attempt that fails validation is counted as a failed
    healing and recorded in the immune memory, the agent stays quarantined
    and in [healing_in_progress], and the task goes on to escalate.  From
    then on, however the system runs, the action is in the set of failed
    actions the memory reports for this agent and fault category, and
    [get_next_action] on that set never proposes it again. *)
Theorem failed_action_is_skipped_for_good result t (s : State) diagnosis action :
  h_point t = at_apply diagnosis action →
  Healer.validation_passed result = false →
  let agent_id := h_agent_id t in
  let category := diagnosis_type diagnosis in
  let s1 := (heal_step result t s).1 in
  (heal_step result t s).2 = Some (with_point t at_sleep3) ∧
  total_failed_healings s1 = S (total_failed_healings s) ∧
  total_healed s1 = total_healed s ∧
  quarantine s1 = quarantine s ∧ agents s1 = agents s ∧
  healing_in_progress s1 = healing_in_progress s ∧
  immune_memory s1
    = immune_memory s ++
      [{| ImmuneMemory.agent_id := agent_id;
          ImmuneMemory.diagnosis_type := category;
          ImmuneMemory.healing_action := action;
          ImmuneMemory.success := false |}] ∧
  ∀ sys sys',
    immune_memory (orch sys) = immune_memory s1 →
    rtc step sys sys' →
    action ∈ ImmuneMemory.get_failed_actions agent_id category
               (immune_memory (orch sys')) ∧
    Healer.get_next_action get_healing_policy category
      (ImmuneMemory.get_failed_actions agent_id category
         (immune_memory (orch sys'))) ≠ Some action.
Proof.
  intros Hp Hf agent_id category s1.
  destruct (heal_step_apply_failed result t s diagnosis action Hp Hf)
    as (s4 & Hstep & Hsum).
  assert (Hs1 : s1 = s4) by (unfold s1; by rewrite Hstep).
  rewrite Hstep, Hs1. simpl. unfold summary in Hsum.
  injection Hsum as Hag Hqu Hmem Hfa Hhe Hhip.
  split_and!; try done.
  intros sys sys' Hm Hrun.
  assert (Hin : action ∈ ImmuneMemory.get_failed_actions agent_id category
                           (immune_memory (orch sys'))).
  { assert (Hpre : immune_memory (orch sys) `prefix_of` immune_memory (orch sys')).
    { clear Hm. induction Hrun as [|sys1 sys2 sys3 Hst _ IH]; [done|].
      etrans; [apply (g_memory _ _ (step_grows _ _ Hst)) | done]. }
    apply (get_failed_actions_prefix agent_id category _ _ Hpre).
    rewrite Hm, Hmem. fold agent_id category.
    rewrite get_failed_actions_record. set_solver. }
  split; [done|].
  intros Hnext. by apply first_not_failed_outside in Hnext.
Qed.
End memory_facts.

Section fleet_memory.
Import Demo DemoRest.
#[local] Existing Instance Demo.collaborators.

(** the first action fails on VPN: the next proposal is the second *)
Lemma failed_action_witness :
  h_point applying_task = at_apply (diagnose (mild "VPN") tt) "first" ∧
  Healer.validation_passed (fails "first") = false ∧
  total_failed_healings (heal_step (fails "first") applying_task s_mild).1 = 1 ∧
  Healer.get_next_action get_healing_policy "drift"
    (ImmuneMemory.get_failed_actions "VPN" "drift"
       (immune_memory (heal_step (fails "first") applying_task s_mild).1))
  ≠ Some "first".
Proof.
  split; [reflexivity|]. split; [reflexivity|].
  destruct (@failed_action_is_skipped_for_good Demo.collaborators
              (fails "first") applying_task s_mild
              (@diagnose Demo.collaborators (mild "VPN") tt) "first"
              eq_refl eq_refl)
    as (_ & H2 & _ & _ & _ & _ & _ & H8).
  split; [rewrite H2; reflexivity|].
  set (s1 := (heal_step (fails "first") applying_task s_mild).1) in *.
  destruct (H8 {| orch := s1; returned := [] |} {| orch := s1; returned := [] |}
              eq_refl (rtc_refl _ _)) as [_ H9].
  exact H9.
Defined.
End fleet_memory.

(** ** An episode that heals at once *)

Section episode_facts.
Context `{Collaborators}.
Import PyDictFacts PyListFacts PyDictMore.


End episode_facts.

Section fleet_episode.
Import Demo DemoRest.
#[local] Existing Instance Demo.collaborators.

End fleet_episode.
